(** * Verification of the task board front end (static/js)

    A shallow embedding of the client-side logic of [kanban.js],
    [archive.js], [news.js] and [reports.js], and the properties the
    specification states about it.

    Conventions of the embedding.
    - A JavaScript string is a [string]; a field that may be absent
      ([null]/[undefined]) is an [option].
    - A [Date] is its time value, an integer number of milliseconds ([Z]).
      Date strings that do not parse (time value [NaN]) are outside the
      model, but for the date of a summary, where the code throws on them.
    - Task ids are the integers the backend issues; a DOM [dataset] attribute
      holding one is modelled by the number, [None] while the attribute is
      unset. Where the code tests an id for truthiness, the id says whether
      it comes as a number or as the text of an attribute.
    - The DOM elements the handlers look up are those of the page templates
      and are taken to exist.
    - An [async] handler is run from its event to its end, with the answers
      the backend gives to its requests; no other event is taken while it
      waits. A call that is not awaited sends its request at once and runs
      on once the handler has returned. Where other events are taken while
      a handler waits (the reply of the modal, the sync, the callbacks of
      an audio), the handler is cut at its [await] and the page goes on
      from the event that resumes it. *)

From Stdlib Require Import ZArith String Ascii List Lia.
From Stdlib Require Import Sorting.Sorted.
From stdpp Require Import base list strings pretty.
From Stdlib Require QArith Qround.

Local Open Scope string_scope.
Local Open Scope Z_scope.

(** ** Values shared by the pages *)

(** A task as the client reads it from [GET /api/tasks]. *)
Record task := Task {
  id : Z;
  status : string;
  triage_category : string;
  priority : string;
  project : option string;
  sender : option string;
  created_at : Z;
  received_at : option Z;
  delegated_to : option string;
  reply_acknowledge : option string;
  reply_done : option string;
  reply_delegate : option string;
  suggested_reply : option string
}.

#[global] Instance task_eq_dec : EqDecision task.
Proof. solve_decision. Defined.

(** JavaScript truthiness of a value that is a string when present. *)
Definition truthy (v : option string) : bool :=
  match v with
  | Some s => negb (String.eqb s "")
  | None => false
  end.

(** [a || b] on such values. *)
Definition js_or (a b : option string) : option string :=
  if truthy a then a else b.

(** ** kanban.js: the board's view model *)

Module Kanban.

(** [cols] of [renderTasks]: the three executive and the three kanban
    buckets. *)
Record cols := Cols {
  quick : list task;
  deep : list task;
  waiting : list task;
  todo : list task;
  doing : list task;
  paused : list task
}.

Definition empty_cols : cols := Cols [] [] [] [] [] [].

(** [Object.values(cols)] *)
Definition values (c : cols) : list (list task) :=
  [quick c; deep c; waiting c; todo c; doing c; paused c].

Definition push_quick (t : task) (c : cols) : cols :=
  Cols (quick c ++ [t]) (deep c) (waiting c) (todo c) (doing c) (paused c).
Definition push_deep (t : task) (c : cols) : cols :=
  Cols (quick c) (deep c ++ [t]) (waiting c) (todo c) (doing c) (paused c).
Definition push_waiting (t : task) (c : cols) : cols :=
  Cols (quick c) (deep c) (waiting c ++ [t]) (todo c) (doing c) (paused c).
Definition push_todo (t : task) (c : cols) : cols :=
  Cols (quick c) (deep c) (waiting c) (todo c ++ [t]) (doing c) (paused c).
Definition push_doing (t : task) (c : cols) : cols :=
  Cols (quick c) (deep c) (waiting c) (todo c) (doing c ++ [t]) (paused c).
Definition push_paused (t : task) (c : cols) : cols :=
  Cols (quick c) (deep c) (waiting c) (todo c) (doing c) (paused c ++ [t]).

(** [filter && t.field !== filter] *)
Definition filtered_out (flt field : option string) : bool :=
  truthy flt && negb (bool_decide (field = flt)).

(** "Common Exclusions" *)
Definition excluded (t : task) : bool :=
  String.eqb (status t) "closed" || String.eqb (status t) "archived".

(** "Executive View Logic" *)
Definition place_executive (t : task) (c : cols) : cols :=
  if String.eqb (triage_category t) "waiting_for" then push_waiting t c
  else if String.eqb (triage_category t) "quick_action" then push_quick t c
  else if String.eqb (triage_category t) "deep_work" then push_deep t c
  else push_deep t c.

(** "Kanban View Logic" *)
Definition place_kanban (t : task) (c : cols) : cols :=
  if String.eqb (status t) "new" then push_todo t c
  else if String.eqb (status t) "in_progress" then push_doing t c
  else if String.eqb (status t) "paused" then push_paused t c
  else c.

(** The body of [tasks.forEach(t => ...)]. *)
Definition place (filterProject filterSender : option string)
    (c : cols) (t : task) : cols :=
  if excluded t then c
  else if filtered_out filterProject (project t) then c
  else if filtered_out filterSender (sender t) then c
  else place_kanban t (place_executive t c).

(** The names an object literal inherits from [Object.prototype]. *)
Definition Object_prototype : list string :=
  ["constructor"; "__defineGetter__"; "__defineSetter__"; "hasOwnProperty";
   "__lookupGetter__"; "__lookupSetter__"; "isPrototypeOf";
   "propertyIsEnumerable"; "toString"; "valueOf"; "__proto__";
   "toLocaleString"].

(** What [pMap[p]] can be: a number of the literal, or what the prototype
    holds under an inherited name, a function (for [__proto__] the
    prototype itself). Different names hold different objects. *)
Inductive value :=
  | Number (n : Z)
  | Inherited (name : string).

#[global] Instance value_eq_dec : EqDecision value.
Proof. solve_decision. Defined.

(** [pMap[p]] for the literal [{high:3, medium:2, low:1}]; [None] is
    [undefined]. *)
Definition pMap (p : string) : option value :=
  if String.eqb p "high" then Some (Number 3)
  else if String.eqb p "medium" then Some (Number 2)
  else if String.eqb p "low" then Some (Number 1)
  else if bool_decide (p ∈ Object_prototype) then Some (Inherited p)
  else None.

(** [pMap[t.priority] || 1]: the numbers of the literal and the inherited
    objects are all truthy. *)
Definition rank (t : task) : value := default (Number 1) (pMap (priority t)).

(** [y - x]; [None] is [NaN], the difference when one side is no number. *)
Definition minus (y x : value) : option Z :=
  match y, x with
  | Number b, Number a => Some (b - a)
  | _, _ => None
  end.

(** [sortFn]: negative when [a] goes first. *)
Definition sortFn (a b : task) : option Z :=
  let pA := rank a in
  let pB := rank b in
  if negb (bool_decide (pA = pB)) then minus pB pA
  else Some (created_at b - created_at a).

(** The comparison of [Array.prototype.sort]: the answer of the comparator
    as a number, [NaN] counting as 0. *)
Definition SortCompare {A} (comparefn : A -> A -> option Z) (x y : A) : Z :=
  default 0 (comparefn x y).

(** [Array.prototype.sort] with a comparator: a stable sort. Where the
    comparator is no consistent order the standard leaves the result to the
    engine; the model is then what inserting from the right gives, which
    leaves alone an array on which every comparison of neighbours answers
    0 or less. *)
Fixpoint insert_sorted {A} (cmp : A -> A -> Z) (x : A) (l : list A) : list A :=
  match l with
  | [] => [x]
  | y :: l' => if cmp x y <=? 0 then x :: l else y :: insert_sorted cmp x l'
  end.

Definition array_sort {A} (cmp : A -> A -> Z) (l : list A) : list A :=
  foldr (insert_sorted cmp) [] l.

Definition sort_all (c : cols) : cols :=
  Cols (array_sort (SortCompare sortFn) (quick c))
       (array_sort (SortCompare sortFn) (deep c))
       (array_sort (SortCompare sortFn) (waiting c))
       (array_sort (SortCompare sortFn) (todo c))
       (array_sort (SortCompare sortFn) (doing c))
       (array_sort (SortCompare sortFn) (paused c)).

(** [renderTasks(tasks)] up to the sorted buckets; the two filter values are
    what the [filterProject] and [filterSender] selects hold. *)
Definition renderTasks (filterProject filterSender : option string)
    (tasks : list task) : cols :=
  sort_all (fold_left (place filterProject filterSender) tasks empty_cols).

(** *** getSLAStatus *)

Record sla := Sla {
  sla_status : string;
  sla_color : string;
  sla_text : string;
  daysElapsed : Z;
  isOverdue : bool
}.

Definition ms_per_day : Z := 1000 * 60 * 60 * 24.

(** [getSLAStatus(receivedDateStr)]; [now] is [new Date()] and [slaDays] the
    page's variable of that name. The field [fullDate], the date in the
    browser's locale, is left out. *)
Definition getSLAStatus (now slaDays : Z) (receivedDateStr : option Z) : sla :=
  match receivedDateStr with
  | None => Sla "Unknown" "bg-gray-100 text-gray-600" "N/A" 0 false
  | Some received =>
      let diffTime := now - received in
      let daysElapsed := diffTime / ms_per_day in
      let text :=
        if daysElapsed <=? 0 then "Today"
        else (pretty daysElapsed ++ "d ago")%string in
      if daysElapsed >? slaDays then
        Sla "Overdue" "bg-red-100 text-red-700 font-bold" text daysElapsed true
      else if daysElapsed >=? slaDays - 1 then
        Sla "At Risk" "bg-orange-100 text-orange-700" text daysElapsed false
      else
        Sla "On Time" "bg-green-100 text-green-700" text daysElapsed false
  end.


(** *** The page's state, the network and the effects of a handler *)

Record contact := Contact {
  c_name : option string;
  c_email : string
}.

(** The object literals handed to [updateTask]: [{status}],
    [{triage_category}] and the staged delegation
    [{triage_category: 'waiting_for', delegated_to}]. *)
Inductive payload :=
  | PStatus (new_status : string)
  | PCategory (new_category : string)
  | PDelegation (delegate : option string).

Inductive request :=
  | GetTasks                                   (* GET /api/tasks *)
  | PutTask (task_id : Z) (p : payload)        (* PUT /api/tasks/{id} *)
  | DeleteTask (task_id : Z)                   (* DELETE /api/tasks/{id} *)
  | PostReply (task_id : Z) (reply_body : string)
      (reply_type : option string)             (* POST /api/tasks/{id}/reply *)
  | GetCircle (search : string).               (* GET /api/circle?search= *)

(** A JSON body as the handlers read it: the [error] field of an error
    object, the task array of [GET /api/tasks]. *)
Record json := Json {
  j_error : option string;
  j_tasks : list task
}.

(** What a [fetch] comes to: the promise rejects (no answer from the
    network), or an answer with [response.ok] and a body, [None] when the
    body is not JSON. *)
Inductive response :=
  | Rejected (message : string)
  | Answer (ok : bool) (body : option json).

(** What a handler does that the user or the backend can observe, in order. *)
Inductive effect :=
  | Fetch (rq : request) (rs : response)
  | ShowMessage (text : string) (kind : string) (dismiss_ms : Z)
  | Render (c : cols)
  | Dom (op : string).

Record world := World {
  allTasks : list task;
  selectedReplyType : option string;
  selectedDelegate : option contact;
  pendingTaskUpdate : option payload;
  currentTaskId : option Z;          (* taskModalPanel.dataset.currentTaskId *)
  deleteId : option Z;               (* confirmDeleteModal.dataset.id *)
  modalTaskReply : string;           (* value of the reply box *)
  filterProject : option string;     (* value of the project select *)
  filterSender : option string;      (* value of the sender select *)
  trace : list effect;               (* effects so far, oldest first *)
  inflight : list response;          (* answers to calls of getTasks not awaited *)
  server : list response             (* answers to the requests still to come *)
}.

Definition set_allTasks (v : list task) (w : world) : world :=
  World v (selectedReplyType w) (selectedDelegate w) (pendingTaskUpdate w)
    (currentTaskId w) (deleteId w) (modalTaskReply w) (filterProject w)
    (filterSender w) (trace w) (inflight w) (server w).
Definition set_selectedReplyType (v : option string) (w : world) : world :=
  World (allTasks w) v (selectedDelegate w) (pendingTaskUpdate w)
    (currentTaskId w) (deleteId w) (modalTaskReply w) (filterProject w)
    (filterSender w) (trace w) (inflight w) (server w).
Definition set_selectedDelegate (v : option contact) (w : world) : world :=
  World (allTasks w) (selectedReplyType w) v (pendingTaskUpdate w)
    (currentTaskId w) (deleteId w) (modalTaskReply w) (filterProject w)
    (filterSender w) (trace w) (inflight w) (server w).
Definition set_pendingTaskUpdate (v : option payload) (w : world) : world :=
  World (allTasks w) (selectedReplyType w) (selectedDelegate w) v
    (currentTaskId w) (deleteId w) (modalTaskReply w) (filterProject w)
    (filterSender w) (trace w) (inflight w) (server w).
Definition set_currentTaskId (v : option Z) (w : world) : world :=
  World (allTasks w) (selectedReplyType w) (selectedDelegate w)
    (pendingTaskUpdate w) v (deleteId w) (modalTaskReply w) (filterProject w)
    (filterSender w) (trace w) (inflight w) (server w).
Definition set_deleteId (v : option Z) (w : world) : world :=
  World (allTasks w) (selectedReplyType w) (selectedDelegate w)
    (pendingTaskUpdate w) (currentTaskId w) v (modalTaskReply w)
    (filterProject w) (filterSender w) (trace w) (inflight w) (server w).
Definition set_modalTaskReply (v : string) (w : world) : world :=
  World (allTasks w) (selectedReplyType w) (selectedDelegate w)
    (pendingTaskUpdate w) (currentTaskId w) (deleteId w) v (filterProject w)
    (filterSender w) (trace w) (inflight w) (server w).
Definition set_filters (p s : option string) (w : world) : world :=
  World (allTasks w) (selectedReplyType w) (selectedDelegate w)
    (pendingTaskUpdate w) (currentTaskId w) (deleteId w) (modalTaskReply w)
    p s (trace w) (inflight w) (server w).
Definition set_trace (v : list effect) (w : world) : world :=
  World (allTasks w) (selectedReplyType w) (selectedDelegate w)
    (pendingTaskUpdate w) (currentTaskId w) (deleteId w) (modalTaskReply w)
    (filterProject w) (filterSender w) v (inflight w) (server w).
Definition set_inflight (v : list response) (w : world) : world :=
  World (allTasks w) (selectedReplyType w) (selectedDelegate w)
    (pendingTaskUpdate w) (currentTaskId w) (deleteId w) (modalTaskReply w)
    (filterProject w) (filterSender w) (trace w) v (server w).
Definition set_server (v : list response) (w : world) : world :=
  World (allTasks w) (selectedReplyType w) (selectedDelegate w)
    (pendingTaskUpdate w) (currentTaskId w) (deleteId w) (modalTaskReply w)
    (filterProject w) (filterSender w) (trace w) (inflight w) v.

(** A handler either runs to its end or leaves by an exception, whose
    [message] it carries. *)
Inductive outcome (A : Type) :=
  | Done (a : A)
  | Thrown (message : string).
Arguments Done {A} a.
Arguments Thrown {A} message.

Definition M (A : Type) : Type := world -> world * outcome A.

Definition ret {A} (a : A) : M A := fun w => (w, Done a).
Definition throw {A} (message : string) : M A := fun w => (w, Thrown message).
Definition bind {A B} (m : M A) (k : A -> M B) : M B :=
  fun w =>
    match m w with
    | (w', Done a) => k a w'
    | (w', Thrown e) => (w', Thrown e)
    end.
(** [try { m } catch (error) { h error.message }] *)
Definition try_catch {A} (m : M A) (h : string -> M A) : M A :=
  fun w =>
    match m w with
    | (w', Done a) => (w', Done a)
    | (w', Thrown e) => h e w'
    end.
(** [try { m } finally { f }], for an [f] that does not throw. *)
Definition try_finally {A} (m : M A) (f : world -> world) : M A :=
  fun w => let '(w', r) := m w in (f w', r).
Definition modify (f : world -> world) : M unit := fun w => (f w, Done tt).
Definition get {A} (f : world -> A) : M A := fun w => (w, Done (f w)).
Definition emit (e : effect) : M unit :=
  modify (fun w => set_trace (trace w ++ [e]) w).

#[global] Instance M_ret : MRet M := @ret.
#[global] Instance M_bind : MBind M := fun A B k m => bind m k.

(** The state a handler leaves, whatever its outcome. *)
Definition exec {A} (m : M A) (w : world) : world := fst (m w).

(** [await fetch(...)]: the request goes out and the next answer of the
    backend comes back; a rejected promise is an exception. *)
Definition next_answer (w : world) : response :=
  hd (Rejected "Failed to fetch") (server w).

Definition fetch (rq : request) : M (bool * option json) :=
  fun w =>
    let rs := next_answer w in
    let w' := set_trace (trace w ++ [Fetch rq rs]) (set_server (tl (server w)) w) in
    match rs with
    | Rejected e => (w', Thrown e)
    | Answer ok body => (w', Done (ok, body))
    end.

(** [await response.json()] *)
Definition json_of (body : option json) : M json :=
  match body with
  | Some j => ret j
  | None => throw "Unexpected token in JSON"
  end.

(** [showMessage(message, type)]: the message is shown, and taken away by
    [setTimeout(() => msgDiv.remove(), 3000)]. *)
Definition showMessage (message kind : string) : M unit :=
  emit (ShowMessage message kind 3000).

(** [allTasks.find(x => x.id === id)] *)
Definition find_task (tid : option Z) (l : list task) : option task :=
  match tid with
  | Some n => List.find (fun x => id x =? n) l
  | None => None
  end.

(** [populateFilters]: the options are rebuilt, and a selection survives
    only if some task still carries it. *)
Definition keeps_project (cur : option string) (l : list task) : bool :=
  existsb (fun t => truthy (project t)
                    && negb (bool_decide (project t = Some "Unknown"))
                    && bool_decide (project t = cur)) l.
Definition keeps_sender (cur : option string) (l : list task) : bool :=
  existsb (fun t => truthy (sender t) && bool_decide (sender t = cur)) l.

Definition populateFilters : M unit :=
  modify (fun w =>
    set_filters
      (if keeps_project (filterProject w) (allTasks w) then filterProject w else Some "")
      (if keeps_sender (filterSender w) (allTasks w) then filterSender w else Some "")
      w).

Definition renderBoard : M unit :=
  w ← get (fun w => w);
  emit (Render (renderTasks (filterProject w) (filterSender w) (allTasks w))).

(** [getTasks] from the answer on: the part after [await fetch('/api/tasks')]. *)
Definition getTasks_resume (rs : response) : M unit :=
  try_catch
    (match rs with
     | Rejected e => throw e
     | Answer ok body =>
         if negb ok then throw "Failed to fetch tasks"
         else
           j ← json_of body;
           modify (set_allTasks (j_tasks j));;
           populateFilters;;
           renderBoard
     end)
    (fun e => showMessage e "error").

(** [await getTasks()] *)
Definition getTasks : M unit :=
  fun w =>
    let rs := next_answer w in
    getTasks_resume rs
      (set_trace (trace w ++ [Fetch GetTasks rs]) (set_server (tl (server w)) w)).

(** [getTasks()] not awaited: the request goes out now, the rest runs once
    the calling handler has returned. *)
Definition getTasks_detached : M unit :=
  fun w =>
    let rs := next_answer w in
    (set_inflight (inflight w ++ [rs])
       (set_trace (trace w ++ [Fetch GetTasks rs]) (set_server (tl (server w)) w)),
     Done tt).

(** The event loop running what the handler left in flight. *)
Definition settle (w : world) : world :=
  fold_left (fun w rs => exec (getTasks_resume rs) w) (inflight w)
    (set_inflight [] w).

(** *** The handlers of the task modal *)

Definition nl : string := String "010"%char "".

(** [s.split(' ')[0]] *)
Fixpoint first_word (s : string) : string :=
  match s with
  | "" => ""
  | String c s' => if Ascii.eqb c " "%char then "" else String c (first_word s')
  end.

Definition is_space (c : ascii) : bool :=
  let n := nat_of_ascii c in
  ((9 <=? n) && (n <=? 13) || (n =? 32))%nat.

(** [!s.trim()], on the white space of ASCII. *)
Fixpoint is_blank (s : string) : bool :=
  match s with
  | "" => true
  | String c s' => is_space c && is_blank s'
  end.

(** A value interpolated in a template string. *)
Definition show (v : option string) : string := default "null" v.

Definition switchTaskTab (tab : string) : M unit := emit (Dom ("tab:" ++ tab)).
Definition closeTaskModal : M unit := emit (Dom "closeTaskModal").
Definition closeDeleteModal : M unit := emit (Dom "closeDeleteModal").
Definition closeDelegateModal : M unit := emit (Dom "closeDelegateModal").
Definition refreshModalState : M unit := emit (Dom "refreshModalState").

(** [searchContacts(query)]: one request, whose answer only fills the
    contact list; a failure is logged to the console. *)
Definition searchContacts (query : string) : M unit :=
  try_catch ('(_, body) ← fetch (GetCircle query);
             json_of body;;
             emit (Dom "delegateList"))
            (fun _ => ret tt).

Definition openDelegateModal : M unit :=
  modify (set_selectedDelegate None);;
  emit (Dom "openDelegateModal");;
  searchContacts "".

(** [copyReply(taskId, type)] *)
Definition copyReply (taskId : option Z) (type : string) : M unit :=
  w ← get (fun w => w);
  match find_task taskId (allTasks w) with
  | None => ret tt
  | Some task =>
      modify (set_selectedReplyType (Some type));;
      modify (set_pendingTaskUpdate None);;
      if String.eqb type "delegate" then openDelegateModal
      else
        let text :=
          if String.eqb type "acknowledge" then reply_acknowledge task
          else if String.eqb type "done" then reply_done task
          else Some "" in
        let text :=
          if negb (truthy text) && String.eqb type "acknowledge"
             && truthy (suggested_reply task)
          then suggested_reply task else text in
        if negb (truthy text) then
          showMessage "No reply generated for this option." "error"
        else
          modify (set_modalTaskReply (default "" text));;
          switchTaskTab "reply";;
          showMessage ("Draft updated for '" ++ type ++ "'") "success"
  end.

(** [openTaskModal(e, id)]; the texts it writes into the modal are not
    modelled, but for the reply box. *)
Definition openTaskModal (tid : Z) : M unit :=
  w ← get (fun w => w);
  match find_task (Some tid) (allTasks w) with
  | None => ret tt
  | Some t =>
      modify (set_selectedReplyType None);;
      modify (set_pendingTaskUpdate None);;
      switchTaskTab "overview";;
      modify (set_currentTaskId (Some tid));;
      modify (set_modalTaskReply
                (default "" (js_or (js_or (reply_acknowledge t) (suggested_reply t))
                                   (Some ""))));;
      refreshModalState;;
      emit (Dom "openTaskModal")
  end.

Definition selectContact (c : contact) : M unit :=
  modify (set_selectedDelegate (Some c));;
  emit (Dom "selectContact").

(** [updateTask(id, payload)] *)
Definition closes (p : payload) : bool :=
  match p with
  | PStatus s => String.eqb s "closed" || String.eqb s "archived"
  | _ => false
  end.

Definition updateTask (tid : Z) (p : payload) : M unit :=
  try_catch
    ('(ok, _) ← fetch (PutTask tid p);
     if negb ok then throw "Failed to update task"
     else
       getTasks;;
       w ← get (fun w => w);
       (if bool_decide (currentTaskId w = Some tid) then
          if closes p then closeTaskModal else refreshModalState
        else ret tt);;
       showMessage "Task updated" "success")
    (fun e => showMessage e "error").

(** A task id as a handler is called with it: the number written into an
    [onclick] attribute, or the text of a [dataset] attribute or of a drag
    transfer, which is never empty. *)
Inductive id_arg :=
  | IdNumber (n : Z)
  | IdText (n : Z).

(** [taskId] where the code tests it ([taskId || ...], [!taskId]): the id
    when the argument is truthy. Of the ids only the number 0 is falsy. *)
Definition given (taskId : option id_arg) : option Z :=
  match taskId with
  | Some (IdNumber n) => if n =? 0 then None else Some n
  | Some (IdText n) => Some n
  | None => None
  end.

(** [updateTaskStatus(newStatus, taskId = null)] *)
Definition updateTaskStatus (newStatus : string) (taskId : option id_arg) : M unit :=
  w ← get (fun w => w);
  match (if given taskId is Some _ then given taskId else currentTaskId w) with
  | None => ret tt
  | Some tid => updateTask tid (PStatus newStatus)
  end.

(** [updateTaskCategory(newCategory, taskId)] *)
Definition updateTaskCategory (newCategory : string) (taskId : option id_arg)
    : M unit :=
  match given taskId with
  | None => ret tt
  | Some tid => updateTask tid (PCategory newCategory)
  end.

Definition openDeleteModal (tid : Z) : M unit :=
  modify (set_deleteId (Some tid));;
  emit (Dom "openDeleteModal").

(** [confirmDelete()] *)
Definition confirmDelete : M unit :=
  w ← get (fun w => w);
  match deleteId w with
  | None => ret tt
  | Some tid =>
      fetch (DeleteTask tid);;
      closeDeleteModal;;
      closeTaskModal;;
      getTasks_detached;;
      showMessage "Deleted" "success"
  end.

(** [sendReply(e)], with nothing else happening on the page while it
    waits for its answers. *)
Definition sendReply : M unit :=
  w ← get (fun w => w);
  match currentTaskId w with
  | None => showMessage "Error: Task ID missing" "error"
  | Some tid =>
      if is_blank (modalTaskReply w) then
        showMessage "Please enter a reply text." "error"
      else
        emit (Dom "sendBtn:disabled");;
        try_finally
          (try_catch
             ('(ok, body) ← fetch (PostReply tid (modalTaskReply w) (selectedReplyType w));
              (if negb ok then
                 err ← json_of body;
                 throw (default "Failed to send email"
                          (js_or (j_error err) None))
               else ret tt);;
              w1 ← get (fun w => w);
              match pendingTaskUpdate w1 with
              | Some p =>
                  updateTask tid p;;
                  modify (set_pendingTaskUpdate None)
              | None => ret tt
              end;;
              closeTaskModal;;
              getTasks_detached;;
              showMessage "Email sent successfully!" "success")
             (fun e => showMessage e "error"))
          (exec (emit (Dom "sendBtn:enabled")))
  end.

(** [sendReply] cut at its [await fetch]: the Send button is disabled
    while the reply is on its way, the rest of the modal is not, and the
    function goes on from the answer with the page as it is then. This is
    the part up to the request: the task id, the text and the type of the
    reply it sends, when it gets that far. *)
Definition sendReply_clicked (w : world)
    : world * option (Z * string * option string) :=
  match currentTaskId w with
  | None => (exec (showMessage "Error: Task ID missing" "error") w, None)
  | Some tid =>
      if is_blank (modalTaskReply w) then
        (exec (showMessage "Please enter a reply text." "error") w, None)
      else
        (exec (emit (Dom "sendBtn:disabled")) w,
         Some (tid, modalTaskReply w, selectedReplyType w))
  end.

(** [sendReply] from the answer to its [POST] on, run to its end. *)
Definition sendReply_answered (tid : Z) (reply_body : string)
    (reply_type : option string) (rs : response) : M unit :=
  try_finally
    (try_catch
       (emit (Fetch (PostReply tid reply_body reply_type) rs);;
        '(ok, body) ← match rs with
                      | Rejected e => throw e
                      | Answer ok body => ret (ok, body)
                      end;
        (if negb ok then
           err ← json_of body;
           throw (default "Failed to send email"
                    (js_or (j_error err) None))
         else ret tt);;
        w1 ← get (fun w => w);
        match pendingTaskUpdate w1 with
        | Some p =>
            updateTask tid p;;
            modify (set_pendingTaskUpdate None)
        | None => ret tt
        end;;
        closeTaskModal;;
        getTasks_detached;;
        showMessage "Email sent successfully!" "success")
       (fun e => showMessage e "error"))
    (exec (emit (Dom "sendBtn:enabled"))).

(** [confirmDelegation()] *)
Definition confirmDelegation : M unit :=
  w ← get (fun w => w);
  match selectedDelegate w with
  | None => ret tt
  | Some delegate =>
      match currentTaskId w with
      | None => showMessage "Error: No active task selected." "error"
      | Some taskId =>
          let task := find_task (Some taskId) (allTasks w) in
          let baseText := if task is Some t then reply_delegate t else Some "" in
          replyText ←
            (if truthy baseText then ret (default "" baseText)
             else match c_name delegate with
                  | None => throw "Cannot read properties of null (reading 'split')"
                  | Some name =>
                      ret ("Hi " ++ first_word name ++ "," ++ nl ++ nl
                           ++ "Please handle this request. Let me know if you need any guidance."
                           ++ nl ++ nl ++ "Thanks,")
                  end);
          modify (set_modalTaskReply replyText);;
          modify (set_pendingTaskUpdate (Some (PDelegation (c_name delegate))));;
          showMessage ("Draft created for " ++ show (c_name delegate)
                       ++ ". Send email to finalize delegation.") "success";;
          closeDelegateModal;;
          switchTaskTab "reply"
      end
  end.

(** *** What the user does on the page *)

Inductive action :=
  | OpenTaskModal (tid : Z)                 (* View Details on a card *)
  | CopyReply (taskId : option Z) (type : string)   (* an entry of the reply menu *)
  | SelectContact (c : contact)             (* a contact of the delegate list *)
  | ConfirmDelegation                       (* the Delegate Task button *)
  | TypeReply (text : string)               (* the user edits the reply box *)
  | SendReply                               (* the Send button *)
  | UpdateTaskStatus (newStatus : string) (taskId : option id_arg)
                                            (* a status button, or a drop on a kanban column *)
  | UpdateTaskCategory (newCategory : string) (taskId : option id_arg)
                                            (* a drop on an executive column *)
  | OpenDeleteModal (tid : Z)               (* the Delete button *)
  | ConfirmDelete                           (* the confirmation of the delete dialog *)
  | Refresh.                                (* getTasks, as after a sync *)

Definition handler (a : action) : M unit :=
  match a with
  | OpenTaskModal tid => openTaskModal tid
  | CopyReply taskId type => copyReply taskId type
  | SelectContact c => selectContact c
  | ConfirmDelegation => confirmDelegation
  | TypeReply text => modify (set_modalTaskReply text)
  | SendReply => sendReply
  | UpdateTaskStatus s taskId => updateTaskStatus s taskId
  | UpdateTaskCategory c taskId => updateTaskCategory c taskId
  | OpenDeleteModal tid => openDeleteModal tid
  | ConfirmDelete => confirmDelete
  | Refresh => getTasks
  end.

(** One event: the handler runs, then what it left in flight. *)
Definition step (w : world) (a : action) : world := settle (exec (handler a) w).

Definition run (acts : list action) (w : world) : world := fold_left step acts w.

(** The page with a reply that may be on its way: what [sendReply] keeps
    from before its request. *)
Record waiting_page := Waiting {
  page_world : world;
  replying : option (Z * string * option string)
}.

Inductive page_event :=
  | Act (a : action)               (* an event whose handler is run to its end *)
  | ClickSend                      (* the Send button *)
  | ReplyArrives (rs : response).  (* the answer to the reply on its way *)

(** One event of this page. The Send button is disabled while a reply is
    on its way, so a click on it then runs nothing. *)
Definition page_step (p : waiting_page) (e : page_event) : waiting_page :=
  match e with
  | Act a => Waiting (step (page_world p) a) (replying p)
  | ClickSend =>
      match replying p with
      | Some _ => p
      | None =>
          let '(w, sent) := sendReply_clicked (page_world p) in Waiting w sent
      end
  | ReplyArrives rs =>
      match replying p with
      | Some (tid, reply_body, reply_type) =>
          Waiting
            (settle (exec (sendReply_answered tid reply_body reply_type rs)
                       (page_world p)))
            None
      | None => p
      end
  end.

Definition page_run (evs : list page_event) (p : waiting_page) : waiting_page :=
  fold_left page_step evs p.

(** The requests of a trace, and those that change the backend. *)
Definition requests (tr : list effect) : list request :=
  omap (fun e => if e is Fetch rq _ then Some rq else None) tr.

Definition mutating (rq : request) : bool :=
  match rq with
  | PutTask _ _ | DeleteTask _ | PostReply _ _ _ => true
  | GetTasks | GetCircle _ => false
  end.

(** *** Vocabulary of the properties: the board *)

(** [a] may stand before [b] under the comparator. *)
Definition before {A} (cmp : A -> A -> Z) (a b : A) : Prop := cmp a b <= 0.

(** The task passes the two filters of the board. *)
Definition passes (fp fs : option string) (t : task) : Prop :=
  filtered_out fp (project t) = false /\ filtered_out fs (sender t) = false.

(** The task is neither excluded nor filtered out. *)
Definition shown (fp fs : option string) (t : task) : Prop :=
  excluded t = false /\ passes fp fs t.

(** The task is placed: it is on the snapshot, not closed or archived, and
    passes the filters. *)
Definition placed (fp fs : option string) (tasks : list task) (t : task) : Prop :=
  t ∈ tasks /\ excluded t = false /\ passes fp fs t.

Definition exactly_one (P Q R : Prop) : Prop :=
  (P /\ ~ Q /\ ~ R) \/ (~ P /\ Q /\ ~ R) \/ (~ P /\ ~ Q /\ R).

(** The statuses a task has: the five the code tests for. *)
Definition statuses : list string :=
  ["new"; "in_progress"; "paused"; "closed"; "archived"].

(** The priority of the task is no name that [pMap] inherits. *)
Definition ordinary (t : task) : Prop := priority t ∉ Object_prototype.

(** *** Vocabulary of the properties: what a handler did *)

(** The effects [w'] has beyond those of [w]. *)
Definition since (w w' : world) : list effect :=
  drop (length (trace w)) (trace w').

(** The [n]-th answer the backend will give from [w] on. *)
Definition answer (n : nat) (w : world) : response :=
  nth n (server w) (Rejected "Failed to fetch").

Definition answered_ok (rs : response) : bool :=
  match rs with Answer true _ => true | _ => false end.

(** A request that failed: no answer, or an answer that is not 2xx. *)
Definition failed (e : effect) : bool :=
  match e with
  | Fetch _ rs => negb (answered_ok rs)
  | _ => false
  end.

Definition error_message (e : effect) : bool :=
  match e with
  | ShowMessage _ kind _ => String.eqb kind "error"
  | _ => false
  end.

(** Every message is taken away after three seconds. *)
Definition transient (e : effect) : Prop :=
  match e with
  | ShowMessage _ _ ms => ms = 3000
  | _ => True
  end.

Definition is_render (e : effect) : bool :=
  match e with Render _ => true | _ => false end.

(** A re-fetch that brought a snapshot. *)
Definition got_tasks (e : effect) : bool :=
  match e with Fetch GetTasks (Answer true (Some _)) => true | _ => false end.

Definition count (f : effect -> bool) (l : list effect) : nat :=
  length (List.filter f l).

(** The task whose staged delegation this request applies. *)
Definition delegation_put (e : effect) : option Z :=
  match e with
  | Fetch (PutTask tid (PDelegation _)) _ => Some tid
  | _ => None
  end.

(** The task whose reply this request sent, when the backend accepted it. *)
Definition reply_sent (e : effect) : option Z :=
  match e with
  | Fetch (PostReply tid _ _) (Answer true _) => Some tid
  | _ => None
  end.

(** Every request that applies a staged delegation comes right after the
    accepted reply of the same task; [prev] is what the effect before [l]
    sent. *)
Fixpoint after_reply (prev : option Z) (l : list effect) : Prop :=
  match l with
  | [] => True
  | e :: l' =>
      match delegation_put e with
      | Some tid => prev = Some tid
      | None => True
      end /\ after_reply (reply_sent e) l'
  end.

Definition no_staged_put (l : list effect) : Prop :=
  Forall (fun e => delegation_put e = None) l.

Definition no_fetch (l : list effect) : Prop :=
  Forall (fun e => match e with Fetch _ _ => False | _ => True end) l.

Definition no_put (l : list effect) : Prop :=
  Forall (fun e => match e with Fetch (PutTask _ _) _ => False | _ => True end) l.

(** The handler ends without an exception; a failure is answered by a
    message at once, or by the re-fetch left in flight. *)
Definition catches (m : M unit) : Prop :=
  forall w, exists l extra,
    trace (exec m w) = (trace w ++ l)%list /\
    inflight (exec m w) = (inflight w ++ extra)%list /\
    snd (m w) = Done tt /\
    Forall transient l /\
    (count failed l
     <= count error_message l + count failed (map (Fetch GetTasks) extra))%nat.

(** C6 as the specification words it: the action sends exactly one request
    that changes the backend. *)
Definition one_request_round_trip (a : action) (w : world) : Prop :=
  exists rq, List.filter mutating (requests (since w (step w a))) = [rq].

(** C7 as the specification words it, for one handler: it ends without an
    exception, and every request that failed has its error message, each
    message one that goes after three seconds. *)
Definition failure_surfaced (m : M unit) (w : world) : Prop :=
  snd (m w) = Done tt /\
  Forall transient (since w (settle (exec m w))) /\
  (count failed (since w (settle (exec m w)))
   <= count error_message (since w (settle (exec m w))))%nat.

(** C10 as the specification words it: the handler resets the staged
    update, from any state of the page. *)
Definition resets_staged_update (m : M unit) : Prop :=
  forall w, pendingTaskUpdate (exec m w) = None.

(** *** Sample tasks and pages *)

(** Two tasks that differ in priority, a closed one, and one whose status
    is none of the five the board knows. *)
Definition task_low : task :=
  Task 1 "new" "deep_work" "low" (Some "Alpha") (Some "ann@example.org")
    2000 None None None None None None.
Definition task_high : task :=
  Task 2 "in_progress" "deep_work" "high" (Some "Alpha") (Some "bob@example.org")
    1000 None None None None None None.
Definition task_closed : task :=
  Task 3 "closed" "quick_action" "high" (Some "Alpha") (Some "ann@example.org")
    3000 None None None None None None.
(** Three tasks of one bucket: two of high priority, and between them one
    whose priority is a name every object inherits. *)
Definition task32 : task :=
  Task 32 "new" "deep_work" "high" (Some "Alpha") (Some "ann@example.org")
    1000 None None None None None None.
Definition task31 : task :=
  Task 31 "new" "deep_work" "constructor" (Some "Alpha") (Some "ann@example.org")
    1500 None None None None None None.
Definition task33 : task :=
  Task 33 "new" "deep_work" "high" (Some "Alpha") (Some "ann@example.org")
    2000 None None None None None None.

(** A board with one task, a contact, and a backend that accepts. *)
Definition task7 : task :=
  Task 7 "new" "deep_work" "high" (Some "Alpha") (Some "ann@example.org")
    5000 (Some 4000) None (Some "Thanks, noted.") (Some "Done.") None None.

Definition dana : contact := Contact (Some "Dana Kim") "dana@example.org".

Definition accepted (l : list task) : response := Answer true (Some (Json None l)).

Definition board (answers : list response) : world :=
  World [task7] None None None None None "" (Some "") (Some "") [] [] answers.

(** The user opens the task, asks to delegate and picks the contact. *)
Definition delegate_chosen : world :=
  run [OpenTaskModal 7; CopyReply (Some 7) "delegate"; SelectContact dana]
    (board [accepted []; accepted []; accepted []; accepted [task7]; accepted [task7]]).

(** Then confirms: the delegation is staged. *)
Definition delegation_staged : world :=
  run [ConfirmDelegation] delegate_chosen.

(** The modal is open on task 7 with a delegation staged, and a re-fetch
    brings a snapshot without that task. *)
Definition task_gone : world :=
  run [OpenTaskModal 7; CopyReply (Some 7) "delegate"; SelectContact dana;
       ConfirmDelegation; Refresh]
    (board [accepted []; accepted []; accepted []; accepted []; accepted []]).

(** A board whose requests get no answer, and one with the delete dialog
    open on task 7. *)
Definition offline : world := board [].

Definition offline_delete : world := exec (openDeleteModal 7) offline.

(** The user opens task 7 and sends the acknowledgement it comes with;
    while that reply is on its way the user asks to delegate, picks the
    contact and confirms; then the answer to the reply arrives. *)
Definition reply_overtaken : list page_event :=
  [Act (OpenTaskModal 7); ClickSend;
   Act (CopyReply (Some 7) "delegate"); Act (SelectContact dana);
   Act ConfirmDelegation;
   ReplyArrives (Answer true None)].

(** The reply of a staged delegation, about to be sent with no network. *)
Definition staged_offline : world :=
  World [task7] (Some "delegate") (Some dana) (Some (PDelegation (Some "Dana Kim")))
    (Some 7) None "Hi Dana," (Some "") (Some "") [] [] [].

End Kanban.

(** ** archive.js: the CSV export *)

Module Archive.

Definition dquote : ascii := "034"%char.
Definition CR : ascii := "013"%char.
Definition LF : ascii := "010"%char.

(** [s.replace(/(\r\n|\n|\r)/gm, ' ')]: scanning from the left, a CR LF pair
    or a lone CR or LF becomes one space. *)
Fixpoint replace_newlines (s : string) : string :=
  match s with
  | "" => ""
  | String c s' =>
      if Ascii.eqb c CR then
        match s' with
        | String c' s'' =>
            if Ascii.eqb c' LF then String " " (replace_newlines s'')
            else String " " (replace_newlines s')
        | "" => String " " ""
        end
      else if Ascii.eqb c LF then String " " (replace_newlines s')
      else String c (replace_newlines s')
  end.

(** [s.includes(c)] for a one-character needle. *)
Fixpoint includes (c : ascii) (s : string) : bool :=
  match s with
  | "" => false
  | String c' s' => Ascii.eqb c' c || includes c s'
  end.

(** [s.replace] of every double quote by two of them. *)
Fixpoint double_quotes (s : string) : string :=
  match s with
  | "" => ""
  | String c s' =>
      if Ascii.eqb c dquote then String dquote (String dquote (double_quotes s'))
      else String c (double_quotes s')
  end.

(** [escapeCSV(str)] *)
Definition escapeCSV (str : option string) : string :=
  if negb (truthy str) then String dquote (String dquote "")
  else
    let newStr := replace_newlines (default "" str) in
    if includes ","%char newStr
    then String dquote (double_quotes newStr ++ String dquote "")
    else newStr.

(** A closed task as the archive page reads it. *)
Record closed_task := ClosedTask {
  task_summary : option string;
  ct_sender : option string;
  subject : option string;
  action_taken : option string;
  status_updated_at : option Z;
  ct_created_at : Z
}.

Definition headers : list string :=
  ["Summary"; "From"; "Subject"; "Action Taken"; "Date Closed"].

Definition CRLF : string := String CR (String LF "").

(** [a.join(",")] *)
Fixpoint join_commas (l : list string) : string :=
  match l with
  | [] => ""
  | [x] => x
  | x :: l' => x ++ "," ++ join_commas l'
  end.

Section CsvExport.
(** [new Date(ms).toLocaleDateString()] depends on the browser's locale. *)
Variable toLocaleDateString : Z -> string.

Definition row (t : closed_task) : list string :=
  [ escapeCSV (task_summary t);
    escapeCSV (ct_sender t);
    escapeCSV (subject t);
    escapeCSV (action_taken t);
    escapeCSV (Some (toLocaleDateString
                       (default (ct_created_at t) (status_updated_at t)))) ].

(** [exportToCSV()] up to [csvContent]; [None] when there is nothing to
    export and only the message is shown. *)
Definition exportToCSV (list : list closed_task) : option string :=
  match list with
  | [] => None
  | _ =>
      Some (fold_left (fun csv t => csv ++ join_commas (row t) ++ CRLF) list
              ("data:text/csv;charset=utf-8," ++ join_commas headers ++ CRLF))
  end.
End CsvExport.

(** *** A sample field *)

(** The field [He said "hi"]: a quote and no comma. *)
Definition quoted_word : string :=
  "He said " ++ String dquote ("hi" ++ String dquote "").

End Archive.

(** ** news.js: the audio player *)

Module News.

(** The Listen button of a summary card. *)
Record button := Button {
  card : nat;
  audioPath : string
}.

#[global] Instance button_eq_dec : EqDecision button.
Proof. solve_decision. Defined.

(** An [Audio] object, with the button its callbacks were given. *)
Record audio := Audio {
  a_id : nat;
  a_src : string;
  a_button : button
}.

#[global] Instance audio_eq_dec : EqDecision audio.
Proof. solve_decision. Defined.

Inductive effect :=
  | Pause (a : audio)
  | ClearCurrent
  | ResetButton (b : button)
  | NewAudio (a : audio)
  | StyleStop (b : button)
  | Play (a : audio)
  | ShowMessage (text : string) (kind : string) (dismiss_ms : Z).

Record page := Page {
  currentAudio : option audio;
  sounding : list audio;      (* the Audio objects played and not paused *)
  playing : list button;      (* the buttons carrying the class 'playing' *)
  created : nat;              (* how many Audio objects were made *)
  log : list effect
}.

Definition init : page := Page None [] [] 0 [].

Definition say (e : effect) (p : page) : page :=
  Page (currentAudio p) (sounding p) (playing p) (created p) (log p ++ [e]).

(** [a.pause()] *)
Definition pause (a : audio) (p : page) : page :=
  say (Pause a)
    (Page (currentAudio p) (filter (fun x => x ≠ a) (sounding p)) (playing p)
       (created p) (log p)).

(** The body of [targets.forEach(btn => ...)]. *)
Definition reset_button (p : page) (b : button) : page :=
  say (ResetButton b)
    (Page (currentAudio p) (sounding p) (filter (fun x => x ≠ b) (playing p))
       (created p) (log p)).

(** [stopSpeaking(btnEl)]; without a button every playing one is reset. *)
Definition stopSpeaking (btnEl : option button) (p : page) : page :=
  let p1 :=
    match currentAudio p with
    | Some a =>
        let p' := pause a p in
        say ClearCurrent (Page None (sounding p') (playing p') (created p') (log p'))
    | None => p
    end in
  let targets := match btnEl with Some b => [b] | None => playing p1 end in
  fold_left reset_button targets p1.

(** [playSummary(btnEl)] *)
Definition playSummary (btnEl : button) (p : page) : page :=
  if bool_decide (btnEl ∈ playing p) then stopSpeaking (Some btnEl) p
  else
    let p1 := if currentAudio p is Some _ then stopSpeaking None p else p in
    let a := Audio (created p1) (audioPath btnEl) btnEl in
    let p2 := say (NewAudio a)
                (Page (Some a) (sounding p1) (playing p1) (S (created p1)) (log p1)) in
    let p3 := say (StyleStop btnEl)
                (Page (currentAudio p2) (sounding p2) (playing p2 ++ [btnEl])
                   (created p2) (log p2)) in
    say (Play a)
      (Page (currentAudio p3) (sounding p3 ++ [a]) (playing p3) (created p3) (log p3)).

(** The callbacks [playSummary] gives the audio it creates. *)
Definition onended (a : audio) (p : page) : page :=
  stopSpeaking (Some (a_button a)) p.
Definition onerror (a : audio) (p : page) : page :=
  stopSpeaking (Some (a_button a))
    (say (ShowMessage "Error playing audio file." "error" 3000) p).
Definition play_rejected (a : audio) (p : page) : page :=
  stopSpeaking (Some (a_button a))
    (say (ShowMessage "Could not play audio file." "error" 3000) p).

(** What happens on the page: the user clicks a button, or a callback of
    an audio runs. [playSummary] leaves its callbacks on every audio it
    made, also once the audio is paused and another one is current; so they
    can run for any audio the page has made. *)
Inductive event :=
  | Click (b : button)
  | Ended (a : audio)
  | Errored (a : audio)
  | PlayRejected (a : audio).

(** The audio is one the page has made. *)
Definition made (a : audio) (p : page) : Prop := NewAudio a ∈ log p.

Inductive step : page -> event -> page -> Prop :=
  | step_click p b :
      step p (Click b) (playSummary b p)
  | step_ended p a :
      made a p -> step p (Ended a) (onended a p)
  | step_errored p a :
      made a p -> step p (Errored a) (onerror a p)
  | step_rejected p a :
      made a p -> step p (PlayRejected a) (play_rejected a p).

Inductive reachable : page -> Prop :=
  | reach_init : reachable init
  | reach_step p e p' : reachable p -> step p e p' -> reachable p'.

(** *** Vocabulary of the properties *)

(** Nothing sounds and no audio is current. *)
Definition silent (p : page) : Prop :=
  currentAudio p = None /\ sounding p = [].

(** A player in order: silent with no button styled, or one audio sounding
    with the button it was started from styled. *)
Definition idle (p : page) : Prop :=
  currentAudio p = None /\ sounding p = [] /\ playing p = [].

Definition active (a : audio) (p : page) : Prop :=
  currentAudio p = Some a /\ sounding p = [a] /\ playing p = [a_button a].

(** What every page the player reaches has: no audio sounds but the
    current one, and the button of the current one is styled. *)
Definition one_sound (p : page) : Prop :=
  (silent p \/ exists a, currentAudio p = Some a /\ sounding p = [a]) /\
  (forall a, currentAudio p = Some a -> a_button a ∈ playing p).

Definition button_a : button := Button 1 "/static/audio/2024-05-01.mp3".
Definition button_b : button := Button 2 "/static/audio/2024-05-02.mp3".
Definition button_c : button := Button 3 "/static/audio/2024-05-03.mp3".

(** The audio of a first click on [button_a], and of a third click, on
    [button_c]. *)
Definition audio_a : audio := Audio 0 (audioPath button_a) button_a.
Definition audio_c : audio := Audio 2 (audioPath button_c) button_c.

(** The user listens to A, then to B; while B plays, the download of A,
    which is paused, fails. *)
Definition late_error : list event :=
  [Click button_a; Click button_b; Errored audio_a].

(** The handler of an event. *)
Definition handle (p : page) (e : event) : page :=
  match e with
  | Click b => playSummary b p
  | Ended a => onended a p
  | Errored a => onerror a p
  | PlayRejected a => play_rejected a p
  end.

End News.

(** ** reports.js: generating a report *)

Module Reports.

Record report_json := ReportJson {
  url : option string
}.

Inductive response :=
  | Rejected (message : string)
  | Answer (ok : bool) (body : option report_json).

Inductive effect :=
  | Fetch (endpoint : string) (rs : response)
  | Alert (text : string)
  | Dom (op : string)
  | WindowOpen (target : string).

Record page := Page {
  trace : list effect;
  server : list response
}.

Definition say (e : effect) (p : page) : page := Page (trace p ++ [e]) (server p).

Definition next_answer (p : page) : response :=
  hd (Rejected "Failed to fetch") (server p).

Definition sent (endpoint : string) (p : page) : page :=
  Page (trace p ++ [Fetch endpoint (next_answer p)]) (tl (server p)).

(** [loadReports()]: the list is rebuilt from the answer, or shows the
    error in place. *)
Definition loadReports (p : page) : page :=
  let p1 := say (Dom "reportsList:loading") p in
  let rs := next_answer p1 in
  let p2 := sent "/api/reports/list" p1 in
  match rs with
  | Answer _ (Some _) => say (Dom "reportsList:files") p2
  | _ => say (Dom "reportsList:error") p2
  end.

(** The [try] block of [generateReport]: the page it leaves, and the
    message of the exception when it is left by one. *)
Definition generate (isConsol : bool) (endpoint : string) (p : page)
    : page * option string :=
  let rs := next_answer p in
  let p1 := sent endpoint p in
  match rs with
  | Rejected e => (p1, Some e)
  | Answer false _ => (p1, Some "Generation failed")
  | Answer true None => (p1, Some "Unexpected token in JSON")
  | Answer true (Some data) =>
      let p2 := say (Dom (if isConsol then "closeConsolidateModal"
                          else "closeGenerateModal")) p1 in
      let p3 := loadReports p2 in
      (if truthy (url data) then say (WindowOpen (default "" (url data))) p3
       else p3, None)
  end.

(** [generateReport(type)]; [start] and [end_] are the values of the two
    date inputs. The second component is the exception that leaves the
    handler, if any. *)
Definition generateReport (type start end_ : string) (p : page)
    : page * option string :=
  let isConsol := String.eqb type "consolidated" in
  if String.eqb start "" || String.eqb end_ "" then
    (say (Alert "Please select both start and end dates.") p, None)
  else
    let p1 := say (Dom "btn:disabled") p in
    let endpoint :=
      if isConsol then "/api/reports/consolidated" else "/api/reports/custom" in
    let '(p2, thrown) := generate isConsol endpoint p1 in
    let '(p3, thrown) :=
      match thrown with
      | Some e => (say (Alert ("Error: " ++ e)) p2, None)
      | None => (p2, None)
      end in
    (say (Dom "btn:enabled") p3, thrown).

(** *** Vocabulary of the properties *)

Definition offline_reports : page := Page [] [].

Definition report_failed (rs : response) : bool :=
  match rs with
  | Answer true _ => false
  | _ => true
  end.

End Reports.

(** ** kanban.js: cards, filters and the rest of the board *)

Module Board.
Import Kanban.

(** The task reaches the pushes of [renderTasks]: it is not excluded and
    passes both filters. *)
Definition visible (fp fs : option string) (t : task) : bool :=
  negb (excluded t)
  && negb (filtered_out fp (project t))
  && negb (filtered_out fs (sender t)).

(** The tests of the two if-chains of [renderTasks]. *)
Definition to_waiting (t : task) : bool :=
  String.eqb (triage_category t) "waiting_for".
Definition to_quick (t : task) : bool :=
  negb (to_waiting t) && String.eqb (triage_category t) "quick_action".
Definition to_deep (t : task) : bool :=
  negb (to_waiting t) && negb (String.eqb (triage_category t) "quick_action").
Definition to_todo (t : task) : bool := String.eqb (status t) "new".
Definition to_doing (t : task) : bool := String.eqb (status t) "in_progress".
Definition to_paused (t : task) : bool := String.eqb (status t) "paused".

(** [clearFilters()] *)
Definition clearFilters : M unit :=
  modify (set_filters (Some "") (Some ""));;
  renderBoard.

(** What [createTaskCard(task)] puts on a card. *)
Record card := Card {
  card_task : Z;                   (* dataset.taskId *)
  project_label : string;          (* task.project || 'Unknown' *)
  pulse : bool;                    (* class sla-overdue-pulse *)
  dimmed : bool;                   (* class opacity-75 *)
  priority_badge : bool;           (* the High badge *)
  delegate_info : option string;   (* Delegated to: ... *)
  status_label : option string;
  card_sla : sla;
  quick_actions : list string      (* the status each quick button asks for *)
}.

(** [createTaskCard(task)]; [now] and [slaDays] as for [getSLAStatus]. *)
Definition createTaskCard (now slaDays : Z) (t : task) : card :=
  let sla := getSLAStatus now slaDays (Some (default (created_at t) (received_at t))) in
  Card (id t)
    (default "Unknown" (js_or (project t) None))
    (isOverdue sla && negb (String.eqb (status t) "closed")
     && negb (String.eqb (status t) "paused"))
    (String.eqb (status t) "paused")
    (String.eqb (priority t) "high")
    (if truthy (delegated_to t) then delegated_to t else None)
    (if String.eqb (status t) "new" then Some "New"
     else if String.eqb (status t) "in_progress" then Some "In Progress"
     else if String.eqb (status t) "paused" then Some "Paused"
     else if String.eqb (status t) "closed" then Some "Closed"
     else None)
    sla
    (if String.eqb (status t) "in_progress" then ["paused"; "closed"]
     else if String.eqb (status t) "paused" then ["in_progress"; "closed"]
     else ["closed"]).

(** [refreshModalState(taskId)]: the label of the first button of the
    modal and the status its click asks for; the second button asks for
    closed. *)
Definition start_button (t : task) : string * string :=
  if String.eqb (status t) "in_progress" then ("Pause", "paused")
  else if String.eqb (status t) "paused" then ("Resume", "in_progress")
  else ("Start", "in_progress").

(** A column of the board: its [data-status] and [data-category]. *)
Record column := Column {
  data_status : option string;
  data_category : option string
}.

(** [handleDragStart(e)]: the id of the card goes into the transfer. *)
Definition handleDragStart (c : card) : option Z := Some (card_task c).

(** [handleDrop(e)], for the column the drop is in, if any, and the id in
    the transfer, a text. *)
Definition handleDrop (col : option column) (taskId : option Z) : M unit :=
  match col with
  | None => ret tt
  | Some column =>
      emit (Dom "column:plain");;
      match taskId with
      | None => ret tt
      | Some n =>
          if truthy (data_status column) then
            updateTaskStatus (default "" (data_status column)) (Some (IdText n))
          else if truthy (data_category column) then
            updateTaskCategory (default "" (data_category column)) (Some (IdText n))
          else ret tt
      end
  end.

(** The two filters of the board, as a test on a task. *)
Definition passes_filters (fp fs : option string) (t : task) : bool :=
  negb (filtered_out fp (project t)) && negb (filtered_out fs (sender t)).

(** The messages of a trace, with their kind, and what was done to the
    page's elements. *)
Definition messages (l : list effect) : list (string * string) :=
  omap (fun e => if e is ShowMessage text kind _ then Some (text, kind) else None) l.
Definition dom_ops (l : list effect) : list string :=
  omap (fun e => if e is Dom op then Some op else None) l.

(** Sample tasks: one without a project, one old and paused. *)
Definition task_no_project : task :=
  Task 11 "new" "quick_action" "low" None (Some "ann@example.org")
    1000 None None None None None None.
Definition task_paused_old : task :=
  Task 12 "paused" "deep_work" "high" (Some "Alpha") (Some "ann@example.org")
    0 None None None None None None.

End Board.

(** ** kanban.js: syncing with the mailbox *)

(** The flag [isSyncing] only matters when an event comes while a sync
    waits for the network. So here a handler is cut at each [await]: it
    runs up to the request, and goes on when the answer arrives, with the
    clicks and the other answers that came in between. *)

Module Sync.
Import Kanban.

Definition BATCH_SYNC_COOLDOWN_MINUTES : Z := 60.

Inductive request :=
  | Emails                         (* POST /api/sync *)
  | Historical (date : string)     (* POST /api/sync/historical *)
  | Tasks                          (* GET /api/tasks *)
  | Status.                        (* GET /api/status *)

(** The body of an answer, as [syncEmails], [syncHistoricalDate] and
    [updateLastSyncTime] read it. *)
Record body := Body {
  message : option string;
  last_sync_time : option string
}.

Inductive answer :=
  | Unanswered (error : string)           (* the promise of [fetch] rejects *)
  | Answered (ok : bool) (data : option body).

(** What arrives from the network: the answer to one of the requests of
    this part of the page, or to the [GET /api/tasks] of [getTasks]. *)
Inductive arrival :=
  | OfSync (a : answer)
  | OfTasks (rs : response).

(** The function that waits, and the [await] it waits at. *)
Inductive caller :=
  | SyncEmails (isAutoSync : bool)
  | SyncHistoricalDate.

Inductive awaiting :=
  | PostAnswer (c : caller)        (* await fetch(..., {method: 'POST'}) *)
  | TasksAnswer (c : caller)       (* await getTasks() *)
  | StatusAnswer.                  (* updateLastSyncTime: await fetch('/api/status') *)

Record state := State {
  isSyncing : bool;
  lastManualSync : option Z;       (* localStorage.lastManualSync, a date *)
  lastSyncTime : option string;    (* localStorage.lastSyncTime *)
  syncBtn_disabled : bool;
  histBtn_disabled : bool;
  batchingMessage : option Z;      (* the minutes of Next batch in N min, when shown *)
  awaited : list awaiting;         (* requests sent and not answered, oldest first *)
  sent : list request;             (* every request sent, oldest first *)
  page : world                     (* the board; its [trace] holds the messages *)
}.

Definition set_isSyncing (v : bool) (s : state) : state :=
  State v (lastManualSync s) (lastSyncTime s) (syncBtn_disabled s)
    (histBtn_disabled s) (batchingMessage s) (awaited s) (sent s) (page s).
Definition set_lastManualSync (v : option Z) (s : state) : state :=
  State (isSyncing s) v (lastSyncTime s) (syncBtn_disabled s)
    (histBtn_disabled s) (batchingMessage s) (awaited s) (sent s) (page s).
Definition set_lastSyncTime (v : option string) (s : state) : state :=
  State (isSyncing s) (lastManualSync s) v (syncBtn_disabled s)
    (histBtn_disabled s) (batchingMessage s) (awaited s) (sent s) (page s).
Definition set_syncBtn_disabled (v : bool) (s : state) : state :=
  State (isSyncing s) (lastManualSync s) (lastSyncTime s) v
    (histBtn_disabled s) (batchingMessage s) (awaited s) (sent s) (page s).
Definition set_histBtn_disabled (v : bool) (s : state) : state :=
  State (isSyncing s) (lastManualSync s) (lastSyncTime s) (syncBtn_disabled s)
    v (batchingMessage s) (awaited s) (sent s) (page s).
Definition set_batchingMessage (v : option Z) (s : state) : state :=
  State (isSyncing s) (lastManualSync s) (lastSyncTime s) (syncBtn_disabled s)
    (histBtn_disabled s) v (awaited s) (sent s) (page s).
Definition set_awaited (v : list awaiting) (s : state) : state :=
  State (isSyncing s) (lastManualSync s) (lastSyncTime s) (syncBtn_disabled s)
    (histBtn_disabled s) (batchingMessage s) v (sent s) (page s).
Definition set_sent (v : list request) (s : state) : state :=
  State (isSyncing s) (lastManualSync s) (lastSyncTime s) (syncBtn_disabled s)
    (histBtn_disabled s) (batchingMessage s) (awaited s) v (page s).
Definition set_page (v : world) (s : state) : state :=
  State (isSyncing s) (lastManualSync s) (lastSyncTime s) (syncBtn_disabled s)
    (histBtn_disabled s) (batchingMessage s) (awaited s) (sent s) v.

(** [showMessage(text, kind)] *)
Definition say (text kind : string) (s : state) : state :=
  set_page (exec (showMessage text kind) (page s)) s.

(** [await fetch(...)]: the request goes out and the function waits. *)
Definition send (rq : request) (k : awaiting) (s : state) : state :=
  set_awaited (awaited s ++ [k]) (set_sent (sent s ++ [rq]) s).

(** [(new Date() - new Date(lastSync)) / 1000 / 60], dates in milliseconds. *)
Definition diffMins (now lastSync : Z) : QArith_base.Q :=
  QArith_base.Qdiv
    (QArith_base.Qdiv (QArith_base.inject_Z (now - lastSync))
                      (QArith_base.inject_Z 1000))
    (QArith_base.inject_Z 60).

(** [diffMins < BATCH_SYNC_COOLDOWN_MINUTES] *)
Definition in_cooldown (now lastSync : Z) : bool :=
  negb (QArith_base.Qle_bool (QArith_base.inject_Z BATCH_SYNC_COOLDOWN_MINUTES)
          (diffMins now lastSync)).

(** [Math.ceil(BATCH_SYNC_COOLDOWN_MINUTES - diffMins)] *)
Definition waitTime (now lastSync : Z) : Z :=
  Qround.Qceiling
    (QArith_base.Qminus (QArith_base.inject_Z BATCH_SYNC_COOLDOWN_MINUTES)
       (diffMins now lastSync)).

(** [checkBatchingStatus()] at the time [now]. *)
Definition checkBatchingStatus (now : Z) (s : state) : state :=
  match lastManualSync s with
  | None => s
  | Some lastSync =>
      if in_cooldown now lastSync
      then set_batchingMessage (Some (waitTime now lastSync)) s
      else set_batchingMessage None s
  end.

(** [updateLastSyncTime()]: up to its [await], and from the answer on. *)
Definition updateLastSyncTime (s : state) : state := send Status StatusAnswer s.

Definition updateLastSyncTime_answer (a : answer) (s : state) : state :=
  match a with
  | Answered _ (Some data) =>
      if truthy (last_sync_time data)
      then set_lastSyncTime (last_sync_time data) s
      else s
  | _ => s
  end.

(** The message of the exception a failed answer raises; [refused] is the
    text of the [throw] after [!res.ok]. *)
Definition failure (refused : string) (a : answer) : string :=
  match a with
  | Unanswered e => e
  | Answered false _ => refused
  | Answered true _ => "Unexpected token in JSON"
  end.

(** [syncEmails(isAutoSync)]: up to [await fetch('/api/sync')]. *)
Definition syncEmails (now : Z) (isAutoSync : bool) (s : state) : state :=
  if isSyncing s then
    if negb isAutoSync then say "Sync already in progress..." "error" s else s
  else
    let s := set_isSyncing true s in
    let s := if negb isAutoSync
             then checkBatchingStatus now (set_lastManualSync (Some now) s)
             else s in
    let s := if negb isAutoSync then set_syncBtn_disabled true s else s in
    send Emails (PostAnswer (SyncEmails isAutoSync)) s.

(** The [finally] of [syncEmails]. *)
Definition syncEmails_finally (isAutoSync : bool) (s : state) : state :=
  let s := set_isSyncing false s in
  let s := updateLastSyncTime s in
  if negb isAutoSync then set_syncBtn_disabled false s else s.

(** [syncEmails] from the answer to its [POST] on: to [await getTasks()],
    or through [catch] and [finally]. *)
Definition syncEmails_answer (isAutoSync : bool) (a : answer) (s : state) : state :=
  match a with
  | Answered true (Some data) =>
      let s := if negb isAutoSync
               then say (default "Sync complete!" (js_or (message data) None))
                        "success" s
               else s in
      send Tasks (TasksAnswer (SyncEmails isAutoSync)) s
  | _ =>
      let s := if negb isAutoSync then say (failure "Sync failed" a) "error" s
               else s in
      syncEmails_finally isAutoSync s
  end.

(** [getTasks()] from its answer on, on the board. *)
Definition getTasks_answer (rs : response) (s : state) : state :=
  set_page (exec (getTasks_resume rs) (page s)) s.

(** [syncHistoricalDate()], for the value of the date input. *)
Definition syncHistoricalDate (date : string) (s : state) : state :=
  if String.eqb date "" then say "Select a date" "error" s
  else if isSyncing s then say "Sync is currently busy. Please wait." "error" s
  else
    let s := set_isSyncing true s in
    let s := set_histBtn_disabled true s in
    send (Historical date) (PostAnswer SyncHistoricalDate) s.

Definition syncHistoricalDate_finally (s : state) : state :=
  set_histBtn_disabled false (set_isSyncing false s).

Definition syncHistoricalDate_answer (a : answer) (s : state) : state :=
  match a with
  | Answered true (Some data) =>
      let s := say (default "Historical sync done" (js_or (message data) None))
                   "success" s in
      send Tasks (TasksAnswer SyncHistoricalDate) s
  | _ => syncHistoricalDate_finally (say (failure "Failed" a) "error" s)
  end.

(** [handleSyncClick()]; the text of its message goes on with a link that
    calls [syncEmails(false)]. *)
Definition handleSyncClick (now : Z) (s : state) : state :=
  match lastManualSync s with
  | Some lastSync =>
      if in_cooldown now lastSync
      then say "Hold on! It's better to batch emails." "error" s
      else syncEmails now false s
  | None => syncEmails now false s
  end.

(** What happens on the page. *)
Inductive event :=
  | SyncClick (now : Z)                  (* the Sync button *)
  | ForceSync (now : Z)                  (* the links that call syncEmails(false) *)
  | AutoSync (now : Z)                   (* syncEmails(true) *)
  | HistoricalClick (date : string)      (* the historical sync button *)
  | Arrives (i : nat) (a : arrival).     (* the answer to the i-th awaited request *)

(** The function waiting at [k] goes on with what arrived. *)
Definition resume (k : awaiting) (a : arrival) (s : state) : option state :=
  match k, a with
  | PostAnswer (SyncEmails isAutoSync), OfSync a =>
      Some (syncEmails_answer isAutoSync a s)
  | PostAnswer SyncHistoricalDate, OfSync a =>
      Some (syncHistoricalDate_answer a s)
  | TasksAnswer (SyncEmails isAutoSync), OfTasks rs =>
      Some (syncEmails_finally isAutoSync (getTasks_answer rs s))
  | TasksAnswer SyncHistoricalDate, OfTasks rs =>
      Some (syncHistoricalDate_finally (getTasks_answer rs s))
  | StatusAnswer, OfSync a => Some (updateLastSyncTime_answer a s)
  | _, _ => None
  end.

(** One event; an answer nothing waits for does not arrive. *)
Definition step (s : state) (e : event) : state :=
  match e with
  | SyncClick now => handleSyncClick now s
  | ForceSync now => syncEmails now false s
  | AutoSync now => syncEmails now true s
  | HistoricalClick date => syncHistoricalDate date s
  | Arrives i a =>
      match awaited s !! i with
      | Some k => default s (resume k a (set_awaited (delete i (awaited s)) s))
      | None => s
      end
  end.

Definition run (evs : list event) (s : state) : state := fold_left step evs s.

(** The page once loaded: [isSyncing] is false, and [DOMContentLoaded]
    called [updateLastSyncTime()] and [checkBatchingStatus()]; what
    [fetchSettingsAndTasks()] asks for is left to the board. *)
Definition loaded (now : Z) (lastManualSync : option Z) (lastSyncTime : option string)
    (board : world) : state :=
  checkBatchingStatus now
    (updateLastSyncTime
       (State false lastManualSync lastSyncTime false false None [] [] board)).

(** The syncs that wait for an answer. *)
Definition is_sync (k : awaiting) : bool :=
  match k with
  | PostAnswer _ | TasksAnswer _ => true
  | StatusAnswer => false
  end.

Definition syncs_awaited (s : state) : nat := length (List.filter is_sync (awaited s)).

(** The flag [isSyncing] tells whether a sync waits for an answer. *)
Definition consistent (s : state) : Prop :=
  syncs_awaited s = if isSyncing s then 1%nat else 0%nat.

(** The answer lets the sync go on to [getTasks]. *)
Definition succeeded (a : answer) : bool :=
  match a with
  | Answered true (Some _) => true
  | _ => false
  end.

(** The [finally] of the caller has run: the flag is down and the button
    it had disabled is enabled again. *)
Definition released (c : caller) (s : state) : Prop :=
  isSyncing s = false /\
  match c with
  | SyncEmails false => syncBtn_disabled s = false
  | SyncEmails true => True
  | SyncHistoricalDate => histBtn_disabled s = false
  end.

Definition is_arrival (e : event) : Prop :=
  match e with
  | Arrives _ _ => True
  | _ => False
  end.

(** The requests [s'] sent beyond those of [s]. *)
Definition sent_since (s s' : state) : list request :=
  drop (length (sent s)) (sent s').

End Sync.

(** ** archive.js: the lists of the archive page *)

Module ArchivePage.
Import Archive.

(** [s.toLowerCase()], on the letters of ASCII. *)
Definition lower (c : ascii) : ascii :=
  let n := nat_of_ascii c in
  if ((65 <=? n) && (n <=? 90))%nat then ascii_of_nat (n + 32) else c.

Fixpoint toLowerCase (s : string) : string :=
  match s with
  | "" => ""
  | String c s' => String (lower c) (toLowerCase s')
  end.

(** [s.includes(term)] *)
Definition includes_term (term s : string) : bool :=
  match String.index 0 term s with
  | Some _ => true
  | None => false
  end.

(** [t.field && t.field.toLowerCase().includes(term)] *)
Definition field_matches (term : string) (field : option string) : bool :=
  truthy field && includes_term term (toLowerCase (default "" field)).

(** [filterArchive(event)] on the tab of the recent tasks: the tasks it
    hands to [renderGrid], for the value of the search box. *)
Definition filterArchive (value : string) (recentTasks : list closed_task)
    : list closed_task :=
  let term := toLowerCase value in
  List.filter
    (fun t => field_matches term (task_summary t)
              || field_matches term (ct_sender t)
              || field_matches term (subject t))
    recentTasks.

(** The task has a text the search can find. *)
Definition has_text (t : closed_task) : bool :=
  truthy (task_summary t) || truthy (ct_sender t) || truthy (subject t).

(** [groups[monthYear].push(task)], after
    [if (!groups[monthYear]) groups[monthYear] = []]: the keys of the object
    keep the order in which they came. *)
Fixpoint push_group {A} (k : string) (x : A) (groups : list (string * list A))
    : list (string * list A) :=
  match groups with
  | [] => [(k, [x])]
  | (k', l) :: groups' =>
      if String.eqb k' k then (k', (l ++ [x])%list) :: groups'
      else (k', l) :: push_group k x groups'
  end.

(** [groups[k]], the empty list standing for a key that is not there. *)
Fixpoint group_of {A} (k : string) (groups : list (string * list A)) : list A :=
  match groups with
  | [] => []
  | (k', l) :: groups' => if String.eqb k' k then l else group_of k groups'
  end.

(** [tasks.forEach(task => { ... groups[key(task)].push(task) })] *)
Definition groups_of {A} (key : A -> string) (tasks : list A)
    : list (string * list A) :=
  fold_left (fun groups t => push_group (key t) t groups) tasks [].

Section Grid.
(** [date.toLocaleString('default', { month: 'long', year: 'numeric' })]
    depends on the browser's locale; it names a month and is no number. *)
Variable monthYear : Z -> string.

(** [task.status_updated_at || task.created_at] *)
Definition dateVal (t : closed_task) : Z :=
  default (ct_created_at t) (status_updated_at t).

(** [renderGrid(tasks, ...)]: the groups it writes, each under its month
    header, in the order of the grid; [None] when it writes that no task
    was found. *)
Definition renderGrid (tasks : list closed_task)
    : option (list (string * list closed_task)) :=
  match tasks with
  | [] => None
  | _ => Some (groups_of (fun t => monthYear (dateVal t)) tasks)
  end.
End Grid.

(** The occurrences of a character in a text. *)
Fixpoint occurrences (c : ascii) (s : string) : nat :=
  match s with
  | "" => 0
  | String c' s' => (if Ascii.eqb c' c then 1 else 0) + occurrences c s'
  end.

(** Sample tasks of the archive. *)
Definition closed_may : closed_task :=
  ClosedTask (Some "Send the report") (Some "Ann") (Some "Report") None (Some 1000) 0.
Definition closed_bare : closed_task :=
  ClosedTask None None (Some "") None None 2000.

End ArchivePage.

(** ** news.js: generating a summary *)

Module Summaries.
Import Kanban.

(** A summary as the page reads it. [summary_date] is the time value of
    [new Date(summary.summary_date)], [None] when the field is missing or
    does not parse; [s_error] is the [error] field of an error answer. *)
Record summary := Summary {
  s_id : Z;
  s_status : string;
  summary_date : option Z;
  audio_file_path : option string;
  s_error : option string
}.

Inductive response :=
  | Rejected (message : string)
  | Answer (ok : bool) (body : option summary).

(** The title of a card. *)
Inductive title :=
  | TodaysBriefing
  | YesterdaysBriefing
  | OnDate (date : Z).                  (* date.toLocaleDateString('en-US', ...) *)

(** [new Date(d.toISOString().split('T')[0])]: the start of the day of [d]
    in UTC. *)
Definition utc_day (d : Z) : Z := d / ms_per_day * ms_per_day.

(** [formatDate(dateString)] at the time [today]. [toISOString] throws a
    [RangeError] on a date with no time value. The day before, which
    [setDate] takes from the local calendar, is taken to be 24 hours
    earlier. *)
Definition formatDate (today : Z) (dateString : option Z) : outcome title :=
  match dateString with
  | None => Thrown "Invalid time value"
  | Some date =>
      let yesterday := today - ms_per_day in
      if utc_day date =? utc_day today then Done TodaysBriefing
      else if utc_day date =? utc_day yesterday then Done YesterdaysBriefing
      else Done (OnDate date)
  end.

(** The buttons of a summary card. *)
Inductive card_button :=
  | ListenBtn (audioPath : string)      (* onclick: playSummary(this) *)
  | RegenerateBtn (summaryId : Z)       (* onclick: regenerateSummary(id, this) *)
  | GenerateBtn (summaryId : Z)         (* onclick: generateSummary(id, this) *)
  | ProcessingBtn.                      (* disabled *)

(** What a card shows, as far as the model goes: its title, which the card
    of a status that is not known does not have, and its buttons. *)
Record card_html := CardHtml {
  card_title : option title;
  card_buttons : list card_button
}.

(** [getSummaryCardHTML(summary)] at the time [today]; it starts with
    [formatDate(summary.summary_date)]. *)
Definition getSummaryCardHTML (today : Z) (s : summary) : outcome card_html :=
  match formatDate today (summary_date s) with
  | Thrown e => Thrown e
  | Done title =>
      Done
        (if String.eqb (s_status s) "generated" then
           CardHtml (Some title)
             ((if truthy (audio_file_path s)
               then [ListenBtn (default "" (audio_file_path s))] else [])
              ++ [RegenerateBtn (s_id s)])%list
         else if String.eqb (s_status s) "pending" then
           CardHtml (Some title) [GenerateBtn (s_id s)]
         else if String.eqb (s_status s) "generating" then
           CardHtml (Some title) [ProcessingBtn]
         else if String.eqb (s_status s) "failed" then
           CardHtml (Some title) [RegenerateBtn (s_id s)]
         else CardHtml None [])
  end.

Inductive effect :=
  | ButtonLoading (text : string)            (* setButtonLoading(btnEl, text) *)
  | Post (endpoint : string) (rs : response)
  | CardHTML (summaryId : Z) (html : card_html)
  | ShowMessage (text kind : string) (dismiss_ms : Z)
  | SetTimeout (ms : Z)                      (* of fetchAndRenderSummaries *)
  | FetchSummaries.                          (* fetchAndRenderSummaries() *)

Definition showMessage (text kind : string) : effect := ShowMessage text kind 3000.

(** The [catch] of both handlers. *)
Definition caught (message : string) : list effect :=
  [showMessage message "error"; FetchSummaries].

(** [generateSummary(summaryId, btnEl)] at the time [today], for the
    answer to its request. The card of the summary, which holds the
    button, is on the page. *)
Definition generateSummary (today summaryId : Z) (rs : response) : list effect :=
  ButtonLoading "Generating..."
  :: Post ("/api/summaries/generate/" ++ pretty summaryId) rs
  :: match rs with
     | Rejected e => caught e
     | Answer _ None => caught "Unexpected token in JSON"
     | Answer false (Some summary) =>
         caught (default "Failed to generate summary" (js_or (s_error summary) None))
     | Answer true (Some summary) =>
         match getSummaryCardHTML today summary with
         | Thrown e => caught e
         | Done html =>
             CardHTML summaryId html
             :: (if String.eqb (s_status summary) "generating"
                 then [showMessage "Summary is generating in background..." "success";
                       SetTimeout 5000]
                 else [showMessage "Summary generated successfully!" "success"])
         end
     end.

(** [regenerateSummary(summaryId, btnEl)]; [confirmed] is the answer to
    its [confirm]. *)
Definition regenerateSummary (confirmed : bool) (today summaryId : Z)
    (rs : response) : list effect :=
  if negb confirmed then []
  else
    ButtonLoading "Regenerating..."
    :: Post ("/api/summaries/regenerate/" ++ pretty summaryId) rs
    :: match rs with
       | Rejected e => caught e
       | Answer _ None => caught "Unexpected token in JSON"
       | Answer false (Some summary) =>
           caught (default "Failed to regenerate summary"
                     (js_or (s_error summary) None))
       | Answer true (Some summary) =>
           match getSummaryCardHTML today summary with
           | Thrown e => caught e
           | Done html =>
               CardHTML summaryId html
               :: (if String.eqb (s_status summary) "generating"
                   then [showMessage "Summary is regenerating in background..."
                           "success";
                         SetTimeout 5000]
                   else [showMessage "Summary regenerated successfully!" "success"])
           end
       end.

(** *** Vocabulary of the properties *)

(** The answer brought a summary that a card can be written from. *)
Definition brought (today : Z) (rs : response) : option (summary * card_html) :=
  match rs with
  | Answer true (Some summary) =>
      match getSummaryCardHTML today summary with
      | Done html => Some (summary, html)
      | Thrown _ => None
      end
  | _ => None
  end.

Definition posts (l : list effect) : list string :=
  omap (fun e => if e is Post endpoint _ then Some endpoint else None) l.
Definition cards (l : list effect) : list (Z * card_html) :=
  omap (fun e => if e is CardHTML i h then Some (i, h) else None) l.
Definition message_kinds (l : list effect) : list string :=
  omap (fun e => if e is ShowMessage _ kind _ then Some kind else None) l.
Definition polls (l : list effect) : list Z :=
  omap (fun e => if e is SetTimeout ms then Some ms else None) l.
Definition refetches (l : list effect) : nat :=
  length (List.filter (fun e => if e is FetchSummaries then true else false) l).

(** A summary that is generated, but whose date does not parse. *)
Definition undated : summary := Summary 3 "generated" None None None.

End Summaries.

(** ** kanban.js: the lists of the settings *)

Module Settings.
Import Kanban.

Record settings := Settings {
  projects : list string;
  tags : list string;
  domains : list string
}.

(** [s.trim()], on the white space of ASCII. *)
Fixpoint trimStart (s : string) : string :=
  match s with
  | "" => ""
  | String c s' => if is_space c then trimStart s' else s
  end.

Fixpoint trimEnd (s : string) : string :=
  match s with
  | "" => ""
  | String c s' =>
      match trimEnd s' with
      | "" => if is_space c then "" else String c ""
      | r => String c r
      end
  end.

Definition trim (s : string) : string := trimEnd (trimStart s).

(** [list.push(val)] *)
Definition push (val : string) (l : list string) : list string := l ++ [val].

(** [list.splice(index, 1)], for an index of [renderTags]. *)
Definition splice1 (index : nat) (l : list string) : list string := delete index l.

(** [addTag(containerId, value)] *)
Definition addTag (containerId value : string) (cs : settings) : settings :=
  if is_blank value then cs
  else
    let val := trim value in
    let cs := if String.eqb containerId "projectsList"
              then Settings (push val (projects cs)) (tags cs) (domains cs) else cs in
    let cs := if String.eqb containerId "tagsList"
              then Settings (projects cs) (push val (tags cs)) (domains cs) else cs in
    if String.eqb containerId "domainsList"
    then Settings (projects cs) (tags cs) (push val (domains cs)) else cs.

(** [removeTag(containerId, index)] *)
Definition removeTag (containerId : string) (index : nat) (cs : settings) : settings :=
  let cs := if String.eqb containerId "projectsList"
            then Settings (splice1 index (projects cs)) (tags cs) (domains cs) else cs in
  let cs := if String.eqb containerId "tagsList"
            then Settings (projects cs) (splice1 index (tags cs)) (domains cs) else cs in
  if String.eqb containerId "domainsList"
  then Settings (projects cs) (tags cs) (splice1 index (domains cs)) else cs.

(** The list [renderTags] is called with for a container. *)
Definition shown_list (containerId : string) (cs : settings) : list string :=
  if String.eqb containerId "projectsList" then projects cs
  else if String.eqb containerId "tagsList" then tags cs
  else domains cs.

(** [renderTags(containerId, items)]: each tag with the index its remove
    button passes to [removeTag]. *)
Definition renderTags (items : list string) : list (string * nat) :=
  imap (fun index item => (item, index)) items.

(** The first and the last character of a text are white space. *)
Definition starts_with_space (s : string) : bool :=
  match s with
  | String c _ => is_space c
  | "" => false
  end.

Fixpoint ends_with_space (s : string) : bool :=
  match s with
  | "" => false
  | String c "" => is_space c
  | String _ s' => ends_with_space s'
  end.

End Settings.

(** * Properties *)

(** ** The board: buckets, order and SLA status *)

Module KanbanView.
Import Kanban.

(** *** Array.prototype.sort with a consistent comparator *)

Section Sorting.
Context {A : Type} (cmp : A -> A -> Z) (P : A -> Prop).

(** The comparator is a consistent order on the values that satisfy [P]. *)
Hypothesis cmp_total : forall a b, P a -> P b -> 0 < cmp a b -> cmp b a <= 0.
Hypothesis cmp_trans : forall a b c,
  P a -> P b -> P c -> cmp a b <= 0 -> cmp b c <= 0 -> cmp a c <= 0.

Lemma insert_sorted_perm x l : insert_sorted cmp x l ≡ₚ x :: l.
Proof.
  induction l as [|y l IH]; simpl; [done|].
  destruct (cmp x y <=? 0); [done|].
  rewrite IH. apply Permutation_swap.
Qed.

Lemma array_sort_perm l : array_sort cmp l ≡ₚ l.
Proof.
  induction l as [|x l IH]; simpl; [done|].
  unfold array_sort in IH. rewrite insert_sorted_perm. by rewrite IH.
Qed.

Lemma elem_of_array_sort x l : x ∈ array_sort cmp l <-> x ∈ l.
Proof. by rewrite array_sort_perm. Qed.

Lemma insert_sorted_sorted x l :
  P x -> Forall P l ->
  StronglySorted (before cmp) l -> StronglySorted (before cmp) (insert_sorted cmp x l).
Proof.
  intros Hx Hl Hs. induction Hs as [|y l Hs IH Hy]; simpl.
  - repeat constructor.
  - apply Forall_cons in Hl as [HPy Hl].
    destruct (Z.leb_spec (cmp x y) 0) as [Hxy|Hxy].
    + constructor; [by constructor|].
      constructor; [done|].
      rewrite Forall_forall in Hy, Hl. apply Forall_forall. intros z Hz.
      apply (cmp_trans x y z); auto. by apply Hy.
    + constructor; [by apply IH|].
      rewrite insert_sorted_perm. constructor; [|done].
      by apply cmp_total.
Qed.

Lemma array_sort_sorted l :
  Forall P l -> StronglySorted (before cmp) (array_sort cmp l).
Proof.
  induction l as [|x l IH]; simpl; [constructor|]. intros Hl.
  apply Forall_cons in Hl as [Hx Hl].
  apply insert_sorted_sorted; [done | by rewrite array_sort_perm | by apply IH].
Qed.

Lemma sorted_lookup (l : list A) i j a b :
  StronglySorted (before cmp) l ->
  l !! i = Some a -> l !! j = Some b -> (i < j)%nat -> before cmp a b.
Proof.
  intros Hl. revert i j. induction Hl as [|x l Hl IH Hx]; intros i j Ha Hb Hij.
  - by rewrite lookup_nil in Ha.
  - destruct j as [|j]; [lia|]. simpl in Hb.
    destruct i as [|i]; simpl in Ha.
    + injection Ha as ->. rewrite Forall_forall in Hx.
      apply Hx. by eapply list_elem_of_lookup_2.
    + eapply IH; eauto. lia.
Qed.

End Sorting.

(** *** The comparator of the board *)

Lemma rank_ordinary t : ordinary t -> exists n, rank t = Number n.
Proof.
  unfold ordinary, rank, pMap. intros H.
  repeat (case_match; [by eexists|]).
  rewrite bool_decide_eq_false_2 by done. by eexists.
Qed.

(** On tasks of ordinary priority the comparator is that of the numbers. *)
Lemma SortCompare_numbers a b ra rb :
  rank a = Number ra -> rank b = Number rb ->
  SortCompare sortFn a b
  = if negb (ra =? rb) then rb - ra else created_at b - created_at a.
Proof.
  intros Ha Hb. unfold SortCompare, sortFn. cbv zeta. rewrite Ha, Hb.
  destruct (Z.eqb_spec ra rb) as [->|Hne].
  - by rewrite bool_decide_eq_true_2.
  - rewrite bool_decide_eq_false_2 by congruence. reflexivity.
Qed.

Lemma sortFn_total a b :
  ordinary a -> ordinary b ->
  0 < SortCompare sortFn a b -> SortCompare sortFn b a <= 0.
Proof.
  intros [ra Ha]%rank_ordinary [rb Hb]%rank_ordinary.
  rewrite (SortCompare_numbers a b ra rb), (SortCompare_numbers b a rb ra) by done.
  destruct (Z.eqb_spec ra rb); destruct (Z.eqb_spec rb ra); simpl; lia.
Qed.

Lemma sortFn_trans a b c :
  ordinary a -> ordinary b -> ordinary c ->
  SortCompare sortFn a b <= 0 -> SortCompare sortFn b c <= 0 ->
  SortCompare sortFn a c <= 0.
Proof.
  intros [ra Ha]%rank_ordinary [rb Hb]%rank_ordinary [rc Hc]%rank_ordinary.
  rewrite (SortCompare_numbers a b ra rb), (SortCompare_numbers b c rb rc),
    (SortCompare_numbers a c ra rc) by done.
  destruct (Z.eqb_spec ra rb); destruct (Z.eqb_spec rb rc);
    destruct (Z.eqb_spec ra rc); simpl; lia.
Qed.

(** In a sorted bucket of ordinary tasks, position follows the comparator. *)
Lemma sorted_bucket_order (l : list task) i j a b :
  Forall ordinary l ->
  array_sort (SortCompare sortFn) l !! i = Some a ->
  array_sort (SortCompare sortFn) l !! j = Some b ->
  0 < SortCompare sortFn b a -> (i < j)%nat.
Proof.
  intros Hl Ha Hb Hlt.
  destruct (decide (i < j)%nat) as [|Hge]; [done|exfalso].
  destruct (decide (i = j)) as [->|Hne].
  - assert (a = b) as -> by congruence.
    unfold SortCompare, sortFn in Hlt. cbv zeta in Hlt.
    rewrite bool_decide_eq_true_2 in Hlt by done. simpl in Hlt. lia.
  - assert (before (SortCompare sortFn) b a) as Hba.
    { eapply (sorted_lookup (SortCompare sortFn)); [| exact Hb | exact Ha | lia].
      by apply (array_sort_sorted _ ordinary sortFn_total sortFn_trans). }
    unfold before in Hba. lia.
Qed.

(** A bucket is a sorted part of the snapshot. *)
Lemma values_renderTasks fp fs tasks b :
  b ∈ values (renderTasks fp fs tasks) ->
  exists l, b = array_sort (SortCompare sortFn) l /\ forall t, t ∈ l -> t ∈ tasks.
Proof.
  assert (forall x tasks c,
            (x ∈ quick (fold_left (place fp fs) tasks c) -> x ∈ quick c \/ x ∈ tasks) /\
            (x ∈ deep (fold_left (place fp fs) tasks c) -> x ∈ deep c \/ x ∈ tasks) /\
            (x ∈ waiting (fold_left (place fp fs) tasks c) -> x ∈ waiting c \/ x ∈ tasks) /\
            (x ∈ todo (fold_left (place fp fs) tasks c) -> x ∈ todo c \/ x ∈ tasks) /\
            (x ∈ doing (fold_left (place fp fs) tasks c) -> x ∈ doing c \/ x ∈ tasks) /\
            (x ∈ paused (fold_left (place fp fs) tasks c) -> x ∈ paused c \/ x ∈ tasks))
    as Hfold.
  { intros x l. induction l as [|t l IH]; intros c; [simpl; tauto|].
    cbn [fold_left]. destruct (IH (place fp fs c t)) as (Hq & Hd & Hw & Ht & Hg & Hp).
    assert (forall sel : cols -> list task,
              sel = quick \/ sel = deep \/ sel = waiting \/ sel = todo
              \/ sel = doing \/ sel = paused ->
              x ∈ sel (place fp fs c t) -> x ∈ sel c \/ x = t) as Hstep.
    { intros sel Hsel. unfold place, place_kanban, place_executive.
      repeat case_match;
        destruct Hsel as [->|[->|[->|[->|[->| ->]]]]];
        cbn [quick deep waiting todo doing paused push_quick push_deep
               push_waiting push_todo push_doing push_paused];
        rewrite ?elem_of_app, ?list_elem_of_singleton; tauto. }
    rewrite !elem_of_cons.
    repeat split; intros Hx;
      [ apply Hq in Hx | apply Hd in Hx | apply Hw in Hx
      | apply Ht in Hx | apply Hg in Hx | apply Hp in Hx ];
      (destruct Hx as [Hx|Hx]; [apply Hstep in Hx; [tauto | tauto] | tauto]). }
  unfold values, renderTasks, sort_all. cbn [quick deep waiting todo doing paused].
  rewrite !elem_of_cons, elem_of_nil.
  intros [->|[->|[->|[->|[->|[->|[]]]]]]]; eexists; (split; [reflexivity|]);
    intros t Ht; destruct (Hfold t tasks empty_cols) as (Hq & Hd & Hw & Ht' & Hg & Hp);
    [ apply Hq in Ht | apply Hd in Ht | apply Hw in Ht
    | apply Ht' in Ht | apply Hg in Ht | apply Hp in Ht ];
    (destruct Ht as [Ht|Ht]; [by apply elem_of_nil in Ht | done]).
Qed.

(** Where no priority is an inherited name, the buckets are in the order
    the specification gives. *)
Lemma ordinary_bucket_order fp fs tasks (b : list task) i j A B ra rb :
  Forall ordinary tasks ->
  b ∈ values (renderTasks fp fs tasks) ->
  b !! i = Some A -> b !! j = Some B ->
  rank A = Number ra -> rank B = Number rb ->
  (ra > rb -> (i < j)%nat) /\
  (ra = rb -> created_at A > created_at B -> (i < j)%nat).
Proof.
  intros Ho Hb HA HB Hra Hrb. apply values_renderTasks in Hb as (l & -> & Hl).
  assert (Forall ordinary l) as Hol.
  { rewrite Forall_forall in Ho. apply Forall_forall. intros t Ht. by apply Ho, Hl. }
  split.
  - intros Hr. eapply sorted_bucket_order; eauto.
    rewrite (SortCompare_numbers B A rb ra) by done.
    destruct (Z.eqb_spec rb ra); simpl; lia.
  - intros Hr Hc. eapply sorted_bucket_order; eauto.
    rewrite (SortCompare_numbers B A rb ra) by done.
    destruct (Z.eqb_spec rb ra); simpl; lia.
Qed.

(** C2. The rank of a priority is looked up in an object literal, so a
    priority that is a name every object inherits, as [constructor], has
    no number for a rank: the comparator answers [NaN] against every other
    rank, and the bucket of the three tasks below is left as it came, the
    later of its two tasks of high priority last. Where no priority of the
    snapshot is such a name, the order is the one specified: higher rank
    first, and at equal rank the task created later first. *)
Theorem renderTasks_order_inherited_priority :
  rank task31 = Inherited "constructor" /\
  sortFn task32 task31 = None /\ sortFn task31 task33 = None /\
  rank task33 = rank task32 /\ created_at task33 > created_at task32 /\
  deep (renderTasks None None [task32; task31; task33]) = [task32; task31; task33] /\
  forall fp fs tasks (b : list task) i j A B ra rb,
    Forall ordinary tasks ->
    b ∈ values (renderTasks fp fs tasks) ->
    b !! i = Some A -> b !! j = Some B ->
    rank A = Number ra -> rank B = Number rb ->
    (ra > rb -> (i < j)%nat) /\
    (ra = rb -> created_at A > created_at B -> (i < j)%nat).
Proof.
  do 6 (split; [reflexivity|]). apply ordinary_bucket_order.
Qed.

(** *** Which tasks reach which bucket *)

Ltac string_cases :=
  repeat match goal with
         | |- context [String.eqb ?a ?b] => destruct (String.eqb_spec a b)
         end.

(** The kanban placement leaves the executive buckets alone, and the other
    way round. *)
Lemma place_kanban_executive t c :
  quick (place_kanban t c) = quick c /\ deep (place_kanban t c) = deep c
  /\ waiting (place_kanban t c) = waiting c.
Proof. unfold place_kanban. string_cases; by repeat split. Qed.

Lemma place_executive_kanban t c :
  todo (place_executive t c) = todo c /\ doing (place_executive t c) = doing c
  /\ paused (place_executive t c) = paused c.
Proof. unfold place_executive. string_cases; by repeat split. Qed.

Ltac bucket_step sel :=
  match goal with
  | |- context [place ?fp ?fs ?c ?t] =>
      unfold place;
      destruct (excluded t) eqn:?;
      [| destruct (filtered_out fp (project t)) eqn:?;
         [| destruct (filtered_out fs (sender t)) eqn:?;
            [| rewrite ?(proj1 (place_kanban_executive t _)),
                       ?(proj1 (proj2 (place_kanban_executive t _))),
                       ?(proj2 (proj2 (place_kanban_executive t _)));
               unfold place_kanban, place_executive; string_cases;
               cbn [sel push_quick push_deep push_waiting push_todo push_doing push_paused];
               rewrite ?(proj1 (place_executive_kanban t _)),
                       ?(proj1 (proj2 (place_executive_kanban t _))),
                       ?(proj2 (proj2 (place_executive_kanban t _)));
               rewrite ?elem_of_app, ?list_elem_of_singleton ]]]
  end.

Ltac bucket_fold sel :=
  let tasks := fresh "tasks" in
  let c := fresh "c" in
  let IH := fresh "IH" in
  intros tasks; induction tasks as [|? tasks IH]; intros c; simpl;
  [ rewrite elem_of_nil; tauto
  | rewrite IH, elem_of_cons; unfold placed, passes; bucket_step sel;
    intuition (subst; congruence) ].

Section Buckets.
Variables (fp fs : option string).

Lemma fold_waiting x : forall tasks c,
  x ∈ waiting (fold_left (place fp fs) tasks c) <->
  x ∈ waiting c \/ (x ∈ tasks /\ shown fp fs x /\ triage_category x = "waiting_for").
Proof. unfold shown. bucket_fold waiting. Qed.

Lemma fold_quick x : forall tasks c,
  x ∈ quick (fold_left (place fp fs) tasks c) <->
  x ∈ quick c \/ (x ∈ tasks /\ shown fp fs x /\ triage_category x <> "waiting_for"
                  /\ triage_category x = "quick_action").
Proof. unfold shown. bucket_fold quick. Qed.

Lemma fold_deep x : forall tasks c,
  x ∈ deep (fold_left (place fp fs) tasks c) <->
  x ∈ deep c \/ (x ∈ tasks /\ shown fp fs x /\ triage_category x <> "waiting_for"
                 /\ triage_category x <> "quick_action").
Proof. unfold shown. bucket_fold deep. Qed.

Lemma fold_todo x : forall tasks c,
  x ∈ todo (fold_left (place fp fs) tasks c) <->
  x ∈ todo c \/ (x ∈ tasks /\ shown fp fs x /\ status x = "new").
Proof. unfold shown. bucket_fold todo. Qed.

Lemma fold_doing x : forall tasks c,
  x ∈ doing (fold_left (place fp fs) tasks c) <->
  x ∈ doing c \/ (x ∈ tasks /\ shown fp fs x /\ status x = "in_progress").
Proof. unfold shown. bucket_fold doing. Qed.

Lemma fold_paused x : forall tasks c,
  x ∈ paused (fold_left (place fp fs) tasks c) <->
  x ∈ paused c \/ (x ∈ tasks /\ shown fp fs x /\ status x = "paused").
Proof. unfold shown. bucket_fold paused. Qed.

End Buckets.

(** Membership in the buckets [renderTasks] hands to the page. *)
Lemma renderTasks_buckets fp fs tasks t :
  let c := renderTasks fp fs tasks in
  (t ∈ waiting c <-> placed fp fs tasks t /\ triage_category t = "waiting_for") /\
  (t ∈ quick c <-> placed fp fs tasks t /\ triage_category t <> "waiting_for"
                   /\ triage_category t = "quick_action") /\
  (t ∈ deep c <-> placed fp fs tasks t /\ triage_category t <> "waiting_for"
                  /\ triage_category t <> "quick_action") /\
  (t ∈ todo c <-> placed fp fs tasks t /\ status t = "new") /\
  (t ∈ doing c <-> placed fp fs tasks t /\ status t = "in_progress") /\
  (t ∈ paused c <-> placed fp fs tasks t /\ status t = "paused").
Proof.
  cbv zeta. unfold renderTasks, sort_all, placed.
  cbn [quick deep waiting todo doing paused].
  rewrite !elem_of_array_sort.
  rewrite fold_waiting, fold_quick, fold_deep, fold_todo, fold_doing, fold_paused.
  unfold shown, empty_cols. cbn [quick deep waiting todo doing paused].
  rewrite !elem_of_nil. tauto.
Qed.

(** C3. A task whose status is closed or archived is in none of the six
    buckets of [renderTasks], whatever the snapshot and the two filters. *)
Theorem renderTasks_excludes_closed fp fs tasks t :
  status t = "closed" \/ status t = "archived" ->
  forall b, b ∈ values (renderTasks fp fs tasks) -> t ∉ b.
Proof.
  intros Hst b Hb Ht.
  assert (excluded t = true) as Hex.
  { unfold excluded. destruct Hst as [-> | ->]; reflexivity. }
  destruct (renderTasks_buckets fp fs tasks t) as (Hw & Hq & Hd & Ht' & Hg & Hp).
  unfold values in Hb. rewrite !elem_of_cons, elem_of_nil in Hb.
  unfold placed in *.
  destruct Hb as [->|[->|[->|[->|[->|[->|[]]]]]]];
    [ apply Hq in Ht | apply Hd in Ht | apply Hw in Ht
    | apply Ht' in Ht | apply Hg in Ht | apply Hp in Ht ];
    destruct Ht as ((_ & Hne & _) & _); congruence.
Qed.

Lemma renderTasks_excludes_closed_witness :
  status task_closed = "closed" /\
  task_closed ∉ quick (renderTasks None None [task_low; task_closed]).
Proof.
  split; [reflexivity|].
  apply (renderTasks_excludes_closed None None [task_low; task_closed] task_closed
           (or_introl eq_refl)).
  unfold values. rewrite !elem_of_cons. left; reflexivity.
Defined.

(** C4. A task that is placed, with one of the five statuses, is in
    exactly one executive bucket, waiting for [waiting_for], quick for
    [quick_action], deep for every other category, and in exactly one
    kanban bucket, todo for [new], doing for [in_progress], paused for
    [paused]. *)
Theorem renderTasks_partition fp fs tasks t :
  status t ∈ statuses ->
  placed fp fs tasks t ->
  let c := renderTasks fp fs tasks in
  exactly_one (t ∈ quick c) (t ∈ deep c) (t ∈ waiting c) /\
  (t ∈ waiting c <-> triage_category t = "waiting_for") /\
  (t ∈ quick c <-> triage_category t = "quick_action") /\
  (t ∈ deep c <-> (triage_category t <> "waiting_for"
                   /\ triage_category t <> "quick_action")) /\
  exactly_one (t ∈ todo c) (t ∈ doing c) (t ∈ paused c) /\
  (t ∈ todo c <-> status t = "new") /\
  (t ∈ doing c <-> status t = "in_progress") /\
  (t ∈ paused c <-> status t = "paused").
Proof.
  intros Hst Hp. cbv zeta.
  assert (status t = "new" \/ status t = "in_progress" \/ status t = "paused") as Hk.
  { destruct Hp as (_ & Hex & _). unfold excluded in Hex.
    apply orb_false_iff in Hex as [Hc Ha]. apply String.eqb_neq in Hc, Ha.
    unfold statuses in Hst. rewrite !elem_of_cons, elem_of_nil in Hst. tauto. }
  destruct (renderTasks_buckets fp fs tasks t) as (Hw & Hq & Hd & Ht & Hg & Hpa).
  unfold exactly_one.
  rewrite Hw, Hq, Hd, Ht, Hg, Hpa.
  split; [|split; [|split; [|split; [|split]]]].
  - destruct (decide (triage_category t = "waiting_for")) as [Ew|Ew];
      destruct (decide (triage_category t = "quick_action")) as [Eq|Eq];
      try (rewrite Ew in Eq; discriminate Eq); tauto.
  - tauto.
  - destruct (decide (triage_category t = "waiting_for")) as [Ew|Ew];
      [split; [tauto | intros Eq; rewrite Ew in Eq; discriminate Eq] | tauto].
  - tauto.
  - destruct (decide (status t = "new")) as [En|En];
      destruct (decide (status t = "in_progress")) as [Ei|Ei];
      destruct (decide (status t = "paused")) as [Es|Es];
      try (rewrite En in Ei; discriminate Ei);
      try (rewrite En in Es; discriminate Es);
      try (rewrite Ei in Es; discriminate Es);
      tauto.
  - tauto.
Qed.

Lemma renderTasks_partition_witness :
  placed None None [task_low; task_high] task_low /\
  task_low ∈ todo (renderTasks None None [task_low; task_high]).
Proof.
  assert (placed None None [task_low; task_high] task_low) as Hp.
  { unfold placed, passes. rewrite elem_of_cons. split; [by left | done]. }
  assert (status task_low ∈ statuses) as Hst.
  { unfold statuses. rewrite !elem_of_cons. left. reflexivity. }
  split; [exact Hp|].
  apply (proj1 (proj2 (proj2 (proj2 (proj2 (proj2
           (renderTasks_partition None None [task_low; task_high] task_low
              Hst Hp))))))).
  reflexivity.
Defined.

(** C1. For a reference timestamp [received] and a threshold [slaDays],
    [getSLAStatus] takes as days elapsed the floor of the difference to now
    in days, and answers On Time below [slaDays - 1], At Risk from
    [slaDays - 1] to [slaDays], Overdue above; with a threshold of 4 days,
    3 days elapsed are At Risk, 5 are Overdue and 1 is On Time. *)
Theorem getSLAStatus_classification now slaDays received :
  let r := getSLAStatus now slaDays (Some received) in
  let d := daysElapsed r in
  d * ms_per_day <= now - received < (d + 1) * ms_per_day /\
  (d < slaDays - 1 -> sla_status r = "On Time") /\
  (slaDays - 1 <= d <= slaDays -> sla_status r = "At Risk") /\
  (d > slaDays -> sla_status r = "Overdue") /\
  (slaDays = 4 -> d = 3 -> sla_status r = "At Risk") /\
  (slaDays = 4 -> d = 5 -> sla_status r = "Overdue") /\
  (slaDays = 4 -> d = 1 -> sla_status r = "On Time").
Proof.
  cbv zeta. unfold getSLAStatus. cbv zeta.
  set (d := (now - received) / ms_per_day).
  assert (d * ms_per_day <= now - received < (d + 1) * ms_per_day) as Hfloor.
  { pose proof (Z.div_mod (now - received) ms_per_day) as Hdm.
    pose proof (Z.mod_pos_bound (now - received) ms_per_day) as Hb.
    unfold d, ms_per_day in *. lia. }
  destruct (Z.gtb_spec d slaDays) as [Hgt|Hle]; cbn [daysElapsed sla_status].
  - repeat split; try lia; intros; try reflexivity; lia.
  - destruct (Z.geb_spec d (slaDays - 1)) as [Hge|Hlt]; cbn [daysElapsed sla_status];
      repeat split; try lia; intros; try reflexivity; lia.
Qed.

Lemma getSLAStatus_classification_witness :
  sla_status (getSLAStatus (3 * ms_per_day + 5000) 4 (Some 0)) = "At Risk" /\
  sla_status (getSLAStatus (5 * ms_per_day + 5000) 4 (Some 0)) = "Overdue" /\
  sla_status (getSLAStatus (1 * ms_per_day + 5000) 4 (Some 0)) = "On Time".
Proof.
  split; [|split].
  - apply (getSLAStatus_classification (3 * ms_per_day + 5000) 4 0); reflexivity.
  - apply (getSLAStatus_classification (5 * ms_per_day + 5000) 4 0); reflexivity.
  - apply (getSLAStatus_classification (1 * ms_per_day + 5000) 4 0); reflexivity.
Defined.

End KanbanView.

(** ** The CSV export *)

Module ArchiveCsv.
Import Archive.

#[local] Arguments Ascii.eqb : simpl never.

Lemma includes_app c s1 s2 :
  includes c (s1 ++ s2) = includes c s1 || includes c s2.
Proof.
  induction s1 as [|c' s1 IH]; simpl; [done|].
  rewrite IH. by rewrite orb_assoc.
Qed.

Lemma replace_newlines_clean c :
  c = CR \/ c = LF ->
  forall s, includes c (replace_newlines s) = false
            /\ forall c0, includes c (replace_newlines (String c0 s)) = false.
Proof.
  intros Hc.
  assert (Ascii.eqb " " c = false) as Hsp by (destruct Hc as [-> | ->]; reflexivity).
  assert (forall x, Ascii.eqb x CR = false -> Ascii.eqb x LF = false ->
                    Ascii.eqb x c = false) as Hother.
  { intros x H1 H2. destruct Hc as [-> | ->]; assumption. }
  induction s as [|c1 s [IH1 IH2]].
  - split; [reflexivity|]. intros c0. simpl.
    destruct (Ascii.eqb c0 CR) eqn:E1; simpl; [by rewrite Hsp|].
    destruct (Ascii.eqb c0 LF) eqn:E2; simpl; [by rewrite Hsp|].
    by rewrite Hother.
  - split; [apply IH2|]. intros c0.
    change (replace_newlines (String c0 (String c1 s))) with
      (if Ascii.eqb c0 CR then
         if Ascii.eqb c1 LF then String " " (replace_newlines s)
         else String " " (replace_newlines (String c1 s))
       else if Ascii.eqb c0 LF then String " " (replace_newlines (String c1 s))
       else String c0 (replace_newlines (String c1 s))).
    destruct (Ascii.eqb c0 CR) eqn:E1.
    + destruct (Ascii.eqb c1 LF); cbn [includes]; rewrite Hsp; simpl;
        [apply IH1 | apply IH2].
    + destruct (Ascii.eqb c0 LF) eqn:E2; cbn [includes].
      * rewrite Hsp. simpl. apply IH2.
      * rewrite (Hother _ E1 E2). simpl. apply IH2.
Qed.

Lemma double_quotes_keeps c s :
  c <> dquote -> includes c (double_quotes s) = includes c s.
Proof.
  intros Hc.
  assert (Ascii.eqb dquote c = false) as Hq.
  { apply Ascii.eqb_neq. congruence. }
  induction s as [|c' s IH]; simpl; [done|].
  destruct (Ascii.eqb_spec c' dquote) as [->|Hne]; cbn [includes].
  - rewrite Hq. simpl. exact IH.
  - by rewrite IH.
Qed.

(** X1. No field that [escapeCSV] returns holds a carriage return or a
    line feed. *)
Lemma escapeCSV_no_newline str :
  includes CR (escapeCSV str) = false /\ includes LF (escapeCSV str) = false.
Proof.
  assert (forall c, c = CR \/ c = LF -> includes c (escapeCSV str) = false) as H.
  { intros c Hc.
    assert (c <> dquote) as Hd by (destruct Hc as [-> | ->]; discriminate).
    assert (Ascii.eqb dquote c = false) as Hq by (apply Ascii.eqb_neq; congruence).
    unfold escapeCSV. destruct (truthy str); simpl.
    - pose proof (proj1 (replace_newlines_clean c Hc (default "" str))) as Hn.
      destruct (includes "," (replace_newlines (default "" str))); [|exact Hn].
      cbn [includes]. rewrite Hq, includes_app, double_quotes_keeps, Hn by done.
      simpl. by rewrite Hq.
    - rewrite Hq. reflexivity. }
  split; apply H; auto.
Qed.



(** C5. The specification asks that a field holding a quote be wrapped in
    quotes with its quotes doubled; [escapeCSV] tests the comma alone, and
    hands this field back as it came. *)
Theorem escapeCSV_quote_unescaped :
  includes dquote quoted_word = true /\
  escapeCSV (Some quoted_word) = quoted_word.
Proof. split; reflexivity. Qed.

End ArchiveCsv.

(** ** The audio player *)

Module NewsAudio.
Import News.

Lemma filter_self {A} `{EqDecision A} (x : A) :
  filter (fun y => y ≠ x) [x] = [].
Proof.
  rewrite filter_cons, filter_nil. by rewrite decide_False by (intros H; by apply H).
Qed.

Lemma stopSpeaking_idle btnEl p : idle p -> idle (stopSpeaking btnEl p).
Proof.
  destruct p as [cur snd pl n lg]. intros (Hc & Hs & Hp); simpl in *; subst.
  unfold stopSpeaking; simpl. destruct btnEl; simpl; by repeat split.
Qed.

Lemma stopSpeaking_log_idle btnEl p :
  idle p ->
  log (stopSpeaking btnEl p)
  = (log p ++ match btnEl with Some b => [ResetButton b] | None => [] end)%list.
Proof.
  destruct p as [cur snd pl n lg]. intros (Hc & Hs & Hp); simpl in *; subst.
  unfold stopSpeaking; simpl. destruct btnEl; simpl; [done|by rewrite app_nil_r].
Qed.

(** Stopping the audio that sounds, from its own button or from none. *)
Lemma stopSpeaking_active a btnEl p :
  active a p -> btnEl = None \/ btnEl = Some (a_button a) ->
  idle (stopSpeaking btnEl p)
  /\ created (stopSpeaking btnEl p) = created p
  /\ log (stopSpeaking btnEl p)
     = (log p ++ [Pause a; ClearCurrent; ResetButton (a_button a)])%list.
Proof.
  destruct p as [cur snd pl n lg]. intros (Hc & Hs & Hp) Hb; simpl in *; subst.
  unfold stopSpeaking, idle.
  destruct Hb as [-> | ->];
    cbn [currentAudio pause sounding playing created log say fold_left reset_button];
    rewrite !filter_self; cbn [fold_left reset_button log say playing filter];
    rewrite <- ?app_assoc; by repeat split.
Qed.

Lemma playSummary_from_idle b p :
  idle p ->
  active (Audio (created p) (audioPath b) b) (playSummary b p).
Proof.
  destruct p as [cur snd pl n lg]. intros (Hc & Hs & Hp); simpl in *; subst.
  unfold playSummary; cbn. by repeat split.
Qed.

Lemma filter_not_in_nil (l : list button) : filter (fun x => x ∉ []) l = l.
Proof.
  induction l as [|x l IH]; [done|].
  rewrite filter_cons, decide_True by apply not_elem_of_nil. by rewrite IH.
Qed.

(** [targets.forEach]: the buttons are reset in turn, and nothing else
    changes. *)
Lemma reset_buttons l : forall q,
  currentAudio (fold_left reset_button l q) = currentAudio q /\
  sounding (fold_left reset_button l q) = sounding q /\
  created (fold_left reset_button l q) = created q /\
  log (fold_left reset_button l q) = (log q ++ map ResetButton l)%list /\
  playing (fold_left reset_button l q) = filter (fun x => x ∉ l) (playing q).
Proof.
  induction l as [|b l IH]; intros q; cbn [fold_left map].
  - rewrite app_nil_r, filter_not_in_nil. by repeat split.
  - destruct (IH (reset_button q b)) as (Hc & Hs & Hn & Hl & Hp).
    rewrite Hc, Hs, Hn, Hl, Hp. cbn [reset_button say currentAudio sounding created
      log playing]. rewrite <- app_assoc. repeat split.
    rewrite list_filter_filter. apply list_filter_iff. intros x.
    rewrite not_elem_of_cons. tauto.
Qed.

Lemma filter_out_all (l : list button) : filter (fun x => x ∉ l) l = [].
Proof.
  assert (forall l' : list button, (forall x, x ∈ l' -> x ∈ l) ->
            filter (fun x => x ∉ l) l' = []) as H.
  { induction l' as [|x l' IH]; intros Hin; [done|].
    rewrite filter_cons, decide_False by (intros Hx; apply Hx, Hin; left).
    apply IH. intros y Hy. apply Hin. by right. }
  by apply H.
Qed.

(** [stopSpeaking] leaves nothing sounding, whatever button it is given,
    and the button it is given is not styled after it. *)
Lemma stopSpeaking_silent btnEl p :
  one_sound p ->
  silent (stopSpeaking btnEl p) /\ created (stopSpeaking btnEl p) = created p /\
  (forall b, btnEl = Some b -> b ∉ playing (stopSpeaking btnEl p)) /\
  (btnEl = None -> playing (stopSpeaking btnEl p) = []).
Proof.
  destruct p as [cur snd pl n lg]. intros [[(Hc & Hs) | (a & Hc & Hs)] _];
    simpl in *; subst; unfold stopSpeaking, silent;
    cbn [currentAudio pause sounding playing created log say];
    rewrite ?filter_self;
    match goal with
    | |- context [fold_left reset_button ?l ?q] =>
        destruct (reset_buttons l q) as (Hc & Hs & Hn & _ & Hp)
    end;
    rewrite Hc, Hs, Hn, Hp; cbn [currentAudio sounding created playing].
  all: split; [done|]; split; [done|]; split.
  all: try (intros b [= ->]; rewrite list_elem_of_filter, not_elem_of_cons; tauto).
  all: intros ->; apply filter_out_all.
Qed.

(** A click on a button that is not styled: the current audio, if any, is
    stopped and every styled button reset, then the new audio is made,
    the button styled and the audio played. *)
Lemma playSummary_starts B p :
  one_sound p -> B ∉ playing p ->
  let q := playSummary B p in
  let b := Audio (created p) (audioPath B) B in
  currentAudio q = Some b /\ sounding q = [b] /\
  match currentAudio p with
  | Some a =>
      log q = (log p ++ [Pause a; ClearCurrent] ++ map ResetButton (playing p)
                     ++ [NewAudio b; StyleStop B; Play b])%list /\
      playing q = [B]
  | None =>
      log q = (log p ++ [NewAudio b; StyleStop B; Play b])%list /\
      playing q = (playing p ++ [B])%list
  end.
Proof.
  destruct p as [cur snd pl n lg]. intros [[(Hc & Hs) | (a & Hc & Hs)] _] HB;
    simpl in *; subst; unfold playSummary;
    rewrite bool_decide_eq_false_2 by done;
    cbn [currentAudio].
  - cbn. rewrite <- !app_assoc. by repeat split.
  - unfold stopSpeaking.
    cbn [currentAudio pause sounding playing created log say].
    rewrite filter_self.
    match goal with
    | |- context [fold_left reset_button ?l ?q] =>
        destruct (reset_buttons l q) as (Hc & Hs & Hn & Hl & Hp)
    end.
    cbn [currentAudio sounding created playing log say].
    rewrite Hs, Hn, Hl, Hp.
    cbn [currentAudio sounding created playing log say app].
    rewrite filter_out_all. rewrite <- !app_assoc. by repeat split.
Qed.

Lemma one_sound_init : one_sound init.
Proof. split; [by left|]. intros a [=]. Qed.

Lemma silent_one_sound p : silent p -> one_sound p.
Proof. intros Hs. split; [by left|]. intros a Ha. destruct Hs as [Hc _]. congruence. Qed.

Lemma say_one_sound e p : one_sound p -> one_sound (say e p).
Proof. by destruct p. Qed.

Lemma handle_one_sound p e : one_sound p -> one_sound (handle p e).
Proof.
  intros Hp. destruct e as [b|a|a|a]; cbn [handle].
  - destruct (decide (b ∈ playing p)) as [Hin|Hin].
    + unfold playSummary. rewrite bool_decide_eq_true_2 by done.
      by apply silent_one_sound, stopSpeaking_silent.
    + destruct (playSummary_starts b p Hp Hin) as (Hc & Hs & Hrest).
      split; [right; eauto|].
      intros a. rewrite Hc. intros [= <-]. cbn [a_button].
      destruct (currentAudio p); destruct Hrest as [_ Hpl]; rewrite Hpl;
        [|apply elem_of_app; right]; apply list_elem_of_here.
  - by apply silent_one_sound, stopSpeaking_silent.
  - by apply silent_one_sound, stopSpeaking_silent, say_one_sound.
  - by apply silent_one_sound, stopSpeaking_silent, say_one_sound.
Qed.

Lemma step_handle p e p' : step p e p' -> p' = handle p e.
Proof. by destruct 1. Qed.

Lemma reachable_one_sound p : reachable p -> one_sound p.
Proof.
  induction 1 as [|p e p' _ IH Hst]; [apply one_sound_init|].
  apply step_handle in Hst as ->. by apply handle_one_sound.
Qed.

(** C9. The style of a button can outlive its audio. The user listens to
    A, then to B, and [playSummary] pauses A. While B plays, the download
    of A fails: [onerror] of A, which A still has, runs [stopSpeaking] with
    the button of A, which pauses B, the current audio, and resets only
    the button of A. B is silent and still styled; [currentAudio] is null,
    so the next click, on C, stops nothing and styles a second button.
    What the code does keep: on every page the player reaches at most one
    audio sounds, and a click on a button that is not styled, while an
    audio is current, pauses that audio, clears [currentAudio] and resets
    every styled button, the one of that audio among them, before it
    makes, styles and plays the new audio. *)
Theorem playing_style_outlives_audio :
  let p := fold_left handle late_error init in
  reachable p /\ silent p /\ playing p = [button_b] /\
  reachable (playSummary button_c p) /\
  playing (playSummary button_c p) = [button_b; button_c] /\
  sounding (playSummary button_c p) = [audio_c] /\
  (forall p, reachable p -> (length (sounding p) <= 1)%nat) /\
  (forall p a B, reachable p -> currentAudio p = Some a -> B ∉ playing p ->
     let b := Audio (created p) (audioPath B) B in
     sounding p = [a] /\ a_button a ∈ playing p /\
     log (playSummary B p)
     = (log p ++ [Pause a; ClearCurrent] ++ map ResetButton (playing p)
              ++ [NewAudio b; StyleStop B; Play b])%list /\
     currentAudio (playSummary B p) = Some b /\
     sounding (playSummary B p) = [b] /\
     playing (playSummary B p) = [B]).
Proof.
  cbv zeta.
  assert (reachable (fold_left handle late_error init)) as Hr.
  { unfold late_error; cbn [fold_left handle].
    eapply reach_step; [eapply reach_step; [eapply reach_step; [apply reach_init|]|]|].
    - apply step_click.
    - apply step_click.
    - apply step_errored. unfold made. vm_compute. apply list_elem_of_here. }
  split; [exact Hr|].
  split; [by vm_compute|]. split; [by vm_compute|].
  split; [eapply reach_step; [exact Hr | apply step_click]|].
  split; [by vm_compute|]. split; [by vm_compute|].
  split.
  - intros p [[[_ ->] | (a & _ & ->)] _]%reachable_one_sound; simpl; lia.
  - intros p a B Hp%reachable_one_sound Ha HB.
    destruct (playSummary_starts B p Hp HB) as (Hc & Hs & Hrest).
    rewrite Ha in Hrest. destruct Hrest as [Hl Hpl].
    destruct Hp as [[[Hn _] | (a' & Ha' & Hsnd)] Hstyled]; [congruence|].
    assert (a' = a) as -> by congruence.
    repeat split; auto.
Qed.

Lemma playing_style_outlives_audio_witness :
  let p := playSummary button_a init in
  reachable p /\ currentAudio p = Some audio_a /\ (button_b ∉ playing p) /\
  playing (playSummary button_b p) = [button_b].
Proof.
  cbv zeta.
  assert (reachable (playSummary button_a init)) as Hr.
  { eapply reach_step; [apply reach_init | apply step_click]. }
  assert (currentAudio (playSummary button_a init) = Some audio_a) as Ha
    by reflexivity.
  assert (button_b ∉ playing (playSummary button_a init)) as Hne.
  { intros [= ]%list_elem_of_singleton. }
  split; [exact Hr | split; [exact Ha | split; [exact Hne|]]].
  exact (proj2 (proj2 (proj2 (proj2 (proj2
           (proj2 (proj2 (proj2 (proj2 (proj2 (proj2 (proj2
              playing_style_outlives_audio)))))) _ _ button_b Hr Ha Hne)))))).
Defined.

End NewsAudio.

(** ** The task modal: requests, failures and the staged delegation *)

Module KanbanFlow.
Import Kanban.

(** *** Running a handler on a world given by its fields *)

Ltac world_fields w :=
  destruct w as [tasks0 rtype0 deleg0 pend0 cur0 del0 reply0 fp0 fs0 tr0 infl0 srv0].

Ltac unfold_handlers :=
  lazy beta iota zeta delta
    [exec fst snd mbind mret M_bind M_ret bind ret throw try_catch try_finally
     modify get emit fetch json_of showMessage getTasks getTasks_resume
     getTasks_detached populateFilters renderBoard next_answer hd tl
     set_allTasks set_selectedReplyType set_selectedDelegate
     set_pendingTaskUpdate set_currentTaskId set_deleteId set_modalTaskReply
     set_filters set_trace set_inflight set_server
     allTasks selectedReplyType selectedDelegate pendingTaskUpdate
     currentTaskId deleteId modalTaskReply filterProject filterSender trace
     inflight server negb closeTaskModal refreshModalState switchTaskTab
     closeDeleteModal closeDelegateModal searchContacts openDelegateModal
     answered_ok answer nth given].

Ltac run_handler :=
  repeat (unfold_handlers;
          try match goal with
          | |- context [match ?x with _ => _ end] =>
              lazymatch x with
              | context [match _ with _ => _ end] => fail
              | context [if _ then _ else _] => fail
              | _ => destruct x eqn:?
              end
          | |- context [if ?x then _ else _] =>
              lazymatch x with
              | context [match _ with _ => _ end] => fail
              | context [if _ then _ else _] => fail
              | _ => destruct x eqn:?
              end
          end).

(** The trace on the left is the old one with something appended. *)
Ltac trace_ext :=
  first [ symmetry; apply app_nil_r
        | rewrite <- ?app_assoc; reflexivity ].

Lemma since_app w w' l : trace w' = (trace w ++ l)%list -> since w w' = l.
Proof. intros H. unfold since. rewrite H. apply drop_app_length. Qed.

Lemma no_fetch_requests l : no_fetch l -> requests l = [].
Proof.
  induction 1 as [|e l He _ IH]; [done|].
  unfold requests in *. destruct e; simpl in *; try done.
Qed.

Lemma no_fetch_no_staged_put l : no_fetch l -> no_staged_put l.
Proof.
  intros H. eapply Forall_impl; [exact H|]. intros e He. by destruct e.
Qed.

Lemma no_staged_put_after_reply l prev : no_staged_put l -> after_reply prev l.
Proof.
  intros H. revert prev. induction H as [|e l He _ IH]; intros prev; simpl; [done|].
  rewrite He. auto.
Qed.

Lemma after_reply_weaken l prev : after_reply None l -> after_reply prev l.
Proof.
  destruct l as [|e l]; simpl; [done|].
  destruct (delegation_put e); [intros [? _]; discriminate | tauto].
Qed.

Lemma after_reply_app l1 l2 prev :
  after_reply prev l1 -> after_reply None l2 -> after_reply prev (l1 ++ l2).
Proof.
  revert prev. induction l1 as [|e l1 IH]; intros prev H1 H2; simpl.
  - by apply after_reply_weaken.
  - destruct H1 as [H1 H1']. split; [done|]. by apply IH.
Qed.

(** What [after_reply] says, by positions. *)
Lemma after_reply_lookup l :
  after_reply None l ->
  forall i tid n rs,
    l !! i = Some (Fetch (PutTask tid (PDelegation n)) rs) ->
    exists j text ty body,
      i = S j /\ l !! j = Some (Fetch (PostReply tid text ty) (Answer true body)).
Proof.
  assert (forall l prev, after_reply prev l ->
            forall i tid n rs,
              l !! i = Some (Fetch (PutTask tid (PDelegation n)) rs) ->
              (i = 0%nat /\ prev = Some tid) \/
              exists j text ty body,
                i = S j /\ l !! j = Some (Fetch (PostReply tid text ty) (Answer true body)))
    as Hgen.
  { clear l. induction l as [|e l IH]; intros prev Hl i tid n rs Hi.
    - by rewrite lookup_nil in Hi.
    - destruct Hl as [He Hl]. destruct i as [|i]; simpl in Hi.
      + injection Hi as ->. simpl in He. by left.
      + right. destruct (IH _ Hl _ _ _ _ Hi) as [[-> Hprev] | (j & text & ty & body & -> & Hj)].
        * exists 0%nat. destruct e as [[] [|[] ?] | | |]; try discriminate Hprev.
          injection Hprev as ->. by eexists _, _, _.
        * exists (S j). by eexists _, _, _. }
  intros Hl i tid n rs Hi.
  destruct (Hgen _ _ Hl _ _ _ _ Hi) as [[_ ?]|?]; [discriminate | done].
Qed.

(** *** What runs after the handler: the calls of getTasks left in flight *)

Lemma getTasks_resume_effects rs w :
  exists l,
    trace (exec (getTasks_resume rs) w) = (trace w ++ l)%list /\
    no_fetch l /\ Forall transient l /\
    (count failed [Fetch GetTasks rs] <= count error_message l)%nat /\
    pendingTaskUpdate (exec (getTasks_resume rs) w) = pendingTaskUpdate w /\
    inflight (exec (getTasks_resume rs) w) = inflight w /\
    server (exec (getTasks_resume rs) w) = server w.
Proof.
  world_fields w. run_handler.
  all: eexists; split; [trace_ext|].
  all: repeat split; repeat constructor.
Qed.

Lemma settle_effects w :
  exists l,
    trace (settle w) = (trace w ++ l)%list /\
    no_fetch l /\ Forall transient l /\
    (count failed (map (Fetch GetTasks) (inflight w)) <= count error_message l)%nat /\
    pendingTaskUpdate (settle w) = pendingTaskUpdate w /\
    inflight (settle w) = [] /\
    server (settle w) = server w.
Proof.
  unfold settle.
  assert (forall fl w0,
            exists l,
              trace (fold_left (fun w rs => exec (getTasks_resume rs) w) fl w0)
              = (trace w0 ++ l)%list /\
              no_fetch l /\ Forall transient l /\
              (count failed (map (Fetch GetTasks) fl) <= count error_message l)%nat /\
              pendingTaskUpdate (fold_left (fun w rs => exec (getTasks_resume rs) w) fl w0)
              = pendingTaskUpdate w0 /\
              inflight (fold_left (fun w rs => exec (getTasks_resume rs) w) fl w0)
              = inflight w0 /\
              server (fold_left (fun w rs => exec (getTasks_resume rs) w) fl w0)
              = server w0) as Hfold.
  { induction fl as [|rs fl IH]; intros w0.
    - exists []. rewrite app_nil_r. repeat split; try constructor.
    - destruct (getTasks_resume_effects rs w0) as (l1 & Ht1 & Hf1 & Hm1 & Hc1 & Hp1 & Hi1 & Hs1).
      destruct (IH (exec (getTasks_resume rs) w0)) as (l2 & Ht2 & Hf2 & Hm2 & Hc2 & Hp2 & Hi2 & Hs2).
      exists (l1 ++ l2)%list. simpl fold_left.
      rewrite Ht2, Ht1, Hp2, Hp1, Hi2, Hi1, Hs2, Hs1, app_assoc.
      repeat split; try by apply Forall_app.
      unfold count in *. rewrite List.filter_app, length_app.
      change (map (Fetch GetTasks) (rs :: fl))
        with ([Fetch GetTasks rs] ++ map (Fetch GetTasks) fl)%list.
      rewrite List.filter_app, length_app. lia. }
  destruct (Hfold (inflight w) (set_inflight [] w)) as (l & Ht & Hf & Hm & Hc & Hp & Hi & Hs).
  exists l. destruct w; simpl in *. by repeat split.
Qed.

(** *** The staged delegation *)

Ltac payload_cases :=
  repeat match goal with
         | p : payload |- _ => destruct p
         end.

Lemma handler_effects a w :
  exists l,
    trace (exec (handler a) w) = (trace w ++ l)%list /\
    after_reply None l /\
    (a <> SendReply -> no_staged_put l).
Proof.
  world_fields w.
  destruct a; cbn [handler];
    unfold openTaskModal, copyReply, selectContact, confirmDelegation, sendReply,
      updateTaskStatus, updateTaskCategory, updateTask, openDeleteModal, confirmDelete;
    run_handler;
    (eexists; split; [trace_ext|]);
    payload_cases;
    (split; [cbn; tauto | intros Hne; first [by destruct Hne | repeat constructor]]).
Qed.

Lemma step_effects a w :
  exists l,
    trace (step w a) = (trace w ++ l)%list /\
    after_reply None l /\
    (a <> SendReply -> no_staged_put l).
Proof.
  unfold step.
  destruct (handler_effects a w) as (l1 & Ht1 & Ha1 & Hn1).
  destruct (settle_effects (exec (handler a) w)) as (l2 & Ht2 & Hf2 & _).
  exists (l1 ++ l2)%list. rewrite Ht2, Ht1, app_assoc.
  apply no_fetch_no_staged_put in Hf2.
  repeat split.
  - apply after_reply_app; [done|]. by apply no_staged_put_after_reply.
  - intros Hne. apply Forall_app. split; [by apply Hn1 | exact Hf2].
Qed.

Lemma sendReply_clicked_effects w :
  exists l,
    trace (fst (sendReply_clicked w)) = (trace w ++ l)%list /\ no_fetch l /\
    (snd (sendReply_clicked w) = None \/
     exists tid,
       currentTaskId w = Some tid /\
       snd (sendReply_clicked w) = Some (tid, modalTaskReply w, selectedReplyType w)).
Proof.
  world_fields w. unfold sendReply_clicked. run_handler.
  all: eexists; split; [trace_ext|]; split; [repeat constructor|]; eauto.
Qed.

Lemma sendReply_answered_effects tid reply_body reply_type rs w :
  exists l,
    trace (exec (sendReply_answered tid reply_body reply_type rs) w)
    = (trace w ++ l)%list /\
    after_reply None l.
Proof.
  world_fields w. unfold sendReply_answered, updateTask. run_handler.
  all: eexists; split; [trace_ext|]; payload_cases; cbn; tauto.
Qed.

Lemma page_step_effects e p :
  exists l,
    trace (page_world (page_step p e)) = (trace (page_world p) ++ l)%list /\
    after_reply None l /\
    (replying p = None -> e <> ClickSend -> e <> Act SendReply ->
     no_staged_put l /\ replying (page_step p e) = None).
Proof.
  destruct p as [w r], e as [a| |rs]; cbn [page_step page_world replying].
  - destruct (step_effects a w) as (l & Ht & Ha & Hn).
    exists l. repeat split; auto. apply Hn. congruence.
  - destruct r as [[[tid text] ty]|]; cbn [page_world replying].
    + exists []. rewrite app_nil_r. repeat split; try done.
    + destruct (sendReply_clicked_effects w) as (l & Ht & Hf & _).
      destruct (sendReply_clicked w) as [w1 sent]. exists l.
      cbn [fst page_world] in *. repeat split; try done.
      by apply no_staged_put_after_reply, no_fetch_no_staged_put.
  - destruct r as [[[tid text] ty]|]; cbn [page_world replying].
    + destruct (sendReply_answered_effects tid text ty rs w) as (l1 & Ht1 & Ha1).
      destruct (settle_effects (exec (sendReply_answered tid text ty rs) w))
        as (l2 & Ht2 & Hf2 & _).
      exists (l1 ++ l2)%list. rewrite Ht2, Ht1, app_assoc. repeat split; try done.
      apply after_reply_app; [done|].
      by apply no_staged_put_after_reply, no_fetch_no_staged_put.
    + exists []. rewrite app_nil_r. repeat split; constructor.
Qed.

Lemma page_run_effects evs p :
  exists l,
    trace (page_world (page_run evs p)) = (trace (page_world p) ++ l)%list /\
    after_reply None l /\
    (replying p = None -> ClickSend ∉ evs -> Act SendReply ∉ evs ->
     no_staged_put l).
Proof.
  revert p. induction evs as [|e evs IH]; intros p.
  - exists []. rewrite app_nil_r. repeat split. constructor.
  - destruct (page_step_effects e p) as (l1 & Ht1 & Ha1 & Hn1).
    destruct (IH (page_step p e)) as (l2 & Ht2 & Ha2 & Hn2).
    exists (l1 ++ l2)%list. unfold page_run in *. simpl fold_left.
    rewrite Ht2, Ht1, app_assoc. repeat split.
    + by apply after_reply_app.
    + intros Hr Hc Hs. rewrite not_elem_of_cons in Hc, Hs.
      destruct Hc as [Hc Hc'], Hs as [Hs Hs'].
      destruct Hn1 as [Hn1 Hr1]; [done | congruence | congruence |].
      apply Forall_app. split; [done | by apply Hn2].
Qed.

Lemma confirmDelegation_stages w :
  requests (since w (exec confirmDelegation w)) = [] /\
  forall c name tid,
    selectedDelegate w = Some c -> c_name c = Some name ->
    currentTaskId w = Some tid ->
    pendingTaskUpdate (exec confirmDelegation w) = Some (PDelegation (Some name)).
Proof.
  world_fields w. unfold confirmDelegation.
  run_handler.
  all: split; [erewrite since_app by (cbn [trace]; trace_ext); reflexivity|].
  all: cbn [selectedDelegate currentTaskId pendingTaskUpdate];
    intros ? ? ? Hc Hn Ht; congruence.
Qed.

(** [sendReply] run to its end at once is the click followed by the answer
    of the backend, with nothing in between. *)
Lemma sendReply_uninterrupted w :
  exec sendReply w
  = match sendReply_clicked w with
    | (w1, Some (tid, reply_body, reply_type)) =>
        exec (sendReply_answered tid reply_body reply_type (next_answer w))
          (set_server (tl (server w)) w1)
    | (w1, None) => w1
    end.
Proof.
  world_fields w. unfold sendReply, sendReply_clicked, sendReply_answered, updateTask.
  run_handler; reflexivity.
Qed.

(** C8. A delegation staged while a reply is on its way is applied by that
    reply. [sendReply] reads [pendingTaskUpdate] after its [await fetch],
    and while it waits only the Send button is disabled. The user opens
    task 7 and sends the acknowledgement; before the answer is there, the
    user asks to delegate, picks a contact and confirms, which stages the
    delegation and writes the draft for the delegate; the answer to the
    acknowledgement arrives, and the task is [PUT] as delegated to the
    contact, though the draft was never sent. What the code does keep:
    [confirmDelegation] itself sends nothing; through every run of the
    page a [PUT] of a staged delegation comes right after the [POST] of a
    reply of that task was answered with success; and when no reply is on
    its way and none is sent, there is no such [PUT]. *)
Theorem staged_delegation_overtakes_reply :
  (let start :=
     Waiting (board [accepted []; accepted []; accepted [task7]; accepted [task7]])
       None in
   let staged := page_run (take 5 reply_overtaken) start in
   let arrived := page_run reply_overtaken start in
   replying staged = Some (7, "Thanks, noted.", None) /\
   pendingTaskUpdate (page_world staged) = Some (PDelegation (Some "Dana Kim")) /\
   requests (trace (page_world staged)) = [GetCircle ""] /\
   drop 5 reply_overtaken = [ReplyArrives (Answer true None)] /\
   List.filter mutating (requests (trace (page_world arrived)))
   = [PostReply 7 "Thanks, noted." None;
      PutTask 7 (PDelegation (Some "Dana Kim"))] /\
   pendingTaskUpdate (page_world arrived) = None) /\
  (forall w,
     requests (since w (exec confirmDelegation w)) = [] /\
     forall c name tid,
       selectedDelegate w = Some c -> c_name c = Some name ->
       currentTaskId w = Some tid ->
       pendingTaskUpdate (exec confirmDelegation w)
       = Some (PDelegation (Some name))) /\
  (forall evs p,
     let new := since (page_world p) (page_world (page_run evs p)) in
     (forall i tid n rs,
        new !! i = Some (Fetch (PutTask tid (PDelegation n)) rs) ->
        exists j text ty body,
          i = S j /\
          new !! j = Some (Fetch (PostReply tid text ty) (Answer true body))) /\
     (replying p = None -> ClickSend ∉ evs -> Act SendReply ∉ evs ->
      forall tid n rs, Fetch (PutTask tid (PDelegation n)) rs ∉ new)).
Proof.
  split; [by vm_compute|]. split; [apply confirmDelegation_stages|].
  intros evs p. cbv zeta.
  destruct (page_run_effects evs p) as (l & Ht & Ha & Hn).
  rewrite (since_app _ _ _ Ht). split.
  - by apply after_reply_lookup.
  - intros Hr Hc Hs tid n rs Hin.
    specialize (Hn Hr Hc Hs). unfold no_staged_put in Hn.
    rewrite Forall_forall in Hn. specialize (Hn _ Hin). discriminate Hn.
Qed.

Lemma staged_delegation_overtakes_reply_witness :
  let p := Waiting delegate_chosen None in
  let new := since (page_world p)
               (page_world (page_run [Act ConfirmDelegation; Act Refresh] p)) in
  replying p = None /\
  (ClickSend ∉ [Act ConfirmDelegation; Act Refresh]) /\
  (Act SendReply ∉ [Act ConfirmDelegation; Act Refresh]) /\
  Fetch (PutTask 7 (PDelegation (Some "Dana Kim"))) (accepted []) ∉ new.
Proof.
  cbv zeta.
  assert (ClickSend ∉ [Act ConfirmDelegation; Act Refresh]) as Hc.
  { rewrite !not_elem_of_cons. repeat split; try discriminate. apply not_elem_of_nil. }
  assert (Act SendReply ∉ [Act ConfirmDelegation; Act Refresh]) as Hs.
  { rewrite !not_elem_of_cons. repeat split; try discriminate. apply not_elem_of_nil. }
  split; [reflexivity|]. split; [exact Hc|]. split; [exact Hs|].
  exact (proj2 (proj2 (proj2 staged_delegation_overtakes_reply)
                  [Act ConfirmDelegation; Act Refresh] (Waiting delegate_chosen None))
           eq_refl Hc Hs 7 (Some "Dana Kim") (accepted [])).
Defined.

(** *** Replies that discard the staged delegation *)

Lemma no_fetch_no_put l : no_fetch l -> no_put l.
Proof.
  intros H. eapply Forall_impl; [exact H|]. intros e He. by destruct e.
Qed.

Lemma copyReply_effects taskId type w :
  (is_Some (find_task taskId (allTasks w)) ->
   pendingTaskUpdate (exec (copyReply taskId type) w) = None) /\
  (find_task taskId (allTasks w) = None -> exec (copyReply taskId type) w = w) /\
  exists l, trace (exec (copyReply taskId type) w) = (trace w ++ l)%list /\ no_put l.
Proof.
  world_fields w. unfold copyReply. run_handler.
  all: cbn [pendingTaskUpdate allTasks].
  all: split; [first [reflexivity | intros [? ?]; congruence]|].
  all: split; [first [reflexivity | intros ?; congruence]|].
  all: eexists; split; [trace_ext | repeat constructor].
Qed.

Lemma openTaskModal_effects tid w :
  (is_Some (find_task (Some tid) (allTasks w)) ->
   pendingTaskUpdate (exec (openTaskModal tid) w) = None) /\
  (find_task (Some tid) (allTasks w) = None -> exec (openTaskModal tid) w = w).
Proof.
  world_fields w. unfold openTaskModal. run_handler.
  all: cbn [pendingTaskUpdate allTasks].
  all: split; [first [reflexivity | intros [? ?]; congruence]|].
  all: first [reflexivity | intros ?; congruence].
Qed.

Lemma sendReply_nothing_staged w :
  pendingTaskUpdate w = None ->
  exists l, trace (exec sendReply w) = (trace w ++ l)%list /\ no_put l.
Proof.
  world_fields w. cbn [pendingTaskUpdate]. intros ->.
  unfold sendReply. run_handler.
  all: eexists; split; [trace_ext | repeat constructor].
Qed.

(** [copyReply] then returns before its reset, and the reply that follows
    still applies the delegation. *)
Lemma copyReply_resets_counterexample :
  ~ resets_staged_update (copyReply (Some 7) "acknowledge") /\
  PutTask 7 (PDelegation (Some "Dana Kim"))
    ∈ requests (since task_gone
                  (run [CopyReply (Some 7) "acknowledge"; SendReply] task_gone)).
Proof.
  split.
  - intros H. specialize (H task_gone). vm_compute in H. discriminate H.
  - apply list_elem_of_lookup. exists 1%nat. vm_compute. reflexivity.
Qed.

(** C10, amended. [copyReply], with any reply type, and [openTaskModal]
    reset the staged update to null when the task they are called for is on
    the snapshot, and change nothing when it is not. So when a delegation
    is staged and the user then picks the acknowledge or the done reply of
    a task on the snapshot, the reply that is sent next is followed by no
    request that updates a task. *)
Theorem staged_update_discarded w :
  (forall taskId type,
     is_Some (find_task taskId (allTasks w)) ->
     pendingTaskUpdate (exec (copyReply taskId type) w) = None) /\
  (forall tid,
     is_Some (find_task (Some tid) (allTasks w)) ->
     pendingTaskUpdate (exec (openTaskModal tid) w) = None) /\
  (forall taskId type,
     find_task taskId (allTasks w) = None -> exec (copyReply taskId type) w = w) /\
  (forall tid,
     find_task (Some tid) (allTasks w) = None -> exec (openTaskModal tid) w = w) /\
  (forall taskId type,
     type = "acknowledge" \/ type = "done" ->
     is_Some (find_task taskId (allTasks w)) ->
     no_put (since w (run [CopyReply taskId type; SendReply] w))).
Proof.
  split; [intros; by apply copyReply_effects|].
  split; [intros; by apply openTaskModal_effects|].
  split; [intros; by apply copyReply_effects|].
  split; [intros; by apply openTaskModal_effects|].
  intros taskId type _ Hfound.
  destruct (copyReply_effects taskId type w) as (Hreset & _ & l1 & Ht1 & Hn1).
  specialize (Hreset Hfound).
  destruct (settle_effects (exec (copyReply taskId type) w))
    as (l2 & Ht2 & Hf2 & _ & _ & Hp2 & _).
  rewrite Hreset in Hp2.
  destruct (sendReply_nothing_staged _ Hp2) as (l3 & Ht3 & Hn3).
  destruct (settle_effects (exec sendReply (settle (exec (copyReply taskId type) w))))
    as (l4 & Ht4 & Hf4 & _).
  erewrite since_app.
  2:{ unfold run, step; cbn [fold_left handler].
      rewrite Ht4, Ht3, Ht2, Ht1, <- !app_assoc. reflexivity. }
  unfold no_put in *. rewrite !Forall_app.
  repeat split; try done; by apply no_fetch_no_put.
Qed.

Lemma staged_update_discarded_witness :
  pendingTaskUpdate delegation_staged = Some (PDelegation (Some "Dana Kim")) /\
  is_Some (find_task (Some 7) (allTasks delegation_staged)) /\
  requests (since delegation_staged
              (run [CopyReply (Some 7) "acknowledge"; SendReply] delegation_staged))
  = [PostReply 7 "Thanks, noted." (Some "acknowledge"); GetTasks] /\
  no_put (since delegation_staged
            (run [CopyReply (Some 7) "acknowledge"; SendReply] delegation_staged)).
Proof.
  assert (is_Some (find_task (Some 7) (allTasks delegation_staged))) as Hfound.
  { exists task7. reflexivity. }
  split; [reflexivity|]. split; [exact Hfound|]. split; [reflexivity|].
  exact (proj2 (proj2 (proj2 (proj2 (staged_update_discarded delegation_staged))))
           (Some 7) "acknowledge" (or_introl eq_refl) Hfound).
Defined.

(** *** The round trip of a mutation *)

(** Sending the reply of a staged delegation sends two. *)
Lemma one_request_round_trip_counterexample :
  ~ one_request_round_trip SendReply delegation_staged.
Proof.
  intros [rq Hrq]. vm_compute in Hrq. discriminate Hrq.
Qed.

(** A step from a world with nothing in flight, by cases. *)
Ltac run_step :=
  unfold step, settle, handler, openTaskModal, copyReply, selectContact,
    confirmDelegation, sendReply, updateTaskStatus, updateTaskCategory,
    updateTask, openDeleteModal, confirmDelete;
  repeat (unfold_handlers; cbn [app fold_left];
          try match goal with
          | |- context [match ?x with _ => _ end] =>
              lazymatch x with
              | context [match _ with _ => _ end] => fail
              | context [if _ then _ else _] => fail
              | _ => destruct x eqn:?
              end
          | |- context [if ?x then _ else _] =>
              lazymatch x with
              | context [match _ with _ => _ end] => fail
              | context [if _ then _ else _] => fail
              | _ => destruct x eqn:?
              end
          end).

Ltac since_norm :=
  unfold since; cbn [trace];
  rewrite <- ?app_assoc; rewrite ?drop_app_length, ?drop_all; cbn [app].

Lemma update_round_trip tid p w :
  inflight w = [] ->
  requests (since w (settle (exec (updateTask tid p) w)))
  = PutTask tid p :: (if answered_ok (answer 0 w) then [GetTasks] else []).
Proof.
  world_fields w. cbn [inflight]. intros ->.
  unfold settle, updateTask. run_step.
  all: since_norm; reflexivity.
Qed.

Lemma reply_round_trip tid w :
  inflight w = [] ->
  currentTaskId w = Some tid -> is_blank (modalTaskReply w) = false ->
  requests (since w (step w SendReply))
  = PostReply tid (modalTaskReply w) (selectedReplyType w)
    :: (if answered_ok (answer 0 w) then
          match pendingTaskUpdate w with
          | Some p =>
              PutTask tid p
              :: (if answered_ok (answer 1 w) then [GetTasks; GetTasks]
                  else [GetTasks])
          | None => [GetTasks]
          end
        else []).
Proof.
  world_fields w. cbn [inflight currentTaskId modalTaskReply]. intros -> -> Hb.
  unfold step, settle, handler, sendReply, updateTask.
  unfold_handlers. rewrite Hb.
  run_step.
  all: since_norm; reflexivity.
Qed.

Lemma delete_round_trip tid w :
  inflight w = [] -> deleteId w = Some tid ->
  List.filter mutating (requests (since w (step w ConfirmDelete))) = [DeleteTask tid] /\
  (answered_ok (answer 0 w) = true ->
   requests (since w (step w ConfirmDelete)) = [DeleteTask tid; GetTasks]).
Proof.
  world_fields w. cbn [inflight deleteId]. intros -> ->.
  run_step.
  all: since_norm; split; [reflexivity | first [reflexivity | discriminate]].
Qed.

Ltac find_effect := repeat (first [left; reflexivity | right]).

(** The snapshot is only ever replaced by what a re-fetch brought, and the
    board is rendered once per snapshot brought. *)
Lemma snapshot_only_refetched a w :
  inflight w = [] ->
  count is_render (since w (step w a)) = count got_tasks (since w (step w a)) /\
  (allTasks (step w a) = allTasks w \/
   exists j, In (Fetch GetTasks (Answer true (Some j))) (since w (step w a))
             /\ allTasks (step w a) = j_tasks j).
Proof.
  intros Hq.
  assert (forall w', step w a = w' ->
            count is_render (since w w') = count got_tasks (since w w') /\
            (allTasks w' = allTasks w \/
             exists j, In (Fetch GetTasks (Answer true (Some j))) (since w w')
                       /\ allTasks w' = j_tasks j)) as H; [|by apply H].
  revert Hq. world_fields w. cbn [inflight]. intros ->.
  destruct a; run_step.
  all: intros w' <-; since_norm; cbn [allTasks]; payload_cases.
  all: split; [reflexivity|].
  all: first [ left; reflexivity
             | right; eexists; split; cycle 1; [reflexivity | cbn [In]; find_effect] ].
Qed.

Lemma updateTaskStatus_given s taskId w :
  exec (updateTaskStatus s taskId) w
  = match (if given taskId is Some _ then given taskId else currentTaskId w) with
    | Some tid => exec (updateTask tid (PStatus s)) w
    | None => w
    end.
Proof.
  world_fields w. unfold updateTaskStatus. cbn [currentTaskId].
  destruct (given taskId), cur0; reflexivity.
Qed.

Lemma updateTaskCategory_given c taskId w :
  exec (updateTaskCategory c taskId) w
  = match given taskId with
    | Some tid => exec (updateTask tid (PCategory c)) w
    | None => w
    end.
Proof. unfold updateTaskCategory. by destruct (given taskId). Qed.

(** C6, amended. From a page with nothing in flight: a status change and a
    category change that are given the id of a task send one [PUT] and
    re-fetch the snapshot only when it was answered with success, and a
    status change that is given no id is one of the task of the modal;
    sending a reply sends one [POST] and, only when it was answered with
    success, the [PUT] of the staged update if there is one (a delegation
    is two requests) and the re-fetch; a deletion sends one [DELETE],
    followed by the re-fetch when it was answered with success. Whatever
    the action, the snapshot changes only by being replaced with what a
    re-fetch brought, and the board is rendered once per snapshot
    brought. *)
Theorem mutation_round_trip w :
  inflight w = [] ->
  (forall s taskId tid,
     given taskId = Some tid \/ (taskId = None /\ currentTaskId w = Some tid) ->
     requests (since w (step w (UpdateTaskStatus s taskId)))
     = PutTask tid (PStatus s)
       :: (if answered_ok (answer 0 w) then [GetTasks] else [])) /\
  (forall c taskId tid,
     given taskId = Some tid ->
     requests (since w (step w (UpdateTaskCategory c taskId)))
     = PutTask tid (PCategory c)
       :: (if answered_ok (answer 0 w) then [GetTasks] else [])) /\
  (forall tid,
     currentTaskId w = Some tid -> is_blank (modalTaskReply w) = false ->
     requests (since w (step w SendReply))
     = PostReply tid (modalTaskReply w) (selectedReplyType w)
       :: (if answered_ok (answer 0 w) then
             match pendingTaskUpdate w with
             | Some p =>
                 PutTask tid p
                 :: (if answered_ok (answer 1 w) then [GetTasks; GetTasks]
                     else [GetTasks])
             | None => [GetTasks]
             end
           else [])) /\
  (forall tid,
     deleteId w = Some tid ->
     List.filter mutating (requests (since w (step w ConfirmDelete)))
     = [DeleteTask tid] /\
     (answered_ok (answer 0 w) = true ->
      requests (since w (step w ConfirmDelete)) = [DeleteTask tid; GetTasks])) /\
  (forall a,
     count is_render (since w (step w a)) = count got_tasks (since w (step w a)) /\
     (allTasks (step w a) = allTasks w \/
      exists j, In (Fetch GetTasks (Answer true (Some j))) (since w (step w a))
                /\ allTasks (step w a) = j_tasks j)).
Proof.
  intros Hq. repeat split.
  - intros s taskId tid Hid. unfold step. cbn [handler].
    rewrite updateTaskStatus_given.
    destruct Hid as [-> | [-> ->]]; exact (update_round_trip tid (PStatus s) w Hq).
  - intros c taskId tid Hid. unfold step. cbn [handler].
    rewrite updateTaskCategory_given, Hid.
    exact (update_round_trip tid (PCategory c) w Hq).
  - intros tid. by apply reply_round_trip.
  - by apply delete_round_trip.
  - by apply delete_round_trip.
  - by apply snapshot_only_refetched.
  - by apply snapshot_only_refetched.
Qed.

Lemma mutation_round_trip_witness :
  inflight delegation_staged = [] /\
  requests (since delegation_staged
              (step delegation_staged
                 (UpdateTaskStatus "in_progress" (Some (IdNumber 7)))))
  = [PutTask 7 (PStatus "in_progress"); GetTasks].
Proof.
  split; [reflexivity|].
  exact (proj1 (mutation_round_trip delegation_staged eq_refl) "in_progress"
           (Some (IdNumber 7)) 7 (or_introl eq_refl)).
Defined.

(** X3. [confirmDelete] does not look at the answer to its [DELETE]: when
    the backend refuses it, the handler still re-fetches the snapshot and
    tells the user the task was deleted. *)
Lemma confirmDelete_ignores_refusal w tid body :
  inflight w = [] -> deleteId w = Some tid ->
  answer 0 w = Answer false body ->
  requests (since w (step w ConfirmDelete)) = [DeleteTask tid; GetTasks] /\
  In (ShowMessage "Deleted" "success" 3000) (since w (step w ConfirmDelete)).
Proof.
  world_fields w. cbn [inflight deleteId]. intros -> ->.
  unfold answer. cbn [server nth].
  destruct srv0 as [|rs srv0]; cbn [nth]; [discriminate|]. intros ->.
  run_step.
  all: since_norm; split; [reflexivity | cbn [In]; find_effect].
Qed.

Lemma confirmDelete_ignores_refusal_witness :
  requests (since (set_server [Answer false None] offline_delete)
              (step (set_server [Answer false None] offline_delete) ConfirmDelete))
  = [DeleteTask 7; GetTasks].
Proof.
  exact (proj1 (confirmDelete_ignores_refusal
                  (set_server [Answer false None] offline_delete) 7 None
                  eq_refl eq_refl eq_refl)).
Defined.

(** *** Failures of the network *)

Lemma count_app f l1 l2 : count f (l1 ++ l2) = (count f l1 + count f l2)%nat.
Proof. unfold count. by rewrite List.filter_app, length_app. Qed.

Lemma count_no_fetch l : no_fetch l -> count failed l = 0%nat.
Proof.
  induction 1 as [|e l He _ IH]; [done|].
  destruct e; try done.
Qed.

Lemma catches_surfaced m w : catches m -> failure_surfaced m w.
Proof.
  intros Hm. destruct (Hm w) as (l1 & extra & Ht1 & Hi1 & Hd & Hm1 & Hc1).
  destruct (settle_effects (exec m w)) as (l2 & Ht2 & Hf2 & Hm2 & Hc2 & _).
  unfold failure_surfaced.
  erewrite since_app by (rewrite Ht2, Ht1, <- app_assoc; reflexivity).
  split; [exact Hd|]. split; [by apply Forall_app|].
  rewrite !count_app, (count_no_fetch l2) by done.
  rewrite Hi1, map_app, count_app in Hc2. lia.
Qed.

Ltac catches_by_cases :=
  intros w; world_fields w; run_handler;
  (eexists _, _; split; [trace_ext|]);
  (split; [cbn [inflight]; first [symmetry; apply app_nil_r | reflexivity]|]);
  (split; [reflexivity|]);
  (split; [repeat constructor | cbn; lia]).

Lemma catches_getTasks : catches getTasks.
Proof. unfold catches. catches_by_cases. Qed.

Lemma catches_updateTask tid p : catches (updateTask tid p).
Proof. unfold catches, updateTask. catches_by_cases. Qed.

Lemma catches_sendReply : catches sendReply.
Proof. unfold catches, sendReply, updateTask. catches_by_cases. Qed.

(** With no network, [confirmDelete] leaves by the exception of its
    [fetch] and shows nothing; [searchContacts] shows nothing either; and
    [generateReport] tells the failure in an alert. *)
Lemma failure_surfaced_counterexample :
  ~ failure_surfaced confirmDelete offline_delete /\
  ~ failure_surfaced (searchContacts "dana") offline /\
  Reports.trace (fst (Reports.generateReport "standard" "2024-05-01" "2024-05-08"
                        Reports.offline_reports))
  = [Reports.Dom "btn:disabled";
     Reports.Fetch "/api/reports/custom" (Reports.Rejected "Failed to fetch");
     Reports.Alert "Error: Failed to fetch";
     Reports.Dom "btn:enabled"].
Proof.
  split; [|split].
  - intros (H & _). vm_compute in H. discriminate H.
  - intros (_ & _ & H). vm_compute in H. lia.
  - reflexivity.
Qed.

Lemma generateReport_alerts type start end_ p :
  snd (Reports.generateReport type start end_ p) = None /\
  (start <> "" -> end_ <> "" -> Reports.report_failed (Reports.next_answer p) = true ->
   exists endpoint text,
     Reports.trace (fst (Reports.generateReport type start end_ p))
     = (Reports.trace p ++
        [Reports.Dom "btn:disabled";
         Reports.Fetch endpoint (Reports.next_answer p);
         Reports.Alert text;
         Reports.Dom "btn:enabled"])%list).
Proof.
  unfold Reports.generateReport, Reports.generate.
  destruct (String.eqb_spec start ""), (String.eqb_spec end_ ""); cbn [orb fst snd];
    try (split; [reflexivity | intros; congruence]).
  destruct p as [tr srv].
  unfold Reports.sent, Reports.say, Reports.next_answer.
  cbn [Reports.trace Reports.server].
  destruct (hd (Reports.Rejected "Failed to fetch") srv) as [e|[] [data|]] eqn:Hrs;
    cbn [snd fst Reports.report_failed];
    (split; [by repeat case_match|]); intros _ _ Hf; try discriminate Hf;
    cbn [Reports.trace]; rewrite <- !app_assoc; eexists _, _; reflexivity.
Qed.

(** C7, amended. A failure of the network in [getTasks], [updateTask] (so
    in a status or category change) and [sendReply] is caught where the
    request is made: the handler ends without an exception, and every
    request that failed has an error message, which goes after three
    seconds. [searchContacts] catches its failure and shows nothing.
    [generateReport] catches its failure, ends without an exception, and
    tells it in an alert. *)
Theorem failures_surfaced :
  (forall w, failure_surfaced getTasks w) /\
  (forall tid p w, failure_surfaced (updateTask tid p) w) /\
  (forall w, failure_surfaced sendReply w) /\
  (forall query w,
     snd (searchContacts query w) = Done tt /\
     count error_message (since w (exec (searchContacts query) w)) = 0%nat) /\
  (forall type start end_ p,
     snd (Reports.generateReport type start end_ p) = None /\
     (start <> "" -> end_ <> "" -> Reports.report_failed (Reports.next_answer p) = true ->
      exists endpoint text,
        Reports.trace (fst (Reports.generateReport type start end_ p))
        = (Reports.trace p ++
           [Reports.Dom "btn:disabled";
            Reports.Fetch endpoint (Reports.next_answer p);
            Reports.Alert text;
            Reports.Dom "btn:enabled"])%list)).
Proof.
  split; [intros; apply catches_surfaced, catches_getTasks|].
  split; [intros; apply catches_surfaced, catches_updateTask|].
  split; [intros; apply catches_surfaced, catches_sendReply|].
  split; [|apply generateReport_alerts].
  intros query w. world_fields w. unfold searchContacts. run_handler.
  all: split; [reflexivity|]; since_norm; reflexivity.
Qed.

Lemma failures_surfaced_witness :
  failure_surfaced sendReply staged_offline /\
  since staged_offline (settle (exec sendReply staged_offline))
  = [Dom "sendBtn:disabled";
     Fetch (PostReply 7 "Hi Dana," (Some "delegate")) (Rejected "Failed to fetch");
     ShowMessage "Failed to fetch" "error" 3000;
     Dom "sendBtn:enabled"].
Proof.
  split; [|reflexivity].
  exact (proj1 (proj2 (proj2 failures_surfaced)) staged_offline).
Defined.

End KanbanFlow.

(** ** The board: who is shown, counts and cards *)

Module BoardFacts.
Import Kanban Board KanbanFlow.

Ltac place_cases t :=
  unfold place, visible, to_waiting, to_quick, to_deep, to_todo, to_doing, to_paused,
    place_kanban, place_executive;
  unfold to_waiting;
  destruct (excluded t); [cbn; rewrite ?app_nil_r; reflexivity|];
  destruct (filtered_out _ (project t)); [cbn; rewrite ?app_nil_r; reflexivity|];
  destruct (filtered_out _ (sender t)); [cbn; rewrite ?app_nil_r; reflexivity|];
  destruct (String.eqb (triage_category t) "waiting_for");
  destruct (String.eqb (triage_category t) "quick_action");
  destruct (String.eqb (triage_category t) "deep_work");
  (destruct (String.eqb_spec (status t) "new") as [E|_];
   [rewrite ?E
   |destruct (String.eqb_spec (status t) "in_progress") as [E|_];
     [rewrite ?E|destruct (String.eqb (status t) "paused")]]);
  cbn; rewrite ?app_nil_r; reflexivity.

(** One task placed: each bucket grows by the task, or stays. *)
Lemma place_buckets fp fs c t :
  let pick (f : task -> bool) := if visible fp fs t && f t then [t] else [] in
  quick (place fp fs c t) = (quick c ++ pick to_quick)%list /\
  deep (place fp fs c t) = (deep c ++ pick to_deep)%list /\
  waiting (place fp fs c t) = (waiting c ++ pick to_waiting)%list /\
  todo (place fp fs c t) = (todo c ++ pick to_todo)%list /\
  doing (place fp fs c t) = (doing c ++ pick to_doing)%list /\
  paused (place fp fs c t) = (paused c ++ pick to_paused)%list.
Proof.
  cbv zeta. repeat split; place_cases t.
Qed.

Lemma filter_cons_pick (f : task -> bool) t l :
  List.filter f (t :: l) = ((if f t then [t] else []) ++ List.filter f l)%list.
Proof. simpl. by destruct (f t). Qed.

(** The buckets before sorting: the snapshot, filtered, in its order. *)
Lemma fold_buckets fp fs tasks : forall c,
  let sel (f : task -> bool) := List.filter (fun t => visible fp fs t && f t) tasks in
  let c' := fold_left (place fp fs) tasks c in
  quick c' = (quick c ++ sel to_quick)%list /\
  deep c' = (deep c ++ sel to_deep)%list /\
  waiting c' = (waiting c ++ sel to_waiting)%list /\
  todo c' = (todo c ++ sel to_todo)%list /\
  doing c' = (doing c ++ sel to_doing)%list /\
  paused c' = (paused c ++ sel to_paused)%list.
Proof.
  induction tasks as [|t tasks IH]; intros c; cbv zeta.
  - simpl. rewrite !app_nil_r. by repeat split.
  - simpl fold_left.
    destruct (IH (place fp fs c t)) as (Hq & Hd & Hw & Ht & Hg & Hp).
    destruct (place_buckets fp fs c t) as (Pq & Pd & Pw & Pt & Pg & Pp).
    rewrite Hq, Hd, Hw, Ht, Hg, Hp, Pq, Pd, Pw, Pt, Pg, Pp.
    rewrite !filter_cons_pick, <- !app_assoc. by repeat split.
Qed.

(** X4. Each of the six buckets of [renderTasks] is a rearrangement of the
    tasks of the snapshot that its test selects: no task is lost, none is
    added, none is doubled. *)
Theorem renderTasks_rearranges fp fs tasks :
  let c := renderTasks fp fs tasks in
  let sel (f : task -> bool) := List.filter (fun t => visible fp fs t && f t) tasks in
  quick c ≡ₚ sel to_quick /\ deep c ≡ₚ sel to_deep /\ waiting c ≡ₚ sel to_waiting /\
  todo c ≡ₚ sel to_todo /\ doing c ≡ₚ sel to_doing /\ paused c ≡ₚ sel to_paused.
Proof.
  cbv zeta. unfold renderTasks, sort_all. cbn [quick deep waiting todo doing paused].
  destruct (fold_buckets fp fs tasks empty_cols) as (Hq & Hd & Hw & Ht & Hg & Hp).
  cbv zeta in *. rewrite Hq, Hd, Hw, Ht, Hg, Hp.
  cbn [empty_cols quick deep waiting todo doing paused app].
  repeat split; apply KanbanView.array_sort_perm.
Qed.

Lemma filter_three (v a b c : task -> bool) l :
  (forall t, v t = true ->
     (a t = true /\ b t = false /\ c t = false) \/
     (a t = false /\ b t = true /\ c t = false) \/
     (a t = false /\ b t = false /\ c t = true)) ->
  (length (List.filter (fun t => v t && a t) l)
   + length (List.filter (fun t => v t && b t) l)
   + length (List.filter (fun t => v t && c t) l))%nat
  = length (List.filter v l).
Proof.
  intros H. induction l as [|t l IH]; [done|].
  simpl. destruct (v t) eqn:Hv; simpl; [|exact IH].
  destruct (H t Hv) as [(-> & -> & ->) | [(-> & -> & ->) | (-> & -> & ->)]];
    simpl; lia.
Qed.

Lemma filter_le (v a b c : task -> bool) l :
  (forall t, (a t = false \/ b t = false) /\ (a t = false \/ c t = false)
             /\ (b t = false \/ c t = false)) ->
  (length (List.filter (fun t => v t && a t) l)
   + length (List.filter (fun t => v t && b t) l)
   + length (List.filter (fun t => v t && c t) l))%nat
  = length (List.filter (fun t => v t && (a t || b t || c t)) l).
Proof.
  intros H. induction l as [|t l IH]; [done|].
  simpl. destruct (v t) eqn:Hv; simpl; [|exact IH].
  destruct (H t) as (H1 & H2 & H3).
  destruct (a t), (b t), (c t); simpl; try lia;
    destruct H1, H2, H3; discriminate.
Qed.

(** X5. The three counts of the executive view add up to the number of
    tasks of the snapshot that are not closed or archived and pass the
    filters; the three counts of the kanban view add up to the number of
    those whose status is new, in_progress or paused. *)
Theorem renderTasks_counts fp fs tasks :
  let c := renderTasks fp fs tasks in
  (length (quick c) + length (deep c) + length (waiting c))%nat
  = length (List.filter (visible fp fs) tasks) /\
  (length (todo c) + length (doing c) + length (paused c))%nat
  = length (List.filter
              (fun t => visible fp fs t && (to_todo t || to_doing t || to_paused t))
              tasks).
Proof.
  cbv zeta. unfold renderTasks, sort_all. cbn [quick deep waiting todo doing paused].
  rewrite !KanbanView.array_sort_perm.
  destruct (fold_buckets fp fs tasks empty_cols) as (Hq & Hd & Hw & Ht & Hg & Hp).
  cbv zeta in *. rewrite Hq, Hd, Hw, Ht, Hg, Hp.
  cbn [empty_cols quick deep waiting todo doing paused app]. split.
  - apply filter_three. intros t _. unfold to_quick, to_deep, to_waiting.
    destruct (String.eqb (triage_category t) "waiting_for"),
             (String.eqb (triage_category t) "quick_action"); simpl; tauto.
  - apply filter_le. intros t. unfold to_todo, to_doing, to_paused.
    destruct (String.eqb_spec (status t) "new") as [E|E];
      destruct (String.eqb_spec (status t) "in_progress") as [E'|E'];
      destruct (String.eqb_spec (status t) "paused") as [E''|E''];
      try (rewrite E in E'; discriminate E'); try (rewrite E in E''; discriminate E'');
      try (rewrite E' in E''; discriminate E''); tauto.
Qed.


(** *** Filters only take cards away *)

Lemma filter_filter (f g : task -> bool) l :
  List.filter f (List.filter g l) = List.filter (fun t => g t && f t) l.
Proof.
  induction l as [|t l IH]; [done|].
  simpl. destruct (g t); simpl; [destruct (f t)|]; by rewrite ?IH.
Qed.

Lemma insert_sorted_head {A} (cmp : A -> A -> Z) x l :
  Forall (fun y => cmp x y <= 0) l -> insert_sorted cmp x l = x :: l.
Proof.
  destruct l as [|y l]; [done|].
  intros H. apply Forall_cons in H as [H _]. simpl.
  by destruct (Z.leb_spec (cmp x y) 0); [|lia].
Qed.

Lemma filter_insert_sorted (f : task -> bool) x l :
  ordinary x -> Forall ordinary l ->
  StronglySorted (before (SortCompare sortFn)) l ->
  List.filter f (insert_sorted (SortCompare sortFn) x l)
  = if f x then insert_sorted (SortCompare sortFn) x (List.filter f l)
    else List.filter f l.
Proof.
  intros Hx Hl Hs. induction Hs as [|y l Hs IH Hy].
  - simpl. by destruct (f x).
  - apply Forall_cons in Hl as [HPy Hl]. specialize (IH Hl).
    cbn [insert_sorted].
    destruct (Z.leb_spec (SortCompare sortFn x y) 0) as [Hxy|Hxy].
    + cbn [List.filter]. destruct (f x); [|done].
      symmetry. apply insert_sorted_head.
      assert (Forall (fun z => SortCompare sortFn x z <= 0) (y :: l)) as Hall.
      { constructor; [done|].
        rewrite Forall_forall in Hy, Hl. apply Forall_forall. intros z Hz.
        apply (KanbanView.sortFn_trans x y z); auto. by apply Hy. }
      apply Forall_forall. intros z Hz.
      apply (proj1 (Forall_forall _ _) Hall).
      apply list_elem_of_In. apply list_elem_of_In in Hz.
      change (In z (List.filter f (y :: l))) in Hz.
      by apply filter_In in Hz as [Hz _].
    + cbn [List.filter]. rewrite IH. destruct (f y), (f x); cbn [insert_sorted];
        try done.
      by destruct (Z.leb_spec (SortCompare sortFn x y) 0); [lia|].
Qed.

Lemma Forall_filter_keeps {A} (P : A -> Prop) (f : A -> bool) l :
  Forall P l -> Forall P (List.filter f l).
Proof.
  induction 1 as [|x l Hx _ IH]; simpl; [constructor|].
  destruct (f x); [by constructor | done].
Qed.

Lemma filter_array_sort (f : task -> bool) l :
  Forall ordinary l ->
  List.filter f (array_sort (SortCompare sortFn) l)
  = array_sort (SortCompare sortFn) (List.filter f l).
Proof.
  induction l as [|x l IH]; [done|]. intros Hl.
  apply Forall_cons in Hl as [Hx Hl].
  change (array_sort (SortCompare sortFn) (x :: l))
    with (insert_sorted (SortCompare sortFn) x (array_sort (SortCompare sortFn) l)).
  rewrite filter_insert_sorted;
    [|done
     |by rewrite KanbanView.array_sort_perm
     |apply (KanbanView.array_sort_sorted _ ordinary);
        [apply KanbanView.sortFn_total | apply KanbanView.sortFn_trans | done]].
  rewrite IH by done. simpl. by destruct (f x).
Qed.

(** X6. On a snapshot with no priority that is a name [pMap] inherits,
    choosing a filter only takes cards away: each bucket of the filtered
    board is the bucket of the unfiltered board without the tasks the
    filters reject, the others in the order they had. *)
Theorem renderTasks_filter_keeps_order fp fs tasks :
  Forall ordinary tasks ->
  let c := renderTasks fp fs tasks in
  let all := renderTasks None None tasks in
  let keep := List.filter (passes_filters fp fs) in
  quick c = keep (quick all) /\ deep c = keep (deep all) /\
  waiting c = keep (waiting all) /\ todo c = keep (todo all) /\
  doing c = keep (doing all) /\ paused c = keep (paused all).
Proof.
  intros Hord.
  cbv zeta. unfold renderTasks, sort_all. cbn [quick deep waiting todo doing paused].
  destruct (fold_buckets fp fs tasks empty_cols) as (Hq & Hd & Hw & Ht & Hg & Hp).
  destruct (fold_buckets None None tasks empty_cols) as (Aq & Ad & Aw & At & Ag & Ap).
  cbv zeta in *. rewrite Hq, Hd, Hw, Ht, Hg, Hp, Aq, Ad, Aw, At, Ag, Ap.
  cbn [empty_cols quick deep waiting todo doing paused app].
  rewrite !filter_array_sort by by apply Forall_filter_keeps.
  rewrite !filter_filter.
  assert (forall g : task -> bool,
    List.filter (fun t => visible fp fs t && g t) tasks
    = List.filter (fun t => visible None None t && g t && passes_filters fp fs t) tasks)
    as E.
  { intros g. apply List.filter_ext. intros t.
    unfold visible, passes_filters. cbn [filtered_out truthy andb negb].
    destruct (excluded t), (filtered_out fp (project t)),
      (filtered_out fs (sender t)), (g t); reflexivity. }
  rewrite <- !E. by repeat split.
Qed.

Lemma renderTasks_filter_keeps_order_witness :
  Forall ordinary [task_low; task_high] /\
  deep (renderTasks None (Some "ann@example.org") [task_low; task_high])
  = List.filter (passes_filters None (Some "ann@example.org"))
      (deep (renderTasks None None [task_low; task_high])).
Proof.
  assert (Forall ordinary [task_low; task_high]) as Hord.
  { apply Forall_cons; split; [|apply Forall_cons; split; [|constructor]];
      unfold ordinary; apply (bool_decide_unpack _); vm_compute; exact I. }
  split; [exact Hord|].
  exact (proj1 (proj2 (renderTasks_filter_keeps_order None (Some "ann@example.org")
                         [task_low; task_high] Hord))).
Defined.

(** *** Cards *)

Lemma status_of_bucket fp fs tasks b t :
  b ∈ values (renderTasks fp fs tasks) -> t ∈ b ->
  t ∈ tasks /\ excluded t = false.
Proof.
  intros Hb Ht.
  destruct (KanbanView.renderTasks_buckets fp fs tasks t) as (Hw & Hq & Hd & Ht' & Hg & Hp).
  unfold values in Hb. rewrite !elem_of_cons, elem_of_nil in Hb.
  unfold placed in *.
  destruct Hb as [->|[->|[->|[->|[->|[->|[]]]]]]];
    [ apply Hq in Ht | apply Hd in Ht | apply Hw in Ht
    | apply Ht' in Ht | apply Hg in Ht | apply Hp in Ht ]; tauto.
Qed.

(** X7. The card of a task that is on the board: its quick buttons never
    ask for the status the task already has and always offer to close it,
    and neither does the first button of the modal; the card carries no
    Closed label, and it pulses exactly when the task is overdue and not
    paused; a paused task is dimmed and never pulses. *)
Theorem board_card_actions fp fs tasks now slaDays b t :
  b ∈ values (renderTasks fp fs tasks) -> t ∈ b ->
  let c := createTaskCard now slaDays t in
  (status t ∉ quick_actions c) /\
  ("closed" ∈ quick_actions c) /\
  snd (start_button t) <> status t /\
  status_label c <> Some "Closed" /\
  (pulse c = true <->
     (now - default (created_at t) (received_at t)) / ms_per_day > slaDays
     /\ status t <> "paused") /\
  (dimmed c = true -> pulse c = false).
Proof.
  intros Hb Ht. destruct (status_of_bucket _ _ _ _ _ Hb Ht) as [_ Hex].
  cbv zeta. unfold createTaskCard, getSLAStatus. cbv zeta.
  cbn [quick_actions status_label pulse dimmed].
  unfold excluded in Hex. apply orb_false_iff in Hex as [Hc Ha].
  rewrite Hc.
  set (d := (now - default (created_at t) (received_at t)) / ms_per_day).
  split; [|split; [|split; [|split; [|split]]]].
  - destruct (String.eqb_spec (status t) "in_progress") as [E|E];
      [|destruct (String.eqb_spec (status t) "paused") as [E'|E']];
      rewrite ?E, ?E', !elem_of_cons, elem_of_nil; try (intros [?|[?|[]]]; done).
    intros [?|[]]. apply String.eqb_neq in Hc. done.
  - destruct (String.eqb (status t) "in_progress");
      [|destruct (String.eqb (status t) "paused")];
      rewrite !elem_of_cons; tauto.
  - unfold start_button.
    destruct (String.eqb_spec (status t) "in_progress") as [E|E];
      [|destruct (String.eqb_spec (status t) "paused") as [E'|E']];
      cbn [snd]; rewrite ?E, ?E'; congruence.
  - destruct (String.eqb (status t) "new"); [done|].
    destruct (String.eqb (status t) "in_progress"); [done|].
    by destruct (String.eqb (status t) "paused").
  - destruct (Z.gtb_spec d slaDays) as [Hd|Hd].
    + cbn [isOverdue]. destruct (String.eqb_spec (status t) "paused") as [E|E];
        cbn; split; try done; try tauto. intros _. split; [lia|done].
    + destruct (d >=? slaDays - 1); cbn [isOverdue andb]; split; try done; lia.
  - intros ->. by rewrite andb_false_r.
Qed.

(** X8. Time only makes a task later: once a task is At Risk it is never
    On Time again, once Overdue it stays Overdue, and the days elapsed do
    not go down. *)
Theorem getSLAStatus_monotone now now' slaDays received :
  now <= now' ->
  let r := getSLAStatus now slaDays (Some received) in
  let r' := getSLAStatus now' slaDays (Some received) in
  daysElapsed r <= daysElapsed r' /\
  (isOverdue r = true -> isOverdue r' = true /\ sla_status r' = "Overdue") /\
  (sla_status r = "At Risk" -> sla_status r' <> "On Time").
Proof.
  intros Hle. cbv zeta. unfold getSLAStatus. cbv zeta.
  assert ((now - received) / ms_per_day <= (now' - received) / ms_per_day) as Hd.
  { apply Z.div_le_mono; [reflexivity | lia]. }
  set (d := (now - received) / ms_per_day) in *.
  set (d' := (now' - received) / ms_per_day) in *.
  destruct (Z.gtb_spec d slaDays); destruct (Z.gtb_spec d' slaDays);
    destruct (Z.geb_spec d (slaDays - 1)); destruct (Z.geb_spec d' (slaDays - 1));
    cbn [daysElapsed isOverdue sla_status]; repeat split; try done; try lia.
Qed.

(** X9. [clearFilters] sends nothing and draws the board anew with both
    filters empty: every task of the snapshot that is not closed or
    archived is on it again, in an executive bucket. *)
Theorem clearFilters_shows_all w :
  let w' := exec clearFilters w in
  let c := renderTasks (Some "") (Some "") (allTasks w) in
  since w w' = [Render c] /\
  allTasks w' = allTasks w /\
  truthy (filterProject w') = false /\ truthy (filterSender w') = false /\
  forall t, t ∈ allTasks w -> excluded t = false ->
    t ∈ quick c \/ t ∈ deep c \/ t ∈ waiting c.
Proof.
  cbv zeta. world_fields w. unfold clearFilters. unfold_handlers.
  split; [by apply since_app|]. repeat split.
  intros t Ht Hex.
  destruct (KanbanView.renderTasks_buckets (Some "") (Some "") tasks0 t)
    as (Hw & Hq & Hd & _).
  cbv zeta in *. rewrite Hw, Hq, Hd. unfold placed, passes. cbn.
  destruct (decide (triage_category t = "waiting_for"));
    destruct (decide (triage_category t = "quick_action")); tauto.
Qed.

Lemma board_card_actions_witness :
  pulse (createTaskCard (10 * ms_per_day) 4 task_paused_old) = false.
Proof.
  refine (proj2 (proj2 (proj2 (proj2 (proj2
           (board_card_actions None None [task_paused_old] (10 * ms_per_day) 4
              [task_paused_old] task_paused_old _ _))))) eq_refl).
  - unfold values. rewrite !elem_of_cons. do 5 right. left. reflexivity.
  - apply list_elem_of_singleton. reflexivity.
Defined.

Lemma getSLAStatus_monotone_witness :
  sla_status (getSLAStatus (6 * ms_per_day) 4 (Some 0)) = "Overdue".
Proof.
  refine (proj2 (proj1 (proj2 (getSLAStatus_monotone (5 * ms_per_day)
                                 (6 * ms_per_day) 4 0 _)) eq_refl)).
  vm_compute. discriminate.
Defined.

End BoardFacts.

(** ** The handlers of the modal: what they leave behind *)

Module ModalFlow.
Import Kanban Board KanbanFlow.

Ltac effects_norm := since_norm; cbn [messages dom_ops omap app pendingTaskUpdate
  modalTaskReply currentTaskId allTasks take].

(** A step by cases, leaving out the cases the hypotheses exclude. *)
Ltac step_case :=
  match goal with
  | |- context [match ?x with _ => _ end] =>
      lazymatch x with
      | context [match _ with _ => _ end] => fail
      | context [if _ then _ else _] => fail
      | _ => destruct x eqn:?
      end
  | |- context [if ?x then _ else _] =>
      lazymatch x with
      | context [match _ with _ => _ end] => fail
      | context [if _ then _ else _] => fail
      | _ => destruct x eqn:?
      end
  end.

Ltac prune :=
  try (exfalso;
       first [ congruence
             | match goal with
               | H : String.eqb _ _ = _ |- _ => vm_compute in H; discriminate H
               end ]).

Ltac run_known :=
  unfold step, settle, handler, openTaskModal, copyReply, selectContact,
    confirmDelegation, sendReply, updateTaskStatus, updateTaskCategory,
    updateTask, openDeleteModal, confirmDelete;
  repeat (unfold_handlers; cbn [app fold_left];
          try (step_case; prune)).

(** The property of a world, set aside while the handler is run. *)
Ltac on_world t :=
  cbv zeta; pattern t;
  match goal with
  | |- ?P _ =>
      let Q := fresh "Q" in
      let Hcut := fresh "Hcut" in
      set (Q := P);
      cut (forall w', t = w' -> Q w');
      [intros Hcut; exact (Hcut _ eq_refl)|];
      intros ?
  end.

Ltac on_step a :=
  cbv zeta;
  match goal with
  | |- context [step ?w a] => on_world (step w a)
  end.

Ltac stepped :=
  intros <-;
  repeat match goal with Q := _ |- _ => subst Q end;
  cbv beta.

(** X10. [sendReply] with no task in the modal, or with a reply of white
    space only, sends nothing: it shows one error message and leaves the
    page as it was. *)
Theorem sendReply_validates w :
  inflight w = [] ->
  currentTaskId w = None \/ is_blank (modalTaskReply w) = true ->
  let w' := step w SendReply in
  (exists text, since w w' = [ShowMessage text "error" 3000]) /\
  set_trace (trace w) w' = w.
Proof.
  world_fields w. cbn [inflight currentTaskId modalTaskReply]. intros -> H.
  on_step SendReply. destruct H as [H|H]; run_known.
  all: stepped; since_norm; split; [eexists; reflexivity | reflexivity].
Qed.

Lemma sendReply_validates_witness :
  exists text,
    since (set_modalTaskReply "  " delegation_staged)
      (step (set_modalTaskReply "  " delegation_staged) SendReply)
    = [ShowMessage text "error" 3000].
Proof.
  exact (proj1 (sendReply_validates (set_modalTaskReply "  " delegation_staged)
                  eq_refl (or_intror eq_refl))).
Defined.

(** X11. When the [POST] of the reply fails, whatever the reason, the
    staged update is kept, the modal stays open with its draft, one error
    message is shown and the send button is enabled again: the user can
    send once more, and the delegation is then still applied. *)
Theorem sendReply_failure_keeps_staged w tid :
  inflight w = [] ->
  currentTaskId w = Some tid -> is_blank (modalTaskReply w) = false ->
  answered_ok (answer 0 w) = false ->
  let w' := step w SendReply in
  pendingTaskUpdate w' = pendingTaskUpdate w /\
  modalTaskReply w' = modalTaskReply w /\
  currentTaskId w' = Some tid /\
  allTasks w' = allTasks w /\
  dom_ops (since w w') = ["sendBtn:disabled"; "sendBtn:enabled"] /\
  exists text, messages (since w w') = [(text, "error")].
Proof.
  world_fields w. cbn [inflight currentTaskId modalTaskReply]. intros -> -> Hb.
  unfold answer. cbn [server]. intros Hok.
  on_step SendReply.
  destruct srv0 as [|[e|[] body] srv0]; cbn [nth answered_ok] in Hok;
    try discriminate Hok; run_known.
  all: stepped; effects_norm; repeat split; eexists; reflexivity.
Qed.

Lemma sendReply_failure_keeps_staged_witness :
  pendingTaskUpdate (step staged_offline SendReply)
  = Some (PDelegation (Some "Dana Kim")).
Proof.
  exact (proj1 (sendReply_failure_keeps_staged staged_offline 7
                  eq_refl eq_refl eq_refl eq_refl)).
Defined.

(** X12. When the reply was sent and the [PUT] of the staged update then
    fails, [updateTask] tells the failure, and [sendReply] goes on as after
    a success: the staged update is dropped, the modal is closed and the
    user is told the email was sent. The update is not tried again. *)
Theorem sendReply_drops_staged_on_put_failure w tid p body :
  inflight w = [] ->
  currentTaskId w = Some tid -> is_blank (modalTaskReply w) = false ->
  pendingTaskUpdate w = Some p ->
  answer 0 w = Answer true body -> answered_ok (answer 1 w) = false ->
  let w' := step w SendReply in
  pendingTaskUpdate w' = None /\
  dom_ops (since w w') = ["sendBtn:disabled"; "closeTaskModal"; "sendBtn:enabled"] /\
  exists text,
    take 2 (messages (since w w'))
    = [(text, "error"); ("Email sent successfully!", "success")].
Proof.
  world_fields w.
  cbn [inflight currentTaskId modalTaskReply pendingTaskUpdate].
  intros -> -> Hb ->. unfold answer. cbn [server]. intros H0 H1.
  on_step SendReply.
  destruct srv0 as [|r0 [|[e|[] body1] srv0]]; cbn [nth answered_ok] in H0, H1;
    try discriminate H0; try discriminate H1; subst r0; run_known.
  all: stepped; effects_norm; repeat split; eexists; reflexivity.
Qed.

Lemma sendReply_drops_staged_on_put_failure_witness :
  pendingTaskUpdate
    (step (set_server [Answer true None] delegation_staged) SendReply) = None.
Proof.
  exact (proj1 (sendReply_drops_staged_on_put_failure
                  (set_server [Answer true None] delegation_staged) 7
                  (PDelegation (Some "Dana Kim")) None
                  eq_refl eq_refl eq_refl eq_refl eq_refl eq_refl)).
Defined.


(** X13. A re-fetch that fails, whatever the reason, leaves the snapshot
    and the filters as they were and draws nothing: the board keeps showing
    the tasks it had, and one error message is shown. *)
Theorem getTasks_failure_keeps_board w :
  answered_ok (answer 0 w) = false \/ (exists ok, answer 0 w = Answer ok None) ->
  let w' := exec getTasks w in
  allTasks w' = allTasks w /\
  filterProject w' = filterProject w /\ filterSender w' = filterSender w /\
  count is_render (since w w') = 0%nat /\
  exists text, messages (since w w') = [(text, "error")].
Proof.
  world_fields w. unfold answer. cbn [server nth]. intros H.
  on_world (exec getTasks (World tasks0 rtype0 deleg0 pend0 cur0 del0
                             reply0 fp0 fs0 tr0 infl0 srv0)).
  destruct srv0 as [|[e|[] [j|]] srv0]; cbn [nth answered_ok] in H;
    try (destruct H as [H|[ok H]]; discriminate H); run_known.
  all: stepped; effects_norm; cbn [filterProject filterSender];
    repeat split; eexists; reflexivity.
Qed.


Lemma getTasks_failure_keeps_board_witness :
  allTasks (exec getTasks offline) = [task7].
Proof.
  exact (proj1 (getTasks_failure_keeps_board offline (or_introl eq_refl))).
Defined.

Lemma keeps_project_carried cur l :
  keeps_project cur l = true ->
  exists t, t ∈ l /\ project t = cur /\ project t <> Some "Unknown"
            /\ truthy (project t) = true.
Proof.
  unfold keeps_project. intros H. apply existsb_exists in H as (t & Hin & Ht).
  apply andb_true_iff in Ht as [Ht Hc]. apply andb_true_iff in Ht as [Ht Hu].
  apply bool_decide_eq_true in Hc. apply negb_true_iff, bool_decide_eq_false in Hu.
  exists t. by rewrite list_elem_of_In.
Qed.

Lemma keeps_sender_carried cur l :
  keeps_sender cur l = true ->
  exists t, t ∈ l /\ sender t = cur /\ truthy (sender t) = true.
Proof.
  unfold keeps_sender. intros H. apply existsb_exists in H as (t & Hin & Ht).
  apply andb_true_iff in Ht as [Ht Hc]. apply bool_decide_eq_true in Hc.
  exists t. by rewrite list_elem_of_In.
Qed.

(** X14. After a re-fetch that brought a snapshot, each filter has the
    value it had or is empty, and a filter that is still set is carried by
    a task of the new snapshot (for the project, one other than Unknown);
    the board is drawn from the new snapshot with these filters. *)
Theorem getTasks_keeps_valid_filters w j :
  answer 0 w = Answer true (Some j) ->
  let w' := exec getTasks w in
  allTasks w' = j_tasks j /\
  (filterProject w' = filterProject w \/ filterProject w' = Some "") /\
  (filterSender w' = filterSender w \/ filterSender w' = Some "") /\
  (truthy (filterProject w') = true ->
   exists t, t ∈ j_tasks j /\ project t = filterProject w'
             /\ project t <> Some "Unknown") /\
  (truthy (filterSender w') = true ->
   exists t, t ∈ j_tasks j /\ sender t = filterSender w') /\
  last (since w w')
  = Some (Render (renderTasks (filterProject w') (filterSender w') (j_tasks j))).
Proof.
  world_fields w. unfold answer. cbn [server nth]. intros H.
  on_world (exec getTasks (World tasks0 rtype0 deleg0 pend0 cur0 del0
                             reply0 fp0 fs0 tr0 infl0 srv0)).
  destruct srv0 as [|r srv0]; cbn [nth] in H; [discriminate H|]. subst r.
  run_known.
  all: stepped; since_norm; cbn [allTasks filterProject filterSender last].
  all: repeat match goal with
       | H : keeps_project _ _ = true |- _ =>
           apply keeps_project_carried in H as (? & ? & ? & ? & ?)
       | H : keeps_sender _ _ = true |- _ =>
           apply keeps_sender_carried in H as (? & ? & ? & ?)
       end.
  all: split; [reflexivity|]; split; [tauto|]; split; [tauto|].
  all: split; [first [discriminate | intros _; eexists; eauto]|].
  all: split; [first [discriminate | intros _; eexists; eauto]|reflexivity].
Qed.

Lemma getTasks_keeps_valid_filters_witness :
  allTasks (exec getTasks (board [accepted [task7]])) = [task7].
Proof.
  exact (proj1 (getTasks_keeps_valid_filters (board [accepted [task7]])
                  (Json None [task7]) eq_refl)).
Defined.

(** X15. [confirmDelete] with no network: the exception of its [fetch]
    leaves the handler, so the dialog and the modal stay open, nothing is
    re-fetched and no message is shown; with no task to delete in the
    dialog it does nothing at all. *)
Theorem confirmDelete_rejected w :
  inflight w = [] ->
  (forall tid e,
     deleteId w = Some tid -> answer 0 w = Rejected e ->
     snd (confirmDelete w) = Thrown e /\
     since w (step w ConfirmDelete) = [Fetch (DeleteTask tid) (Rejected e)]) /\
  (deleteId w = None -> step w ConfirmDelete = w).
Proof.
  world_fields w. cbn [inflight deleteId]. intros ->. split.
  - intros tid e ->. unfold answer. cbn [server]. intros H.
    destruct srv0 as [|r srv0]; cbn [nth] in H.
    + injection H as <-. split; [reflexivity|].
      on_step ConfirmDelete. run_known. stepped. since_norm. reflexivity.
    + subst r. split; [reflexivity|].
      on_step ConfirmDelete. run_known. stepped. since_norm. reflexivity.
  - intros ->. reflexivity.
Qed.

Lemma confirmDelete_rejected_witness :
  snd (confirmDelete offline_delete) = Thrown "Failed to fetch".
Proof.
  exact (proj1 (proj1 (confirmDelete_rejected offline_delete eq_refl)
                  7 "Failed to fetch" eq_refl eq_refl)).
Defined.

Lemma copyReply_delegate_opens w tid :
  inflight w = [] ->
  is_Some (find_task (Some tid) (allTasks w)) ->
  let w1 := step w (CopyReply (Some tid) "delegate") in
  selectedDelegate w1 = None /\ pendingTaskUpdate w1 = None /\
  modalTaskReply w1 = modalTaskReply w /\ inflight w1 = [] /\
  requests (since w w1) = [GetCircle ""] /\ messages (since w w1) = [] /\
  exists l, trace w1 = (trace w ++ l)%list.
Proof.
  world_fields w. cbn [inflight allTasks]. intros -> [t Ht].
  on_step (CopyReply (Some tid) "delegate").
  run_known.
  all: stepped; effects_norm; cbn [selectedDelegate requests inflight trace omap];
    repeat split; eexists; trace_ext.
Qed.

(** X16. Asking to delegate opens the contact dialog with no contact
    chosen, whatever was chosen before: confirming at once stages nothing
    and leaves the draft alone, and the only request is the contact
    search. *)
Theorem delegate_dialog_forgets_choice w tid :
  inflight w = [] ->
  is_Some (find_task (Some tid) (allTasks w)) ->
  let w' := run [CopyReply (Some tid) "delegate"; ConfirmDelegation] w in
  selectedDelegate w' = None /\
  pendingTaskUpdate w' = None /\
  modalTaskReply w' = modalTaskReply w /\
  requests (since w w') = [GetCircle ""] /\
  messages (since w w') = [].
Proof.
  intros Hi Hf. unfold run. cbn [fold_left].
  destruct (copyReply_delegate_opens w tid Hi Hf)
    as (Hd & Hp & Hr & Hi1 & Hq & Hm & l & Hl).
  apply since_app in Hl as Hs. rewrite Hs in Hq, Hm.
  generalize dependent (step w (CopyReply (Some tid) "delegate")).
  intros w1. world_fields w1.
  cbn [selectedDelegate pendingTaskUpdate modalTaskReply inflight trace].
  intros -> -> -> -> -> _.
  cbv zeta. 
  assert (step (World tasks0 rtype0 None None cur0 del0 (modalTaskReply w) fp0 fs0
                  (trace w ++ l) [] srv0) ConfirmDelegation
          = World tasks0 rtype0 None None cur0 del0 (modalTaskReply w) fp0 fs0
                  (trace w ++ l) [] srv0) as -> by reflexivity.
  cbn [selectedDelegate pendingTaskUpdate modalTaskReply].
  unfold since. cbn [trace]. rewrite drop_app_length. done.
Qed.

Lemma delegate_dialog_forgets_choice_witness :
  pendingTaskUpdate
    (run [CopyReply (Some 7) "delegate"; ConfirmDelegation] delegation_staged)
  = None.
Proof.
  exact (proj1 (proj2 (delegate_dialog_forgets_choice delegation_staged 7
                         eq_refl (ex_intro _ task7 eq_refl)))).
Defined.

(** X17. A card dropped on a column: with a status on the column the
    task of the card is asked to take that status, also when the column has
    a category as well; with a category only, that category; with neither,
    or with no card in the transfer, nothing is sent. The request is
    followed by a re-fetch when it succeeded. *)
Theorem drop_updates_card now slaDays t col w :
  inflight w = [] ->
  let dropped data := settle (exec (handleDrop (Some col) data) w) in
  let then_refetch := if answered_ok (answer 0 w) then [GetTasks] else [] in
  requests (since w (dropped (handleDragStart (createTaskCard now slaDays t))))
  = (if truthy (data_status col) then
       PutTask (id t) (PStatus (default "" (data_status col))) :: then_refetch
     else if truthy (data_category col) then
       PutTask (id t) (PCategory (default "" (data_category col))) :: then_refetch
     else []) /\
  requests (since w (dropped None)) = [].
Proof.
  world_fields w. cbn [inflight]. intros ->. cbv zeta.
  unfold handleDragStart, createTaskCard. cbn [card_task].
  destruct col as [st ca]. cbn [data_status data_category].
  split.
  - match goal with |- context [settle ?x] => on_world (settle x) end.
    unfold handleDrop. cbn [data_status data_category].
    destruct (truthy st); [|destruct (truthy ca)]; run_known.
    all: stepped; since_norm; reflexivity.
  - unfold handleDrop. run_known. since_norm. reflexivity.
Qed.

Lemma drop_updates_card_witness :
  requests (since (board [accepted [task7]; accepted [task7]])
              (settle (exec (handleDrop (Some (Column (Some "paused") None)) (Some 7))
                         (board [accepted [task7]; accepted [task7]]))))
  = [PutTask 7 (PStatus "paused"); GetTasks].
Proof.
  exact (proj1 (drop_updates_card 0 4 task7 (Column (Some "paused") None)
                  (board [accepted [task7]; accepted [task7]]) eq_refl)).
Defined.

End ModalFlow.

(** ** Syncing: one at a time, and batched *)

Module SyncFacts.
Import Kanban Board Sync.

Ltac state_fields s :=
  destruct s as [syncing0 manual0 synced0 sbtn0 hbtn0 batch0 awaited0 sent0 page0].

Lemma in_cooldown_spec now lastSync :
  in_cooldown now lastSync = true <-> now - lastSync < 3600000.
Proof.
  unfold in_cooldown. rewrite negb_true_iff, <- not_true_iff_false,
    QArith_base.Qle_bool_iff.
  unfold diffMins, QArith_base.Qle, BATCH_SYNC_COOLDOWN_MINUTES. cbn. lia.
Qed.

Lemma waitTime_spec now lastSync :
  waitTime now lastSync = 60 - (now - lastSync) / 60000.
Proof.
  unfold waitTime, diffMins, Qround.Qceiling, Qround.Qfloor,
    BATCH_SYNC_COOLDOWN_MINUTES. cbn.
  set (z := now - lastSync).
  change (Z.pos (1 * 1000 * 60)) with 60000.
  change (Z.pos (1 * (1 * 1000 * 60))) with 60000.
  replace (- (60 * 60000 + - (z * 1 * 1) * 1)) with (z + (-60) * 60000) by lia.
  rewrite Z.div_add by lia. lia.
Qed.

(** X18. The notice of the batching: after a manual sync at [lastSync],
    [checkBatchingStatus] shows it exactly during the hour that follows,
    with the whole minutes left rounded up, a number from 1 to 60 that
    reaches 60 at the sync itself and does not grow with time. *)
Theorem checkBatchingStatus_minutes now lastSync s :
  lastManualSync s = Some lastSync -> lastSync <= now ->
  let shown := batchingMessage (checkBatchingStatus now s) in
  (now - lastSync < 3600000 ->
   shown = Some (60 - (now - lastSync) / 60000) /\
   exists n, shown = Some n /\ 1 <= n <= 60 /\ (now = lastSync -> n = 60)) /\
  (3600000 <= now - lastSync -> shown = None).
Proof.
  intros Hl Hle. cbv zeta. unfold checkBatchingStatus. rewrite Hl.
  destruct (in_cooldown now lastSync) eqn:Hc.
  - apply in_cooldown_spec in Hc. state_fields s. cbn [batchingMessage set_batchingMessage].
    rewrite waitTime_spec. split; [|lia]. intros _. split; [reflexivity|].
    eexists. split; [reflexivity|].
    assert (0 <= (now - lastSync) / 60000 < 60) as Hd.
    { split; [apply Z.div_pos; lia|]. apply Z.div_lt_upper_bound; lia. }
    split; [lia|]. intros ->. rewrite Z.sub_diag. reflexivity.
  - apply not_true_iff_false in Hc. rewrite in_cooldown_spec in Hc.
    state_fields s. cbn [batchingMessage set_batchingMessage]. split; [lia|done].
Qed.

Lemma checkBatchingStatus_minutes_witness :
  batchingMessage
    (checkBatchingStatus 90000
       (State false (Some 0) None false false None [] [] offline))
  = Some 59.
Proof.
  refine (proj1 (proj1 (checkBatchingStatus_minutes 90000 0
                         (State false (Some 0) None false false None [] [] offline)
                         eq_refl _) _)); vm_compute; [discriminate | reflexivity].
Defined.

Ltac sync_unfold :=
  unfold step, handleSyncClick, syncEmails, syncHistoricalDate, resume,
    syncEmails_answer, syncHistoricalDate_answer, syncEmails_finally,
    syncHistoricalDate_finally, getTasks_answer, updateLastSyncTime_answer,
    updateLastSyncTime, checkBatchingStatus, send, say;
  cbn [isSyncing lastManualSync lastSyncTime syncBtn_disabled histBtn_disabled
       batchingMessage awaited sent page set_isSyncing set_lastManualSync
       set_lastSyncTime set_syncBtn_disabled set_histBtn_disabled
       set_batchingMessage set_awaited set_sent set_page negb].

Lemma filter_delete_sync l i k :
  l !! i = Some k ->
  length (List.filter is_sync l)
  = ((if is_sync k then 1 else 0) + length (List.filter is_sync (delete i l)))%nat.
Proof.
  revert i. induction l as [|x l IH]; intros [|i] H; try discriminate H.
  - injection H as ->. cbn. by destruct (is_sync k).
  - cbn in H. change (delete (S i) (x :: l)) with (x :: delete i l).
    cbn [List.filter]. destruct (is_sync x); cbn [length]; rewrite (IH _ H);
      destruct (is_sync k); lia.
Qed.

Lemma syncs_app l1 l2 :
  length (List.filter is_sync (l1 ++ l2))
  = (length (List.filter is_sync l1) + length (List.filter is_sync l2))%nat.
Proof. by rewrite List.filter_app, length_app. Qed.

Lemma step_consistent s e : consistent s -> consistent (step s e).
Proof.
  state_fields s. unfold consistent, syncs_awaited. cbn [isSyncing awaited].
  intros H. destruct e as [now|now|now|date|i a].
  - sync_unfold. destruct manual0 as [lastSync|];
      [destruct (in_cooldown now lastSync); [exact H|]|];
      destruct syncing0; sync_unfold; try exact H;
      repeat (case_match; sync_unfold); rewrite syncs_app, H; reflexivity.
  - sync_unfold. destruct syncing0; sync_unfold; [exact H|].
    case_match; sync_unfold; rewrite syncs_app, H; reflexivity.
  - sync_unfold. destruct syncing0; sync_unfold; [exact H|].
    rewrite syncs_app, H; reflexivity.
  - sync_unfold. destruct (String.eqb date ""); sync_unfold; [exact H|].
    destruct syncing0; sync_unfold; [exact H|].
    rewrite syncs_app, H; reflexivity.
  - unfold step. cbn [awaited]. destruct (awaited0 !! i) as [k|] eqn:Hk; [|exact H].
    rewrite (filter_delete_sync _ _ _ Hk) in H.
    destruct k as [[[]|]|[[]|]|], a as [[e|[] [data|]]|rs];
      sync_unfold; cbn [default from_option Datatypes.id is_sync] in *; sync_unfold;
      repeat (case_match; sync_unfold);
      rewrite ?syncs_app, ?(filter_delete_sync _ _ _ Hk);
      cbn [List.filter is_sync length];
      destruct syncing0; lia.
Qed.

Lemma loaded_consistent now manual synced board :
  consistent (loaded now manual synced board).
Proof.
  unfold loaded, consistent, syncs_awaited. sync_unfold.
  destruct manual as [lastSync|]; [destruct (in_cooldown now lastSync)|]; reflexivity.
Qed.

Lemma run_consistent evs s : consistent s -> consistent (run evs s).
Proof.
  revert s. induction evs as [|e evs IH]; intros s H; [exact H|].
  apply IH, step_consistent, H.
Qed.

(** X19. One sync at a time: whatever the user clicks and whenever the
    answers arrive, at most one sync, of new emails or historical, waits
    for an answer, and [isSyncing] is true exactly while one does. *)
Theorem one_sync_at_a_time now manual synced board evs :
  let s := run evs (loaded now manual synced board) in
  (syncs_awaited s <= 1)%nat /\
  (isSyncing s = true <-> syncs_awaited s = 1%nat) /\
  (isSyncing s = false <-> syncs_awaited s = 0%nat).
Proof.
  cbv zeta.
  pose proof (run_consistent evs _ (loaded_consistent now manual synced board)) as H.
  unfold consistent in H. rewrite H.
  destruct (isSyncing _); repeat split; intros; try done; lia.
Qed.

(** X20. While a sync waits for an answer, a click on the sync button, a
    forced sync and a historical sync send nothing, leave the flag and the
    time of the last manual sync alone, and tell the refusal in one error
    message; an automatic sync is refused in silence. *)
Theorem sync_refused_while_syncing s now date e :
  isSyncing s = true ->
  e ∈ [SyncClick now; ForceSync now; AutoSync now; HistoricalClick date] ->
  let s' := step s e in
  sent s' = sent s /\ awaited s' = awaited s /\ isSyncing s' = true /\
  lastManualSync s' = lastManualSync s /\
  exists text,
    messages (since (page s) (page s'))
    = match e with AutoSync _ => [] | _ => [(text, "error")] end.
Proof.
  state_fields s. cbn [isSyncing]. intros -> He. cbv zeta.
  rewrite !elem_of_cons, elem_of_nil in He.
  destruct He as [->|[->|[->|[->|[]]]]]; sync_unfold.
  - destruct manual0 as [lastSync|];
      [destruct (in_cooldown now lastSync)|]; sync_unfold;
      do 4 (split; [reflexivity|]); destruct page0; eexists; unfold since; cbn;
      rewrite drop_app_length; reflexivity.
  - do 4 (split; [reflexivity|]); destruct page0; eexists; unfold since; cbn;
      rewrite drop_app_length; reflexivity.
  - do 4 (split; [reflexivity|]). exists "". unfold since. by rewrite drop_all.
  - destruct (String.eqb date ""); sync_unfold;
      do 4 (split; [reflexivity|]); destruct page0; eexists; unfold since; cbn;
      rewrite drop_app_length; reflexivity.
Qed.

Lemma sync_refused_while_syncing_witness :
  sent (step (step (loaded 0 None None offline) (ForceSync 5)) (ForceSync 9))
  = [Status; Emails].
Proof.
  refine (proj1 (sync_refused_while_syncing
                   (step (loaded 0 None None offline) (ForceSync 5)) 9 "" (ForceSync 9)
                   eq_refl _)).
  rewrite !elem_of_cons. right. left. reflexivity.
Defined.

Lemma length_delete_lookup {A} (l : list A) i k :
  l !! i = Some k -> length (delete i l) = (length l - 1)%nat.
Proof.
  revert i. induction l as [|x l IH]; intros [|i] H; try discriminate H.
  - cbn. lia.
  - change (delete (S i) (x :: l)) with (x :: delete i l). cbn [length].
    cbn in H. rewrite (IH _ H). destruct l; [discriminate H|]. cbn. lia.
Qed.

Lemma step_arrives s i k a :
  awaited s !! i = Some k ->
  step s (Arrives i a)
  = default s (resume k a (set_awaited (delete i (awaited s)) s)).
Proof. unfold step. by intros ->. Qed.

(** X21. Whatever the answer to the [POST] of a sync, the sync ends: a
    failure of any kind runs [catch] and [finally] at once, with one error
    message unless the sync was automatic; a success sends the re-fetch of
    the tasks, and whatever that brings, [finally] runs after it. Then
    [isSyncing] is false and the button the sync had disabled is enabled. *)
Theorem sync_always_released s i c a :
  awaited s !! i = Some (PostAnswer c) ->
  let s1 := step s (Arrives i (OfSync a)) in
  (succeeded a = false ->
   released c s1 /\
   (Tasks ∉ sent_since s s1) /\
   exists text,
     messages (since (page s) (page s1))
     = match c with SyncEmails true => [] | _ => [(text, "error")] end) /\
  (succeeded a = true ->
   sent_since s s1 = [Tasks] /\
   forall rs,
     released c (step s1 (Arrives (length (awaited s) - 1) (OfTasks rs)))).
Proof.
  intros Hk. cbv zeta. rewrite (step_arrives _ _ _ _ Hk).
  state_fields s. cbn [awaited] in *.
  pose proof (length_delete_lookup _ _ _ Hk) as Hlen.
  unfold sent_since, released. split.
  - intros Hf.
    destruct c as [[]|], a as [e|[] [data|]]; try discriminate Hf;
      sync_unfold; cbn [default from_option Datatypes.id]; sync_unfold;
      (split; [done|]);
      (split; [rewrite ?drop_app_length, ?drop_all, ?elem_of_cons, ?elem_of_nil;
               intros H; repeat destruct H as [H|H]; done|]);
      destruct page0; unfold since;
      cbn [trace exec fst showMessage emit modify set_trace];
      first [ exists ""; rewrite drop_all; reflexivity
            | eexists; rewrite drop_app_length; reflexivity ].
  - intros Hs. destruct a as [e|[] [data|]]; try discriminate Hs.
    destruct c as [[]|];
      sync_unfold; cbn [default from_option Datatypes.id]; sync_unfold;
      (split; [by rewrite drop_app_length|]); intros rs;
      unfold step; sync_unfold;
      rewrite <- Hlen, list_lookup_middle by reflexivity;
      sync_unfold; cbn [default from_option Datatypes.id]; sync_unfold; done.
Qed.

Lemma sync_always_released_witness :
  isSyncing (step (step (loaded 0 None None offline) (ForceSync 5))
               (Arrives 1 (OfSync (Unanswered "Failed to fetch")))) = false.
Proof.
  exact (proj1 (proj1 (proj1 (sync_always_released
                  (step (loaded 0 None None offline) (ForceSync 5)) 1
                  (SyncEmails false) (Unanswered "Failed to fetch") eq_refl)
                  eq_refl))).
Defined.

Lemma arrival_keeps_lastManualSync s e :
  is_arrival e -> lastManualSync (step s e) = lastManualSync s.
Proof.
  destruct e as [| | | |i a]; try done. intros _. state_fields s.
  unfold step. cbn [awaited]. destruct (awaited0 !! i) as [k|]; [|done].
  destruct k as [[[]|]|[[]|]|], a as [[e|[] [data|]]|rs];
    sync_unfold; cbn [default from_option Datatypes.id]; sync_unfold;
    repeat (case_match; sync_unfold); reflexivity.
Qed.

Lemma arrivals_keep_lastManualSync evs s :
  Forall is_arrival evs -> lastManualSync (run evs s) = lastManualSync s.
Proof.
  intros H. revert s. induction H as [|e evs He _ IH]; intros s; [done|].
  unfold run in *. cbn [fold_left]. by rewrite IH, arrival_keeps_lastManualSync.
Qed.

(** X22. The batching of the syncs: after a manual sync at the time [t],
    and whatever answers arrive, a click on the sync button less than an
    hour later sends nothing and shows the notice; from one hour on, and
    once that sync has ended, the click starts a sync, which sets the time
    of the last manual sync anew. *)
Theorem sync_click_batched s t answers now :
  isSyncing s = false -> Forall is_arrival answers ->
  let s2 := run answers (step s (ForceSync t)) in
  let s3 := step s2 (SyncClick now) in
  (now - t < 3600000 ->
   sent s3 = sent s2 /\ lastManualSync s3 = Some t /\
   messages (since (page s2) (page s3))
   = [("Hold on! It's better to batch emails.", "error")]) /\
  (3600000 <= now - t -> isSyncing s2 = false ->
   sent s3 = (sent s2 ++ [Emails])%list /\ lastManualSync s3 = Some now /\
   isSyncing s3 = true).
Proof.
  intros Hs Ha. cbv zeta.
  assert (lastManualSync (run answers (step s (ForceSync t))) = Some t) as Hl.
  { rewrite arrivals_keep_lastManualSync by done.
    state_fields s. cbn [isSyncing] in Hs. subst syncing0. sync_unfold.
    unfold in_cooldown, diffMins. rewrite Z.sub_diag. reflexivity. }
  generalize dependent (run answers (step s (ForceSync t))). intros s2 Hl.
  state_fields s2. cbn [lastManualSync] in Hl. subst manual0.
  sync_unfold. destruct (in_cooldown now t) eqn:Hc.
  - apply in_cooldown_spec in Hc. split; [|lia]. intros _. sync_unfold.
    repeat split. destruct page0. unfold since. cbn.
    by rewrite drop_app_length.
  - apply not_true_iff_false in Hc. rewrite in_cooldown_spec in Hc.
    split; [lia|]. intros _. cbn [isSyncing]. intros ->. sync_unfold.
    unfold in_cooldown, diffMins. rewrite Z.sub_diag.
    change (negb _) with true. sync_unfold. done.
Qed.

Lemma sync_click_batched_witness :
  sent (step (run [Arrives 1 (OfSync (Unanswered "Failed to fetch"))]
                (step (loaded 0 None None offline) (ForceSync 5)))
          (SyncClick 60005))
  = [Status; Emails; Status].
Proof.
  refine (proj1 (proj1 (sync_click_batched (loaded 0 None None offline) 5
                          [Arrives 1 (OfSync (Unanswered "Failed to fetch"))] 60005
                          eq_refl _) _)).
  - repeat constructor.
  - vm_compute. reflexivity.
Defined.

End SyncFacts.

(** ** The archive: export, search and grid *)

Module ArchiveFacts.
Import Archive ArchivePage.

#[local] Arguments Ascii.eqb : simpl never.

Lemma occurrences_app c s1 s2 :
  occurrences c (s1 ++ s2) = (occurrences c s1 + occurrences c s2)%nat.
Proof.
  induction s1 as [|c' s1 IH]; simpl; [done|]. rewrite IH. lia.
Qed.

Lemma occurrences_includes c s : includes c s = false -> occurrences c s = 0%nat.
Proof.
  induction s as [|c' s IH]; simpl; [done|].
  intros H. apply orb_false_iff in H as [-> H]. by rewrite IH.
Qed.

Lemma escapeCSV_line_break c str :
  c = CR \/ c = LF -> includes c (escapeCSV str) = false.
Proof.
  intros Hc.
  assert (c <> dquote) as Hd by (destruct Hc as [-> | ->]; discriminate).
  assert (Ascii.eqb dquote c = false) as Hq by (apply Ascii.eqb_neq; congruence).
  unfold escapeCSV. destruct (truthy str); simpl.
  - pose proof (proj1 (ArchiveCsv.replace_newlines_clean c Hc (default "" str))) as Hn.
    destruct (includes "," (replace_newlines (default "" str))); [|exact Hn].
    cbn [includes]. rewrite Hq, ArchiveCsv.includes_app,
      ArchiveCsv.double_quotes_keeps, Hn by done.
    simpl. by rewrite Hq.
  - rewrite Hq. reflexivity.
Qed.

Lemma row_line_break toLocaleDateString c t :
  c = CR \/ c = LF ->
  occurrences c (join_commas (row toLocaleDateString t)) = 0%nat.
Proof.
  intros Hc.
  assert (Ascii.eqb "," c = false) as Hcomma by (destruct Hc as [-> | ->]; reflexivity).
  unfold row. cbn [join_commas].
  rewrite !occurrences_app. cbn [occurrences]. rewrite Hcomma.
  rewrite !occurrences_includes by (by apply escapeCSV_line_break). reflexivity.
Qed.

Lemma export_fold_line_breaks toLocaleDateString c l : forall csv,
  c = CR \/ c = LF ->
  occurrences c
    (fold_left (fun csv t => csv ++ join_commas (row toLocaleDateString t) ++ CRLF) l csv)
  = (occurrences c csv + length l)%nat.
Proof.
  induction l as [|t l IH]; intros csv Hc; cbn [fold_left length]; [lia|].
  rewrite IH by done. rewrite !occurrences_app, row_line_break by done.
  destruct Hc as [-> | ->];
    [change (occurrences CR CRLF) with 1%nat | change (occurrences LF CRLF) with 1%nat];
    lia.
Qed.

(** X23. The CSV that [exportToCSV] builds has one line per task and one
    for the headers, whatever the texts of the tasks and whatever the
    locale writes for a date: the carriage returns and the line feeds of
    the file are those that end its lines. With no task there is no file. *)
Theorem exportToCSV_one_line_per_task toLocaleDateString list :
  match exportToCSV toLocaleDateString list with
  | Some csv =>
      list <> [] /\
      occurrences CR csv = S (length list) /\
      occurrences LF csv = S (length list)
  | None => list = []
  end.
Proof.
  destruct list as [|t l]; [reflexivity|].
  unfold exportToCSV. split; [discriminate|].
  split; rewrite export_fold_line_breaks by auto.
  - change (occurrences CR _) with 1%nat. cbn [length]. lia.
  - change (occurrences LF _) with 1%nat. cbn [length]. lia.
Qed.

Lemma lower_idem c : lower (lower c) = lower c.
Proof.
  unfold lower.
  destruct ((65 <=? nat_of_ascii c)%nat && (nat_of_ascii c <=? 90)%nat) eqn:E.
  - apply andb_true_iff in E as [E1 E2].
    apply Nat.leb_le in E1, E2.
    rewrite nat_ascii_embedding by lia.
    destruct ((65 <=? nat_of_ascii c + 32)%nat && (nat_of_ascii c + 32 <=? 90)%nat) eqn:E';
      [|reflexivity].
    apply andb_true_iff in E' as [_ E']. apply Nat.leb_le in E'. lia.
  - by rewrite E.
Qed.

Lemma toLowerCase_idem s : toLowerCase (toLowerCase s) = toLowerCase s.
Proof. induction s as [|c s IH]; simpl; [done|]. by rewrite lower_idem, IH. Qed.

Lemma includes_term_empty s : includes_term "" s = true.
Proof. unfold includes_term. by destruct s. Qed.

(** X24. The search of the recent tasks does not tell capitals from small
    letters in what the user types, and a task with no summary, no sender
    and no subject is never among its results: once the user has typed,
    emptying the search box brings back the tasks that have a text, not
    all. *)
Theorem filterArchive_search value recentTasks :
  filterArchive (toLowerCase value) recentTasks = filterArchive value recentTasks /\
  filterArchive "" recentTasks = List.filter has_text recentTasks /\
  Forall (fun t => has_text t = true) (filterArchive value recentTasks).
Proof.
  split; [|split].
  - unfold filterArchive. by rewrite toLowerCase_idem.
  - unfold filterArchive, has_text, field_matches. cbn [toLowerCase].
    apply List.filter_ext. intros t. by rewrite !includes_term_empty, !andb_true_r.
  - apply Forall_forall. intros t Ht. apply list_elem_of_In in Ht.
    unfold filterArchive in Ht. apply filter_In in Ht as [_ Ht].
    unfold has_text, field_matches in *.
    destruct (truthy (task_summary t)), (truthy (ct_sender t)),
      (truthy (subject t)); done.
Qed.


Section Groups.
Context {A : Type} (key : A -> string).

Lemma push_group_keys k (x : A) groups :
  map fst (push_group k x groups)
  = (map fst groups ++ if bool_decide (k ∈ map fst groups) then [] else [k])%list.
Proof.
  induction groups as [|[k' l] groups IH]; [done|].
  cbn [push_group map fst app]. destruct (String.eqb_spec k' k) as [->|Hne].
  - cbn [map fst]. rewrite bool_decide_eq_true_2 by (left). by rewrite app_nil_r.
  - cbn [map fst]. rewrite IH. cbn [app]. f_equal. f_equal.
    rewrite (bool_decide_ext (k ∈ k' :: map fst groups) (k ∈ map fst groups));
      [done|].
    rewrite elem_of_cons. split; [intros [?|?]; [congruence|done] | by right].
Qed.

Lemma push_group_group_of k (x : A) k0 groups :
  group_of k0 (push_group k x groups)
  = (group_of k0 groups ++ if String.eqb k k0 then [x] else [])%list.
Proof.
  induction groups as [|[k' l] groups IH].
  - cbn. by destruct (String.eqb k k0).
  - cbn [push_group]. destruct (String.eqb_spec k' k) as [->|Hne]; cbn [group_of].
    + destruct (String.eqb k k0); [done | by rewrite app_nil_r].
    + destruct (String.eqb_spec k' k0) as [->|Hne']; [|exact IH].
      destruct (String.eqb_spec k k0); [congruence | by rewrite app_nil_r].
Qed.

Lemma push_group_concat k (x : A) groups :
  concat (map snd (push_group k x groups)) ≡ₚ x :: concat (map snd groups).
Proof.
  induction groups as [|[k' l] groups IH]; [done|].
  cbn [push_group]. destruct (String.eqb k' k); cbn [map snd concat].
  - rewrite <- app_assoc. cbn [app]. symmetry. apply Permutation_middle.
  - rewrite IH. symmetry. apply Permutation_middle.
Qed.

Lemma push_group_nonempty k (x : A) groups :
  Forall (fun g => snd g <> []) groups ->
  Forall (fun g : string * list A => snd g <> []) (push_group k x groups).
Proof.
  induction 1 as [|[k' l] groups Hg Hgs IH]; cbn [push_group].
  - by repeat constructor.
  - destruct (String.eqb k' k); constructor; try done.
    cbn. by destruct l.
Qed.

Lemma group_of_elem k (l : list A) groups :
  NoDup (map fst groups) -> (k, l) ∈ groups -> group_of k groups = l.
Proof.
  induction groups as [|[k' l'] groups IH]; intros Hnd Hin.
  - by apply elem_of_nil in Hin.
  - cbn [map fst] in Hnd. apply NoDup_cons in Hnd as [Hk' Hnd].
    apply elem_of_cons in Hin as [Heq|Hin]; cbn [group_of].
    + injection Heq as <- <-. by rewrite String.eqb_refl.
    + destruct (String.eqb_spec k' k) as [->|Hne]; [|by apply IH].
      destruct Hk'. apply list_elem_of_fmap. by exists (k, l).
Qed.

Lemma groups_of_facts tasks :
  let g := groups_of key tasks in
  NoDup (map fst g) /\
  Forall (fun p => snd p <> []) g /\
  (forall k, group_of k g = List.filter (fun t => String.eqb (key t) k) tasks) /\
  (forall t, t ∈ tasks -> key t ∈ map fst g) /\
  concat (map snd g) ≡ₚ tasks.
Proof.
  unfold groups_of.
  assert (forall done g,
    (NoDup (map fst g) /\
     Forall (fun p : string * list A => snd p <> []) g /\
     (forall k, group_of k g = List.filter (fun t => String.eqb (key t) k) done) /\
     (forall t, t ∈ done -> key t ∈ map fst g) /\
     concat (map snd g) ≡ₚ done) ->
    let g' := fold_left (fun groups t => push_group (key t) t groups) tasks g in
    NoDup (map fst g') /\
    Forall (fun p : string * list A => snd p <> []) g' /\
    (forall k, group_of k g'
               = List.filter (fun t => String.eqb (key t) k) (done ++ tasks)) /\
    (forall t, t ∈ (done ++ tasks)%list -> key t ∈ map fst g') /\
    concat (map snd g') ≡ₚ (done ++ tasks)%list) as Hgen.
  { induction tasks as [|t tasks IH]; intros done g H; cbv zeta.
    - cbn [fold_left]. by rewrite app_nil_r.
    - cbn [fold_left]. replace (done ++ t :: tasks)%list with ((done ++ [t]) ++ tasks)%list
        by (by rewrite <- app_assoc).
      apply IH. destruct H as (Hnd & Hne & Hg & Hk & Hp).
      split; [|split; [|split; [|split]]].
      + rewrite push_group_keys. case_bool_decide as Hin; [by rewrite app_nil_r|].
        apply NoDup_app. split; [done|]. split; [|apply NoDup_singleton].
        intros k Hk1 Hk2. apply list_elem_of_singleton in Hk2 as ->. done.
      + by apply push_group_nonempty.
      + intros k. rewrite push_group_group_of, Hg, List.filter_app. cbn [List.filter].
        reflexivity.
      + intros t' Ht'. rewrite push_group_keys. apply elem_of_app in Ht' as [Ht'|Ht'].
        * apply elem_of_app. left. by apply Hk.
        * apply list_elem_of_singleton in Ht' as ->.
          case_bool_decide as Hin; [by rewrite app_nil_r|].
          apply elem_of_app. right. by apply list_elem_of_singleton.
      + rewrite push_group_concat, Hp. by rewrite <- Permutation_cons_append. }
  apply (Hgen [] []). repeat split; try done; try constructor.
  intros t Ht. by apply elem_of_nil in Ht.
Qed.

End Groups.

(** X25. The grid groups the tasks by the month they were closed in: the
    months of the headers are all different, every task is under the
    header of its month, and under a header are exactly the tasks of that
    month, in the order they came in; so the grid shows every task once.
    With no task, the grid says so. *)
Theorem renderGrid_groups_by_month monthYear tasks :
  match renderGrid monthYear tasks with
  | None => tasks = []
  | Some groups =>
      tasks <> [] /\
      NoDup (map fst groups) /\
      (forall k l, (k, l) ∈ groups ->
         l <> [] /\
         l = List.filter (fun t => String.eqb (monthYear (dateVal t)) k) tasks) /\
      (forall t, t ∈ tasks -> monthYear (dateVal t) ∈ map fst groups) /\
      concat (map snd groups) ≡ₚ tasks
  end.
Proof.
  destruct tasks as [|t0 tasks]; [reflexivity|].
  unfold renderGrid. split; [discriminate|].
  destruct (groups_of_facts (fun t => monthYear (dateVal t)) (t0 :: tasks))
    as (Hnd & Hne & Hg & Hk & Hp).
  split; [exact Hnd|]. split; [|split; [exact Hk | exact Hp]].
  intros k l Hin. split.
  - apply (proj1 (Forall_forall _ _) Hne (k, l) Hin).
  - rewrite <- Hg. symmetry. by apply group_of_elem.
Qed.

End ArchiveFacts.

(** ** The Listen button *)

Module NewsToggle.
Import News NewsAudio.

(** X26. The Listen button is a toggle, and the player never hangs. On
    every page the player reaches: a click on a button that is styled as
    playing leaves nothing sounding, takes the style off that button and
    makes no new audio; a click on a button of an idle page, then a second
    click on it, leave the page idle; whenever a callback of an audio runs
    (it ended, failed to load, or its play was refused), nothing sounds
    after it; and when that audio is the one sounding, with only its
    button styled, the page is idle after it. *)
Theorem listen_button_toggles p :
  reachable p ->
  (forall b, b ∈ playing p ->
     silent (playSummary b p) /\ (b ∉ playing (playSummary b p)) /\
     created (playSummary b p) = created p) /\
  (forall b, idle p -> idle (playSummary b (playSummary b p))) /\
  (forall e p', step p e p' -> (forall b, e <> Click b) -> silent p') /\
  (forall a, active a p ->
     idle (onended a p) /\ idle (onerror a p) /\ idle (play_rejected a p)).
Proof.
  intros Hr. apply reachable_one_sound in Hr as Hp. split; [|split; [|split]].
  - intros b Hb. unfold playSummary. rewrite bool_decide_eq_true_2 by done.
    destruct (stopSpeaking_silent (Some b) p Hp) as (Hs & Hc & Hn & _).
    split; [done|]. split; [by apply Hn | done].
  - intros b Hi. apply (playSummary_from_idle b) in Hi as Ha.
    pose proof Ha as (_ & _ & Hpl).
    unfold playSummary at 1. rewrite Hpl.
    rewrite bool_decide_eq_true_2 by (by apply list_elem_of_singleton).
    by apply (stopSpeaking_active _ _ _ Ha); right.
  - intros e p' Hst He. destruct Hst as [p b | p a Ha | p a Ha | p a Ha].
    + by destruct (He b).
    + by apply stopSpeaking_silent.
    + by apply stopSpeaking_silent, say_one_sound.
    + by apply stopSpeaking_silent, say_one_sound.
  - intros a Ha. split; [|split].
    + by apply (stopSpeaking_active a); [|right].
    + unfold onerror. apply (stopSpeaking_active a); [by destruct p | by right].
    + unfold play_rejected. apply (stopSpeaking_active a); [by destruct p | by right].
Qed.

Lemma listen_button_toggles_witness :
  idle (playSummary button_a (playSummary button_a init)).
Proof.
  refine (proj1 (proj2 (listen_button_toggles init reach_init)) button_a _).
  by repeat split.
Defined.
End NewsToggle.

(** ** Generating a summary *)

Module SummariesFacts.
Import Summaries.

Lemma getSummaryCardHTML_generating today summary html :
  getSummaryCardHTML today summary = Kanban.Done html ->
  s_status summary = "generating" -> card_buttons html = [ProcessingBtn].
Proof.
  unfold getSummaryCardHTML. intros H E. rewrite E in H.
  destruct (formatDate today (summary_date summary)); [|discriminate].
  by injection H as <-.
Qed.

(** X27. Generating or regenerating a summary sends one request. The card
    is rewritten exactly when the answer brought a summary that a card can
    be written from; a summary that is still generating gets a card whose
    only button is disabled, and the list is polled once, five seconds
    later. Any failure, also an answer that is no JSON, or a summary whose
    date is missing or does not parse (writing its card throws), shows one
    error message and fetches the list again at once, leaving the card
    alone. A regeneration the user did not confirm does nothing. *)
Theorem summary_generation_outcome today summaryId rs l :
  l = generateSummary today summaryId rs \/
  l = regenerateSummary true today summaryId rs ->
  length (posts l) = 1%nat /\
  match brought today rs with
  | Some (summary, html) =>
      rs = Answer true (Some summary) /\
      (exists date, summary_date summary = Some date) /\
      cards l = [(summaryId, html)] /\
      message_kinds l = ["success"] /\ refetches l = 0%nat /\
      (s_status summary = "generating" ->
       polls l = [5000] /\ card_buttons html = [ProcessingBtn]) /\
      (s_status summary <> "generating" -> polls l = [])
  | None =>
      cards l = [] /\ message_kinds l = ["error"] /\ refetches l = 1%nat /\
      polls l = []
  end /\
  (forall summary,
     rs = Answer true (Some summary) -> summary_date summary = None ->
     brought today rs = None) /\
  regenerateSummary false today summaryId rs = [].
Proof.
  intros Hl. split; [|split; [|split; [|reflexivity]]].
  - destruct Hl as [-> | ->], rs as [e|[] [s|]]; try reflexivity;
      cbn; destruct (getSummaryCardHTML today s); try reflexivity;
      by destruct (String.eqb (s_status s) "generating").
  - destruct Hl as [-> | ->], rs as [e|[] [s|]]; cbn [brought]; try by repeat split.
    all: unfold generateSummary, regenerateSummary; cbn [negb].
    all: destruct (getSummaryCardHTML today s) as [html|e] eqn:Hc;
      [|by repeat split].
    all: assert (exists date, summary_date s = Some date) as Hdate
      by (unfold getSummaryCardHTML, formatDate in Hc;
          destruct (summary_date s); [by eexists | discriminate]).
    all: destruct (String.eqb_spec (s_status s) "generating") as [E|E].
    all: repeat split; try done; try congruence.
    all: by eapply getSummaryCardHTML_generating.
  - intros summary -> Hd. unfold brought, getSummaryCardHTML, formatDate.
    by rewrite Hd.
Qed.

Lemma summary_generation_outcome_witness :
  message_kinds
    (generateSummary 1714608000000 3 (Answer true (Some undated))) = ["error"] /\
  refetches
    (generateSummary 1714608000000 3 (Answer true (Some undated))) = 1%nat.
Proof.
  pose proof (proj1 (proj2 (summary_generation_outcome 1714608000000 3
                              (Answer true (Some undated)) _ (or_introl eq_refl))))
    as H.
  cbn [brought] in H. split; apply H.
Defined.
End SummariesFacts.

(** ** The tags of the settings *)

Module SettingsFacts.
Import Kanban Settings.

Lemma trimStart_no_space s : starts_with_space (trimStart s) = false.
Proof.
  induction s as [|c s IH]; [done|]. cbn [trimStart].
  destruct (is_space c) eqn:E; [exact IH|]. exact E.
Qed.

Lemma is_blank_trimStart s : is_blank (trimStart s) = is_blank s.
Proof.
  induction s as [|c s IH]; [done|]. cbn [trimStart is_blank].
  destruct (is_space c) eqn:E; [exact IH|]. cbn [is_blank]. by rewrite E.
Qed.

Lemma trimEnd_empty s : trimEnd s = "" <-> is_blank s = true.
Proof.
  induction s as [|c s IH]; [done|]. cbn [trimEnd is_blank].
  destruct (trimEnd s) as [|c' r] eqn:E.
  - destruct (is_space c); cbn [andb]; [|done].
    split; [intros _; by apply IH | done].
  - split; [done|]. intros H. apply andb_true_iff in H as [_ H].
    apply IH in H. discriminate H.
Qed.

Lemma trimEnd_no_space s : ends_with_space (trimEnd s) = false.
Proof.
  induction s as [|c s IH]; [done|]. cbn [trimEnd].
  destruct (trimEnd s) as [|c' r] eqn:E.
  - by destruct (is_space c) eqn:Ec.
  - exact IH.
Qed.

Lemma trimEnd_keeps_start s :
  starts_with_space s = false -> starts_with_space (trimEnd s) = false.
Proof.
  destruct s as [|c s]; [done|]. cbn [starts_with_space trimEnd]. intros E.
  destruct (trimEnd s); [by rewrite E | exact E].
Qed.

Lemma trimStart_fixed s : starts_with_space s = false -> trimStart s = s.
Proof. destruct s as [|c s]; [done|]. cbn. by intros ->. Qed.

Lemma trimEnd_fixed s : ends_with_space s = false -> trimEnd s = s.
Proof.
  induction s as [|c s IH]; [done|]. cbn [ends_with_space trimEnd].
  destruct s as [|c' s'].
  - cbn. by intros ->.
  - intros H. rewrite (IH H). reflexivity.
Qed.

Lemma trim_facts value :
  is_blank value = false ->
  trim value <> "" /\ starts_with_space (trim value) = false
  /\ ends_with_space (trim value) = false /\ trim (trim value) = trim value
  /\ is_blank (trim value) = false.
Proof.
  intros Hb. unfold trim.
  assert (trimEnd (trimStart value) <> "") as Hne.
  { rewrite trimEnd_empty, is_blank_trimStart. congruence. }
  assert (starts_with_space (trimEnd (trimStart value)) = false) as Hs
    by apply trimEnd_keeps_start, trimStart_no_space.
  pose proof (trimEnd_no_space (trimStart value)) as He.
  repeat split; try done.
  - by rewrite (trimStart_fixed _ Hs), (trimEnd_fixed _ He).
  - apply not_true_iff_false. intros H. apply Hne.
    apply trimEnd_empty in H. by rewrite (trimEnd_fixed _ He) in H.
Qed.

Lemma delete_length_app (l : list string) v : delete (length l) (l ++ [v])%list = l.
Proof.
  induction l as [|x l IH]; [done|]. cbn [length app].
  change (x :: delete (length l) (l ++ [v])%list = x :: l). by rewrite IH.
Qed.

Lemma renderTags_last l v : (v, length l) ∈ renderTags (l ++ [v])%list.
Proof.
  apply list_elem_of_lookup. exists (length l). unfold renderTags.
  rewrite list_lookup_imap, lookup_app_r by lia.
  by rewrite Nat.sub_diag.
Qed.

(** X28. [addTag] ignores a value of white space only; any other value
    is stored without the white space around it, so what is stored is
    never empty and neither starts nor ends with white space, and adding it
    again as it is stored stores the same text. The tag goes to the end of
    the list of its container and to no other list, and its remove button
    takes it away again; a container the page does not have stores
    nothing. *)
Theorem addTag_stores_trimmed containerId value cs :
  (is_blank value = true -> addTag containerId value cs = cs) /\
  (is_blank value = false ->
   let v := trim value in
   v <> "" /\ starts_with_space v = false /\ ends_with_space v = false /\
   addTag containerId v cs = addTag containerId value cs /\
   (containerId ∈ ["projectsList"; "tagsList"; "domainsList"] ->
    shown_list containerId (addTag containerId value cs)
    = (shown_list containerId cs ++ [v])%list /\
    (v, length (shown_list containerId cs))
      ∈ renderTags (shown_list containerId (addTag containerId value cs)) /\
    removeTag containerId (length (shown_list containerId cs))
      (addTag containerId value cs) = cs) /\
   (containerId ∉ ["projectsList"; "tagsList"; "domainsList"] ->
    addTag containerId value cs = cs)).
Proof.
  split; [intros H; unfold addTag; by rewrite H|].
  intros Hb. cbv zeta.
  destruct (trim_facts value Hb) as (Hne & Hs & He & Hfix & Hb').
  do 3 (split; [done|]). split; [|split].
  - unfold addTag. by rewrite Hb, Hb', Hfix.
  - rewrite !elem_of_cons, elem_of_nil. unfold addTag, removeTag, shown_list.
    rewrite Hb. destruct cs as [p t d].
    intros [->|[->|[->|[]]]]; cbn -[renderTags trim splice1 push length];
      unfold splice1, push; rewrite delete_length_app;
      (split; [reflexivity|]); (split; [apply renderTags_last | reflexivity]).
  - rewrite !not_elem_of_cons. intros (H1 & H2 & H3 & _).
    unfold addTag. rewrite Hb.
    apply String.eqb_neq in H1, H2, H3. by rewrite H1, H2, H3.
Qed.

Lemma addTag_stores_trimmed_witness :
  shown_list "tagsList" (addTag "tagsList" "  urgent " (Settings [] ["later"] []))
  = ["later"; "urgent"].
Proof.
  refine (proj1 (proj1 (proj2 (proj2 (proj2 (proj2
           (proj2 (addTag_stores_trimmed "tagsList" "  urgent "
                     (Settings [] ["later"] [])) eq_refl))))) _)).
  rewrite !elem_of_cons. right. left. reflexivity.
Defined.
End SettingsFacts.

(** ** Generating a report *)

Module ReportsFacts.
Import Reports.

(** X29. [generateReport] with a date missing shows one alert and sends
    nothing. With both dates and an answer that brings a report, it closes
    the dialog of its type, asks for the list of reports again, and only
    then opens the report, if the answer names one; the button is enabled
    again last. Any type other than consolidated is a custom report. *)
Theorem generateReport_opens_after_reload type start end_ p :
  let r := generateReport type start end_ p in
  let new := drop (length (trace p)) (trace (fst r)) in
  let isConsol := String.eqb type "consolidated" in
  (start = "" \/ end_ = "" ->
   new = [Alert "Please select both start and end dates."] /\
   server (fst r) = server p) /\
  (start <> "" -> end_ <> "" ->
   forall data, next_answer p = Answer true (Some data) ->
   exists listed,
     new = ([Dom "btn:disabled";
             Fetch (if isConsol then "/api/reports/consolidated"
                    else "/api/reports/custom") (Answer true (Some data));
             Dom (if isConsol then "closeConsolidateModal" else "closeGenerateModal");
             Dom "reportsList:loading";
             Fetch "/api/reports/list" (nth 1 (server p) (Rejected "Failed to fetch"));
             Dom listed]
            ++ (if truthy (url data) then [WindowOpen (default "" (url data))] else [])
            ++ [Dom "btn:enabled"])%list /\
     snd r = None).
Proof.
  cbv zeta. unfold generateReport. split.
  - intros H.
    assert (String.eqb start "" || String.eqb end_ "" = true) as ->.
    { destruct H as [-> | ->]; [reflexivity|]. by rewrite orb_true_r. }
    destruct p as [tr srv]. cbn. by rewrite drop_app_length.
  - intros Hs He data Hrs.
    apply String.eqb_neq in Hs, He. rewrite Hs, He. cbn [orb].
    destruct p as [tr srv]. unfold next_answer in Hrs. cbn [server] in Hrs.
    destruct srv as [|rs srv]; [discriminate Hrs|]. cbn [hd] in Hrs. subst rs.
    unfold generate, loadReports, sent, say, next_answer.
    cbn [trace server hd tl nth fst snd].
    destruct (String.eqb type "consolidated");
      destruct srv as [|[e|ok [files|]] srv]; cbn [hd tl fst snd trace];
      destruct (truthy (url data)); cbn [fst snd trace];
      rewrite <- ?app_assoc, drop_app_length; eexists; split; reflexivity.
Qed.

Lemma generateReport_opens_after_reload_witness :
  drop 0 (trace (fst (generateReport "standard" "" "2024-05-08" offline_reports)))
  = [Alert "Please select both start and end dates."].
Proof.
  exact (proj1 (proj1 (generateReport_opens_after_reload "standard" ""
                          "2024-05-08" offline_reports) (or_introl eq_refl))).
Defined.
End ReportsFacts.
